(** * Prometheus Mars: the agentic tool-calling loop, its tool dispatcher,
    the provider adapters and the skill selector, with the task
    lifecycle, the platform client, the skill parser and the task loop
    around them.

    A shallow embedding of
      - tools/types.ts and tools/tool-executor.ts
          (modules [ToolDefinition], [ToolCall], [ToolResult], [Tool],
           [ToolExecutor]),
      - core/llm-adapter.ts
          (the message and response types, the wire formats, [Adapter]),
      - core/task-worker.ts
          (modules [SkillMatching], [Worker] and [TaskWorker]),
      - channels/spacemars-api.ts
          (module [SpaceMarsApi]; [SpaceMarsClient] is the interface the
           worker sees),
      - core/skill-loader.ts
          (modules [JSString] and [SkillLoader]),
      - config/config.ts and core/agent.ts
          (modules [Config] and [PrometheusAgent]),
    followed by the vocabulary of the properties, the stubs of the
    examples, and the properties themselves.

    Conventions.  JavaScript strings are [string]; arrays are [list]; a
    value that may be [undefined] or [null] is an [option]; numbers that
    count are [Z] or [nat].  An [async] function, and any code that may
    [throw], is a function of type [IO.t S A]: it takes the state of the
    outside world and returns the new state with either the thrown value
    or the result.

    Values that reach the code through an unchecked cast are modelled as
    they arrive, not as the cast declares them: the body of an HTTP
    response (its arrays may be absent, its text may fail to be read), the
    arguments of a Gemini function call (absent when the call has none),
    the fields of a parsed SKILL.md (a string or an array), and a value
    thrown by a tool (an [Error], a value with a string, or a value
    without one).  What [console.log] and [console.warn] print is not
    modelled; the evaluation of their arguments is, where it can throw. *)

From Stdlib Require Import Strings.String Strings.Ascii List Bool Arith ZArith Lia.
From Stdlib Require Import Sorting.Sorted Sorting.Permutation.
From Stdlib Require Import Numbers.DecimalString.
Import ListNotations.
Local Open Scope list_scope.
Local Open Scope string_scope.

Set Implicit Arguments.

(* ================================================================== *)
(** * JavaScript primitives used by the sources *)
(* ================================================================== *)

Module JS.

(** [xs.join(sep)] on an array of strings. *)
Definition join (sep : string) (xs : list string) : string :=
  String.concat sep xs.

(** [s.includes(sub)]. *)
Definition includes (s sub : string) : bool :=
  match String.index 0 sub s with
  | Some _ => true
  | None => false
  end.

(** [s.split(sep)] for a one-character separator: never the empty array,
    [("").split("-")] is [[""]]. *)
Fixpoint split (sep : ascii) (s : string) : list string :=
  match s with
  | EmptyString => [EmptyString]
  | String c rest =>
      if Ascii.eqb c sep then EmptyString :: split sep rest
      else match split sep rest with
           | [] => [String c EmptyString]
           | part :: parts => String c part :: parts
           end
  end.

(** [s.toLowerCase()] follows the case mapping of Unicode, which is not
    written out here: the sources that call it take it from the runtime
    as a function on strings ([Host.toLowerCase] for the adapters, the
    parameter [toLowerCase] of the worker), and what is proved of them
    holds for every such function.  On text made of ASCII characters it
    is [ascii_toLowerCase]: the letters [A] to [Z] are replaced, every
    other character is kept.  The examples run on ASCII text and take
    that function. *)
Definition lower_char (c : ascii) : ascii :=
  let n := nat_of_ascii c in
  if ((65 <=? n)%nat && (n <=? 90)%nat)%bool then ascii_of_nat (n + 32) else c.

Fixpoint ascii_toLowerCase (s : string) : string :=
  match s with
  | EmptyString => EmptyString
  | String c rest => String (lower_char c) (ascii_toLowerCase rest)
  end.

(** Truthiness of a string: only [""] is falsy. *)
Definition truthy (s : string) : bool := negb (String.eqb s "").

(** [new Set(xs)]: the distinct elements in order of first insertion. *)
Definition Set_add (acc : list string) (x : string) : list string :=
  if existsb (String.eqb x) acc then acc else (acc ++ [x])%list.

Definition Set_of (xs : list string) : list string :=
  fold_left Set_add xs [].

(** [set.has(x)]. *)
Definition Set_has (set : list string) (x : string) : bool :=
  existsb (String.eqb x) set.

(** A JSON value, for tool arguments ([Record<string, unknown>]). *)
#[warnings="-register-all"]
Inductive Json : Type :=
| JNull
| JBool (b : bool)
| JNumber (z : Z)
| JString (s : string)
| JArray (items : list Json)
| JObject (fields : list (string * Json)).

Definition JsonObject : Type := list (string * Json).

(** What a [throw] carries: an [Error] object (its [name] and
    [message]), or any other value.  Of another value only [String(value)]
    is ever asked: the value is kept as that string, or, when the
    conversion itself throws (an object without [toString], as
    [Object.create(null)], or one whose [toString] throws), as what the
    conversion throws. *)
Inductive Thrown : Type :=
| ErrorObject (name message : string)
| OtherValue (rendered : string)
| Unconvertible (raised : Thrown).

(** [err instanceof Error ? err.message : String(err)]: the message, or
    what [String(err)] throws. *)
Definition message_of (err : Thrown) : Thrown + string :=
  match err with
  | ErrorObject _ message => inr message
  | OtherValue rendered => inr rendered
  | Unconvertible raised => inl raised
  end.

(** [new Error(message)]. *)
Definition new_Error (message : string) : Thrown := ErrorObject "Error" message.

(** Reading a property of [undefined]. *)
Definition TypeError_undefined (property : string) : Thrown :=
  ErrorObject "TypeError"
    ("Cannot read properties of undefined (reading '" ++ property ++ "')").

(** [arr.sort(cmp)]: a stable sort (ECMAScript 2019); [x] is placed before
    the first [y] with [cmp x y <= 0]. *)
Section Sort.
Variable A : Type.
Variable cmp : A -> A -> Z.

Fixpoint sort_insert (x : A) (sorted : list A) : list A :=
  match sorted with
  | [] => [x]
  | y :: rest =>
      if (cmp x y <=? 0)%Z then x :: y :: rest else y :: sort_insert x rest
  end.

Definition sort (xs : list A) : list A := fold_right sort_insert [] xs.
End Sort.

(** [xs.map(f)] with a callback that may throw: the first throw ends
    the call. *)
Fixpoint map_or_throw (A B : Type) (f : A -> Thrown + B) (xs : list A) : Thrown + list B :=
  match xs with
  | [] => inr []
  | x :: rest =>
      match f x with
      | inl err => inl err
      | inr y =>
          match map_or_throw f rest with
          | inl err => inl err
          | inr ys => inr (y :: ys)
          end
      end
  end.

(** [arr.slice(0, n)]. *)
Definition slice0 (A : Type) (n : nat) (xs : list A) : list A := firstn n xs.

(** A number the sources only print: it is kept as the text that a
    template literal gives for it (["50"], ["1.5"], ["1e+21"]). *)
Record Number : Type := number
  { Number_toString : string }.

End JS.

(* ================================================================== *)
(** * Effects: the outside world and thrown values *)
(* ================================================================== *)

(** An [async] function or a function that may [throw], run against a
    state [S] (the file system, the network, the clock ...).  A thrown
    value does not undo what was done to the state before it. *)
Module IO.

Definition t (S A : Type) : Type := S -> S * (JS.Thrown + A).

Section Ops.
Variable S : Type.

Definition ret (A : Type) (a : A) : t S A := fun s => (s, inr a).

Definition throw (A : Type) (err : JS.Thrown) : t S A := fun s => (s, inl err).

Definition bind (A B : Type) (m : t S A) (k : A -> t S B) : t S B :=
  fun s =>
    match m s with
    | (s', inl err) => (s', inl err)
    | (s', inr a) => k a s'
    end.

(** [try { body } catch (err) { handler(err) }]. *)
Definition try_catch (A : Type) (body : t S A) (handler : JS.Thrown -> t S A) : t S A :=
  fun s =>
    match body s with
    | (s', inl err) => handler err s'
    | (s', inr a) => (s', inr a)
    end.

(** [for (const x of xs) { out.push(await f(x)) }]. *)
Fixpoint for_of (A B : Type) (f : A -> t S B) (xs : list A) : t S (list B) :=
  match xs with
  | [] => ret []
  | x :: rest =>
      bind (f x) (fun y => bind (for_of f rest) (fun ys => ret (y :: ys)))
  end.

End Ops.

Arguments ret {S A} a _.
Arguments throw {S A} err _.
Arguments bind {S A B} m k _.
Arguments try_catch {S A} body handler _.
Arguments for_of {S A B} f xs _.

End IO.

Declare Scope io_scope.
Delimit Scope io_scope with io.
Notation "x <- m ;; k" := (IO.bind m (fun x => k))
  (at level 61, m at next level, right associativity) : io_scope.
Notation "' pat <- m ;; k" := (IO.bind m (fun x => match x with pat => k end))
  (at level 61, pat pattern, m at next level, right associativity) : io_scope.
Local Open Scope io_scope.

(* ================================================================== *)
(** * tools/types.ts *)
(* ================================================================== *)

(** JSON Schema definition sent to the LLM so it knows how to call a tool. *)
Module ToolDefinition.
Record input_schema_t : Type := mk_schema
  { properties : JS.JsonObject;
    required : option (list string) }.
Record t : Type := mk
  { name : string;
    description : string;
    input_schema : input_schema_t }.
End ToolDefinition.

(** A tool call request from the LLM.  [input] is declared as an
    object; it is what the adapter found in the model's answer, which for
    a Gemini function call without arguments is [undefined] ([None]). *)
Module ToolCall.
Record t : Type := mk
  { id : string;
    name : string;
    input : option JS.JsonObject }.
End ToolCall.

(** Result returned to the LLM after executing a tool; [is_error] is an
    optional field. *)
Module ToolResult.
Record t : Type := mk
  { tool_use_id : string;
    content : string;
    is_error : option bool }.
End ToolResult.

(** Interface that each built-in tool implements; [execute] is given
    the call's input as it is, acts on the world and may reject. *)
Module Tool.
Record t (World : Type) : Type := mk
  { definition : ToolDefinition.t;
    execute : option JS.JsonObject -> IO.t World string }.
End Tool.

(* ================================================================== *)
(** * tools/tool-executor.ts *)
(* ================================================================== *)

Module ToolExecutor.

Section WithWorld.
Variable World : Type.

(** [private tools = new Map<string, Tool>()]: keys in insertion order. *)
Definition t : Type := list (string * Tool.t World).

Definition empty : t := [].

(** [Map.prototype.set]: an existing key keeps its place and takes the
    new value, a new key goes last. *)
Fixpoint Map_set (key : string) (value : Tool.t World) (tools : t) : t :=
  match tools with
  | [] => [(key, value)]
  | (k, v) :: rest =>
      if String.eqb k key then (k, value) :: rest
      else (k, v) :: Map_set key value rest
  end.

(** [Map.prototype.get]. *)
Fixpoint Map_get (key : string) (tools : t) : option (Tool.t World) :=
  match tools with
  | [] => None
  | (k, v) :: rest => if String.eqb k key then Some v else Map_get key rest
  end.

Definition register (tool : Tool.t World) (tools : t) : t :=
  Map_set (ToolDefinition.name (Tool.definition tool)) tool tools.

Definition getDefinitions (tools : t) : list ToolDefinition.t :=
  map (fun kv => Tool.definition (snd kv)) tools.

Definition getToolNames (tools : t) : list string :=
  map fst tools.

Definition execute (tools : t) (call : ToolCall.t) : IO.t World ToolResult.t :=
  match Map_get (ToolCall.name call) tools with
  | None =>
      IO.ret (ToolResult.mk (ToolCall.id call)
                            ("Unknown tool: " ++ ToolCall.name call)
                            (Some true))
  | Some tool =>
      IO.try_catch
        (output <- Tool.execute tool (ToolCall.input call) ;;
         IO.ret (ToolResult.mk (ToolCall.id call) output None))
        (fun err =>
           match JS.message_of err with
           | inl raised => IO.throw raised
           | inr message =>
               IO.ret (ToolResult.mk (ToolCall.id call)
                                     ("Error: " ++ message)
                                     (Some true))
           end)
  end.

End WithWorld.

End ToolExecutor.

(* ================================================================== *)
(** * core/llm-adapter.ts: response and message types *)
(* ================================================================== *)

Module LLMResponse.
Record t : Type := mk
  { content : string;
    provider : string;
    model : string;
    tokensUsed : option Z }.
End LLMResponse.

(** [{ type: "text"; text }] or [{ type: "tool_use"; id; name; input }];
    [input] is [None] when the adapter stored [undefined]. *)
Inductive ContentBlock : Type :=
| text_block (text : string)
| tool_use_block (id name : string) (input : option JS.JsonObject).

(** [stopReason] is declared as the union of three literals; at run time
    it is whatever string the adapter stored, so it is a [string] here. *)
Module LLMToolResponse.
Record t : Type := mk
  { content : list ContentBlock;
    stopReason : string;
    provider : string;
    model : string;
    tokensUsed : option Z }.
End LLMToolResponse.

(** [{ type: "tool_result"; tool_use_id; content; is_error? }]. *)
Module ToolResultContent.
Record t : Type := mk
  { tool_use_id : string;
    content : string;
    is_error : option bool }.
End ToolResultContent.

Inductive Role : Type := user | assistant.

(** [content: string | ContentBlock[] | ToolResultContent[]]. *)
Inductive MessageContent : Type :=
| content_string (s : string)
| content_blocks (blocks : list ContentBlock)
| content_results (results : list ToolResultContent.t).

Module LLMMessage.
Record t : Type := mk
  { role : Role;
    content : MessageContent }.
End LLMMessage.

Definition Role_eqb (a b : Role) : bool :=
  match a, b with
  | user, user | assistant, assistant => true
  | _, _ => false
  end.

(** [b.type === "tool_use"]. *)
Definition is_tool_use (b : ContentBlock) : bool :=
  match b with text_block _ => false | tool_use_block _ _ _ => true end.

(** [blocks.filter((b) => b.type === "text").map((b) => b.text)]. *)
Fixpoint texts_of (blocks : list ContentBlock) : list string :=
  match blocks with
  | [] => []
  | text_block s :: rest => s :: texts_of rest
  | tool_use_block _ _ _ :: rest => texts_of rest
  end.

(** [blocks.filter((b) => b.type === "tool_use")], each kept block read
    as the call it describes. *)
Fixpoint tool_uses_of (blocks : list ContentBlock) : list ToolCall.t :=
  match blocks with
  | [] => []
  | text_block _ :: rest => tool_uses_of rest
  | tool_use_block id name input :: rest =>
      ToolCall.mk id name input :: tool_uses_of rest
  end.

(** The three literals of [LLMToolResponse["stopReason"]]. *)
Definition stop_reasons : list string := ["end_turn"; "tool_use"; "max_tokens"].

Definition is_stop_reason (s : string) : bool :=
  existsb (String.eqb s) stop_reasons.

(* ================================================================== *)
(** * core/llm-adapter.ts: the wire formats *)
(* ================================================================== *)

(** What the Anthropic endpoint answers (the type the source casts
    [res.json()] to); the [input] of a block is handed on as it is. *)
Module AnthropicWire.
Inductive block : Type :=
| text (text : string)
| tool_use (id name : string) (input : option JS.JsonObject).
Record usage_t : Type := mk_usage { input_tokens : Z; output_tokens : Z }.
Record data : Type := mk
  { content : list block;
    stop_reason : string;
    usage : option usage_t }.
End AnthropicWire.

(** What the OpenAI endpoint answers, read at the type the source casts
    it to.  Nothing checks the cast, so every field the source reads may
    be absent: [choices] (reading its first element then throws), and
    [message], [content] and [tool_calls], which the source reads through
    [?.], [??] or a truthiness test. *)
Module OpenAIWire.
Record tool_call : Type := mk_call
  { id : string;
    function_name : string;
    function_arguments : string }.
Record message_t : Type := mk_message
  { content : option string;
    tool_calls : option (list tool_call) }.
Record choice : Type := mk_choice
  { message : option message_t;
    finish_reason : string }.
Record data : Type := mk
  { choices : option (list choice);
    usage_total_tokens : option Z }.
End OpenAIWire.

(** What the Gemini endpoint answers, read at the type the source casts
    it to.  A part is [{ text }], or [{ functionCall }] (whose [args] the
    vendor leaves out for a function without arguments), or carries
    neither key; [candidates] may be absent (reading its first element
    then throws), and so may [content] and [parts], which are read
    through [?.]. *)
Module GoogleWire.
Inductive part : Type :=
| text (text : string)
| functionCall (name : string) (args : option JS.JsonObject)
| other_part.
Record content_t : Type := mk_content
  { parts : option (list part) }.
Record candidate : Type := mk_candidate
  { content : option content_t;
    finishReason : string }.
Record data : Type := mk
  { candidates : option (list candidate);
    usageMetadata_totalTokenCount : option Z }.
End GoogleWire.

(** Messages as sent to OpenAI; [arguments] is [JSON.stringify] of the
    input, which for an [undefined] input is [undefined]: the key is then
    left out of the body. *)
Module OpenAIRequest.
Record tool_call : Type := mk_call
  { id : string;
    function_name : string;
    function_arguments : option string }.
Inductive message : Type :=
| plain (role : string) (content : MessageContent)
| tool (tool_call_id content : string)
| assistant_msg (content : option string) (tool_calls : option (list tool_call)).
End OpenAIRequest.

(** Turns as sent to Gemini. *)
Module GoogleRequest.
Inductive part : Type :=
| text (text : string)
| functionCall (name : string) (args : option JS.JsonObject)
| functionResponse (name : string) (response_content : string).
Record content : Type := mk
  { role : option string;
    parts : list part }.
End GoogleRequest.

Module Http.

(** The object passed to [JSON.stringify] for the request body.  The
    [tools] field is present only when the tool list is not empty; the
    per-vendor wrapping of each definition carries the same three
    fields. *)
Inductive Body : Type :=
| anthropic_body (model : string) (max_tokens : nat) (system : string)
    (messages : list LLMMessage.t) (tools : option (list ToolDefinition.t))
| openai_body (model : string) (messages : list OpenAIRequest.message)
    (max_tokens : nat) (tools : option (list ToolDefinition.t))
| google_body (systemInstruction : string) (contents : list GoogleRequest.content)
    (maxOutputTokens : nat) (tools : option (list ToolDefinition.t)).

(** A POST request. *)
Record Request : Type := mk_request
  { url : string;
    headers : list (string * string);
    body : Body }.

(** The [Response] of [fetch]: [text] is what [res.text()] resolves to,
    [json] what [res.json()] resolves to at the type the adapter casts it
    to; either may be the value the call rejects with (the connection
    breaks while the body is read, the body is not JSON). *)
Record Response (D : Type) : Type := mk_response
  { ok : bool;
    status : nat;
    text : JS.Thrown + string;
    json : JS.Thrown + D }.

End Http.

(** What the adapters take from their host: [fetch] (one entry per vendor
    endpoint, typed by that vendor's answer), [JSON.parse],
    [JSON.stringify], the identifier
    [`gemini_${Date.now()}_${Math.random().toString(36).slice(2, 8)}`],
    and [String.prototype.toLowerCase]. *)
Module Host.
Record t (World : Type) : Type := mk
  { fetch_anthropic : Http.Request -> IO.t World (Http.Response AnthropicWire.data);
    fetch_openai : Http.Request -> IO.t World (Http.Response OpenAIWire.data);
    fetch_google : Http.Request -> IO.t World (Http.Response GoogleWire.data);
    JSON_parse : string -> JS.Thrown + JS.JsonObject;
    JSON_stringify : JS.JsonObject -> string;
    gemini_id : IO.t World string;
    toLowerCase : string -> string }.
End Host.

(* ================================================================== *)
(** * core/llm-adapter.ts: the adapters *)
(* ================================================================== *)

Module Adapter.

Section WithHost.
Variable World : Type.
Variable host : Host.t World.

(** [`${res.status}`]. *)
Definition status_string (n : nat) : string :=
  NilEmpty.string_of_uint (Nat.to_uint n).

(** [if (!res.ok) { const text = await res.text(); throw new
    Error(`<vendor> API error ...`) }] followed by [await res.json()]. *)
Definition read_json (vendor : string) (D : Type) (res : Http.Response D) : IO.t World D :=
  if negb (Http.ok res) then
    match Http.text res with
    | inl err => IO.throw err
    | inr text =>
        IO.throw (JS.new_Error (vendor ++ " API error " ++ status_string (Http.status res)
                                  ++ ": " ++ text))
    end
  else
    match Http.json res with
    | inl err => IO.throw err
    | inr data => IO.ret data
    end.

(** [if (tools.length > 0) { body.tools = ... }]. *)
Definition tools_field (tools : list ToolDefinition.t) : option (list ToolDefinition.t) :=
  match tools with
  | [] => None
  | _ :: _ => Some tools
  end.

(** ** Anthropic *)

Definition anthropic_url : string := "https://api.anthropic.com/v1/messages".

Definition anthropic_headers (apiKey : string) : list (string * string) :=
  [("Content-Type", "application/json");
   ("x-api-key", apiKey);
   ("anthropic-version", "2023-06-01")].

Definition anthropic_tokens (data : AnthropicWire.data) : option Z :=
  match AnthropicWire.usage data with
  | Some u => Some (AnthropicWire.input_tokens u + AnthropicWire.output_tokens u)%Z
  | None => None
  end.

Fixpoint anthropic_texts (blocks : list AnthropicWire.block) : list string :=
  match blocks with
  | [] => []
  | AnthropicWire.text s :: rest => s :: anthropic_texts rest
  | AnthropicWire.tool_use _ _ _ :: rest => anthropic_texts rest
  end.

Definition anthropic_block (block : AnthropicWire.block) : ContentBlock :=
  match block with
  | AnthropicWire.tool_use id name input => tool_use_block id name input
  | AnthropicWire.text s => text_block s
  end.

Definition Anthropic_complete (apiKey model systemPrompt userPrompt : string)
  : IO.t World LLMResponse.t :=
  res <- Host.fetch_anthropic host
           (Http.mk_request anthropic_url (anthropic_headers apiKey)
              (Http.anthropic_body model 4096 systemPrompt
                 [LLMMessage.mk user (content_string userPrompt)] None)) ;;
  data <- read_json "Anthropic" res ;;
  IO.ret (LLMResponse.mk (JS.join "" (anthropic_texts (AnthropicWire.content data)))
                         "anthropic" model (anthropic_tokens data)).

Definition Anthropic_completeWithTools (apiKey model systemPrompt : string)
    (messages : list LLMMessage.t) (tools : list ToolDefinition.t)
  : IO.t World LLMToolResponse.t :=
  res <- Host.fetch_anthropic host
           (Http.mk_request anthropic_url (anthropic_headers apiKey)
              (Http.anthropic_body model 4096 systemPrompt
                 (map (fun m => LLMMessage.mk (LLMMessage.role m) (LLMMessage.content m))
                      messages)
                 (tools_field tools))) ;;
  data <- read_json "Anthropic" res ;;
  IO.ret (LLMToolResponse.mk (map anthropic_block (AnthropicWire.content data))
                             (AnthropicWire.stop_reason data)
                             "anthropic" model (anthropic_tokens data)).

(** ** OpenAI *)

Definition openai_url : string := "https://api.openai.com/v1/chat/completions".

Definition openai_headers (apiKey : string) : list (string * string) :=
  [("Content-Type", "application/json");
   ("Authorization", "Bearer " ++ apiKey)].

(** [data.choices], about to be indexed: reading an element of
    [undefined] throws. *)
Definition openai_choices (data : OpenAIWire.data) : JS.Thrown + list OpenAIWire.choice :=
  match OpenAIWire.choices data with
  | None => inl (JS.TypeError_undefined "0")
  | Some choices => inr choices
  end.

(** [choices[0]?.message?.content ?? ""]. *)
Definition openai_first_content (choices : list OpenAIWire.choice) : string :=
  match choices with
  | [] => ""
  | choice :: _ =>
      match OpenAIWire.message choice with
      | None => ""
      | Some message =>
          match OpenAIWire.content message with
          | None => ""
          | Some content => content
          end
      end
  end.

Definition OpenAI_complete (apiKey model systemPrompt userPrompt : string)
  : IO.t World LLMResponse.t :=
  res <- Host.fetch_openai host
           (Http.mk_request openai_url (openai_headers apiKey)
              (Http.openai_body model
                 [OpenAIRequest.plain "system" (content_string systemPrompt);
                  OpenAIRequest.plain "user" (content_string userPrompt)]
                 4096 None)) ;;
  data <- read_json "OpenAI" res ;;
  match openai_choices data with
  | inl err => IO.throw err
  | inr choices =>
      IO.ret (LLMResponse.mk (openai_first_content choices) "openai" model
                             (OpenAIWire.usage_total_tokens data))
  end.

Definition role_string (r : Role) : string :=
  match r with user => "user" | assistant => "assistant" end.

(** The [tool_calls] of an assistant message: one per [tool_use] block. *)
Fixpoint openai_tool_calls (blocks : list ContentBlock) : list OpenAIRequest.tool_call :=
  match blocks with
  | [] => []
  | text_block _ :: rest => openai_tool_calls rest
  | tool_use_block id name input :: rest =>
      OpenAIRequest.mk_call id name (option_map (Host.JSON_stringify host) input)
        :: openai_tool_calls rest
  end.

(** The assistant branch: [content] only when the joined text is truthy,
    [tool_calls] only when there is one. *)
Definition openai_assistant (blocks : list ContentBlock) : OpenAIRequest.message :=
  let textParts := JS.join "" (texts_of blocks) in
  let toolCalls := openai_tool_calls blocks in
  OpenAIRequest.assistant_msg
    (if JS.truthy textParts then Some textParts else None)
    (match toolCalls with [] => None | _ :: _ => Some toolCalls end).

(** One iteration of [for (const msg of messages)]: the messages pushed
    for [msg]. *)
Definition openai_message (msg : LLMMessage.t) : list OpenAIRequest.message :=
  match LLMMessage.role msg, LLMMessage.content msg with
  | user, content_results (first :: rest) =>
      map (fun tr => OpenAIRequest.tool (ToolResultContent.tool_use_id tr)
                                        (ToolResultContent.content tr))
          (first :: rest)
  | assistant, content_blocks blocks => [openai_assistant blocks]
  | assistant, content_results _ => [openai_assistant []]
  | role, content => [OpenAIRequest.plain (role_string role) content]
  end.

(** [for (const tc of choice.message.tool_calls)]: [JSON.parse] may throw. *)
Fixpoint openai_tool_uses (calls : list OpenAIWire.tool_call) : JS.Thrown + list ContentBlock :=
  match calls with
  | [] => inr []
  | tc :: rest =>
      match Host.JSON_parse host (OpenAIWire.function_arguments tc) with
      | inl err => inl err
      | inr input =>
          match openai_tool_uses rest with
          | inl err => inl err
          | inr blocks =>
              inr (tool_use_block (OpenAIWire.id tc) (OpenAIWire.function_name tc)
                                  (Some input)
                     :: blocks)
          end
      end
  end.

Definition openai_stopReason (finish_reason : string) (message : OpenAIWire.message_t) : string :=
  if String.eqb finish_reason "tool_calls"
     || (match OpenAIWire.tool_calls message with Some _ => true | None => false end)
  then "tool_use"
  else if String.eqb finish_reason "length" then "max_tokens"
  else "end_turn".

(** Everything after [await res.json()]. *)
Definition openai_parse (model : string) (data : OpenAIWire.data)
  : JS.Thrown + LLMToolResponse.t :=
  match openai_choices data with
  | inl err => inl err
  | inr [] => inl (JS.TypeError_undefined "message")
  | inr (choice :: _) =>
      match OpenAIWire.message choice with
      | None => inl (JS.TypeError_undefined "content")
      | Some message =>
          let text_blocks :=
            match OpenAIWire.content message with
            | Some content => if JS.truthy content then [text_block content] else []
            | None => []
            end in
          match
            match OpenAIWire.tool_calls message with
            | Some calls => openai_tool_uses calls
            | None => inr []
            end
          with
          | inl err => inl err
          | inr tool_blocks =>
              inr (LLMToolResponse.mk (text_blocks ++ tool_blocks)%list
                     (openai_stopReason (OpenAIWire.finish_reason choice) message)
                     "openai" model (OpenAIWire.usage_total_tokens data))
          end
      end
  end.

Definition OpenAI_completeWithTools (apiKey model systemPrompt : string)
    (messages : list LLMMessage.t) (tools : list ToolDefinition.t)
  : IO.t World LLMToolResponse.t :=
  res <- Host.fetch_openai host
           (Http.mk_request openai_url (openai_headers apiKey)
              (Http.openai_body model
                 (OpenAIRequest.plain "system" (content_string systemPrompt)
                    :: flat_map openai_message messages)
                 4096 (tools_field tools))) ;;
  data <- read_json "OpenAI" res ;;
  match openai_parse model data with
  | inl err => IO.throw err
  | inr response => IO.ret response
  end.

(** ** Google (Gemini) *)

Definition google_url (apiKey model : string) : string :=
  "https://generativelanguage.googleapis.com/v1beta/models/" ++ model
    ++ ":generateContent?key=" ++ apiKey.

Definition google_headers : list (string * string) :=
  [("Content-Type", "application/json")].

(** [data.candidates], about to be indexed. *)
Definition google_candidates (data : GoogleWire.data) : JS.Thrown + list GoogleWire.candidate :=
  match GoogleWire.candidates data with
  | None => inl (JS.TypeError_undefined "0")
  | Some candidates => inr candidates
  end.

(** [candidates[0]?.content?.parts]. *)
Definition google_first_parts (candidates : list GoogleWire.candidate)
  : option (list GoogleWire.part) :=
  match candidates with
  | [] => None
  | candidate :: _ =>
      match GoogleWire.content candidate with
      | None => None
      | Some content => GoogleWire.parts content
      end
  end.

(** [p.text] as [join] renders it: [undefined] is the empty string. *)
Definition google_part_text (p : GoogleWire.part) : string :=
  match p with
  | GoogleWire.text s => s
  | _ => ""
  end.

Definition Google_complete (apiKey model systemPrompt userPrompt : string)
  : IO.t World LLMResponse.t :=
  res <- Host.fetch_google host
           (Http.mk_request (google_url apiKey model) google_headers
              (Http.google_body systemPrompt
                 [GoogleRequest.mk None [GoogleRequest.text userPrompt]]
                 4096 None)) ;;
  data <- read_json "Google" res ;;
  match google_candidates data with
  | inl err => IO.throw err
  | inr candidates =>
      IO.ret (LLMResponse.mk
                (match google_first_parts candidates with
                 | Some parts => JS.join "" (map google_part_text parts)
                 | None => ""
                 end)
                "google" model (GoogleWire.usageMetadata_totalTokenCount data))
  end.

Definition google_role (r : Role) : string :=
  match r with assistant => "model" | user => "user" end.

Definition google_content (msg : LLMMessage.t) : GoogleRequest.content :=
  GoogleRequest.mk (Some (google_role (LLMMessage.role msg)))
    match LLMMessage.content msg with
    | content_string s => [GoogleRequest.text s]
    | content_blocks blocks =>
        map (fun block =>
               match block with
               | text_block s => GoogleRequest.text s
               | tool_use_block _ name input => GoogleRequest.functionCall name input
               end) blocks
    | content_results results =>
        map (fun tr => GoogleRequest.functionResponse "tool" (ToolResultContent.content tr))
            results
    end.

(** [for (const part of candidate?.content?.parts ?? [])]: every
    [functionCall] part draws a fresh identifier. *)
Fixpoint google_blocks (parts : list GoogleWire.part) : IO.t World (list ContentBlock) :=
  match parts with
  | [] => IO.ret []
  | GoogleWire.text s :: rest =>
      blocks <- google_blocks rest ;;
      IO.ret (text_block s :: blocks)
  | GoogleWire.functionCall name args :: rest =>
      id <- Host.gemini_id host ;;
      blocks <- google_blocks rest ;;
      IO.ret (tool_use_block id name args :: blocks)
  | GoogleWire.other_part :: rest => google_blocks rest
  end.

Definition Google_completeWithTools (apiKey model systemPrompt : string)
    (messages : list LLMMessage.t) (tools : list ToolDefinition.t)
  : IO.t World LLMToolResponse.t :=
  res <- Host.fetch_google host
           (Http.mk_request (google_url apiKey model) google_headers
              (Http.google_body systemPrompt (map google_content messages)
                 4096 (tools_field tools))) ;;
  data <- read_json "Google" res ;;
  match google_candidates data with
  | inl err => IO.throw err
  | inr candidates =>
      blocks <- google_blocks (match google_first_parts candidates with
                               | Some parts => parts
                               | None => []
                               end) ;;
      let hasToolUse := existsb is_tool_use blocks in
      IO.ret (LLMToolResponse.mk blocks
                (if hasToolUse then "tool_use" else "end_turn")
                "google" model (GoogleWire.usageMetadata_totalTokenCount data))
  end.

(** ** Placeholder (no API key) *)

Definition placeholder_text : string :=
  "[LLM response placeholder -- configure LLM_API_KEY to enable]".

Definition Placeholder_complete (systemPrompt userPrompt : string)
  : IO.t World LLMResponse.t :=
  IO.ret (LLMResponse.mk placeholder_text "placeholder" "none" None).

Definition Placeholder_completeWithTools (systemPrompt : string)
    (messages : list LLMMessage.t) (_tools : list ToolDefinition.t)
  : IO.t World LLMToolResponse.t :=
  IO.ret (LLMToolResponse.mk [text_block placeholder_text] "end_turn"
                             "placeholder" "none" None).

(** ** The abstract base and the factory *)

(** An instance of a subclass of [LLMAdapter]: its three constructor
    fields and its two methods. *)
Record LLMAdapter : Type := new_LLMAdapter
  { provider : string;
    apiKey : string;
    model : string;
    complete : string -> string -> IO.t World LLMResponse.t;
    completeWithTools :
      string -> list LLMMessage.t -> list ToolDefinition.t -> IO.t World LLMToolResponse.t }.

Definition AnthropicAdapter (provider apiKey model : string) : LLMAdapter :=
  new_LLMAdapter provider apiKey model
    (Anthropic_complete apiKey model) (Anthropic_completeWithTools apiKey model).

Definition OpenAIAdapter (provider apiKey model : string) : LLMAdapter :=
  new_LLMAdapter provider apiKey model
    (OpenAI_complete apiKey model) (OpenAI_completeWithTools apiKey model).

Definition GoogleAdapter (provider apiKey model : string) : LLMAdapter :=
  new_LLMAdapter provider apiKey model
    (Google_complete apiKey model) (Google_completeWithTools apiKey model).

Definition PlaceholderAdapter (provider apiKey model : string) : LLMAdapter :=
  new_LLMAdapter provider apiKey model
    Placeholder_complete Placeholder_completeWithTools.

(** What [PROVIDERS[key]] evaluates to.  [PROVIDERS] is an object literal,
    so besides its three own keys the lookup reaches [Object.prototype]:
    [constructor] is the function [Object] and [__proto__] is
    [Object.prototype] itself. *)
Inductive ProvidersEntry : Type :=
| adapter_class (Ctor : string -> string -> string -> LLMAdapter)
| Object_function
| Object_prototype
| undefined.

Definition PROVIDERS (key : string) : ProvidersEntry :=
  if String.eqb key "anthropic" then adapter_class AnthropicAdapter
  else if String.eqb key "openai" then adapter_class OpenAIAdapter
  else if String.eqb key "google" then adapter_class GoogleAdapter
  else if String.eqb key "constructor" then Object_function
  else if String.eqb key "__proto__" then Object_prototype
  else undefined.

(** What [createLLMAdapter] returns: an adapter, or, for the provider
    name [constructor], the [String] object that [new Object(provider,
    ...)] builds. *)
Inductive Created : Type :=
| adapter (a : LLMAdapter)
| String_object (s : string).

(** Create the appropriate LLM adapter based on the provider name.
    Falls back to a placeholder if no API key is supplied. *)
Definition createLLMAdapter (provider apiKey model : string) : JS.Thrown + Created :=
  if negb (JS.truthy apiKey) then
    inr (adapter (PlaceholderAdapter "placeholder" "" "none"))
  else
    match PROVIDERS (Host.toLowerCase host provider) with
    | undefined => inr (adapter (PlaceholderAdapter "placeholder" "" "none"))
    | adapter_class Ctor => inr (adapter (Ctor provider apiKey model))
    | Object_function => inr (String_object provider)
    | Object_prototype => inl (JS.ErrorObject "TypeError" "Ctor is not a constructor")
    end.

End WithHost.

End Adapter.

(* ================================================================== *)
(** * types.ts and channels/spacemars-api.ts: skills and tasks *)
(* ================================================================== *)

(** Metadata parsed from SKILL.md YAML frontmatter. *)
Module SkillMeta.
Record t : Type := mk
  { name : string;
    version : string;
    category : string;
    mission : string;
    description : string;
    tools : list string }.
End SkillMeta.

(** A fully loaded skill with metadata and instructions. *)
Module Skill.
Record t : Type := mk
  { meta : SkillMeta.t;
    instructions : string;
    filePath : string }.
End Skill.

Module AvailableTask.
Record t : Type := mk
  { id : string;
    title : string;
    description : string;
    difficulty : string;
    missionSlug : string;
    rewardMars : JS.Number;
    tags : list string }.
End AvailableTask.

(* ================================================================== *)
(** * core/skill-loader.ts: parsing SKILL.md *)
(* ================================================================== *)

(** More string primitives.  A string is the UTF-8 text of the file, so a
    character above U+007F is a sequence of two or three bytes; the
    patterns of the parser are ASCII and cannot match inside one. *)
Module JSString.

Fixpoint rev (s : string) : string :=
  match s with
  | EmptyString => EmptyString
  | String c rest => rev rest ++ String c EmptyString
  end.

(** White space and line terminators below U+0080: TAB, LF, VT, FF, CR
    and SP. *)
Definition space1 (a : ascii) : bool :=
  let n := nat_of_ascii a in
  ((9 <=? n)%nat && (n <=? 13)%nat) || (n =? 32)%nat.

(** U+00A0, as the bytes C2 A0. *)
Definition space2 (a b : ascii) : bool :=
  (nat_of_ascii a =? 194)%nat && (nat_of_ascii b =? 160)%nat.

(** U+1680, U+2000 to U+200A, U+2028, U+2029, U+202F, U+205F, U+3000 and
    U+FEFF, as their three bytes. *)
Definition space3 (a b c : ascii) : bool :=
  let a := nat_of_ascii a in
  let b := nat_of_ascii b in
  let c := nat_of_ascii c in
  ((a =? 225) && (b =? 154) && (c =? 128))%nat
  || ((a =? 226) && (b =? 128)
      && (((128 <=? c) && (c <=? 138)) || (c =? 168) || (c =? 169) || (c =? 175)))%nat
  || ((a =? 226) && (b =? 129) && (c =? 159))%nat
  || ((a =? 227) && (b =? 128) && (c =? 128))%nat
  || ((a =? 239) && (b =? 187) && (c =? 191))%nat.

(** [s.trimStart()]; with [mirrored], the same on a reversed string,
    whose characters have their bytes in reverse order. *)
Fixpoint strip (mirrored : bool) (s : string) : string :=
  match s with
  | EmptyString => EmptyString
  | String a r1 =>
      if space1 a then strip mirrored r1
      else
        match r1 with
        | EmptyString => s
        | String b r2 =>
            if (if mirrored then space2 b a else space2 a b) then strip mirrored r2
            else
              match r2 with
              | EmptyString => s
              | String c r3 =>
                  if (if mirrored then space3 c b a else space3 a b c)
                  then strip mirrored r3
                  else s
              end
        end
  end.

Definition trimStart (s : string) : string := strip false s.

Definition trimEnd (s : string) : string := rev (strip true (rev s)).

(** [s.trim()]. *)
Definition trim (s : string) : string := trimEnd (trimStart s).

(** [s.replace(/\r\n/g, "\n")]. *)
Fixpoint replace_crlf (s : string) : string :=
  match s with
  | EmptyString => EmptyString
  | String a rest =>
      match rest with
      | String b rest' =>
          if ((nat_of_ascii a =? 13) && (nat_of_ascii b =? 10))%nat
          then String b (replace_crlf rest')
          else String a (replace_crlf rest)
      | EmptyString => s
      end
  end.

(** [s.startsWith(p)], returning what follows [p]. *)
Fixpoint after_prefix (p s : string) : option string :=
  match p, s with
  | EmptyString, _ => Some s
  | String a p', String b s' => if Ascii.eqb a b then after_prefix p' s' else None
  | String _ _, EmptyString => None
  end.

Definition startsWith (s p : string) : bool :=
  match after_prefix p s with Some _ => true | None => false end.

Definition endsWith (s p : string) : bool := startsWith (rev s) (rev p).

(** [s.indexOf(c)] for a character [c], with the two slices around the
    index: [(s.slice(0, i), s.slice(i + 1))], or [None] for [-1]. *)
Fixpoint cut_at (c : ascii) (s : string) : option (string * string) :=
  match s with
  | EmptyString => None
  | String a rest =>
      if Ascii.eqb a c then Some (EmptyString, rest)
      else match cut_at c rest with
           | Some (before, after) => Some (String a before, after)
           | None => None
           end
  end.

(** [s.slice(1, -1)]. *)
Definition slice_1_m1 (s : string) : string :=
  match s with
  | EmptyString => EmptyString
  | String _ rest =>
      match rev rest with
      | EmptyString => EmptyString
      | String _ inner => rev inner
      end
  end.

End JSString.

Module SkillLoader.

Definition LF : ascii := "010"%char.

Definition fence : string := String LF ("---" ++ String LF EmptyString).

(** The lazy first group of the front matter pattern and the group after
    it: the text up to the first line made of three dashes that follows a
    line break and is ended by one, and what follows that line. *)
Fixpoint cut_at_fence (s : string) : option (string * string) :=
  match JSString.after_prefix fence s with
  | Some body => Some (EmptyString, body)
  | None =>
      match s with
      | EmptyString => None
      | String a rest =>
          match cut_at_fence rest with
          | Some (yaml, body) => Some (String a yaml, body)
          | None => None
          end
      end
  end.

(** [normalized.match(...)] with the front matter pattern: a first line
    of three dashes, the lazy group, the closing line of three dashes, and
    the rest of the text; the result holds the two groups. *)
Definition frontMatterMatch (normalized : string) : option (string * string) :=
  match JSString.after_prefix ("---" ++ String LF EmptyString) normalized with
  | Some rest => cut_at_fence rest
  | None => None
  end.

(** What [obj[key]] holds: a string, an array of strings, or nothing. *)
Inductive Value : Type :=
| undefined
| scalar (s : string)
| items (xs : list string).

(** [obj]: the assignments made so far, the latest first. *)
Definition Obj : Type := list (string * Value).

Fixpoint obj_get (key : string) (obj : Obj) : Value :=
  match obj with
  | [] => undefined
  | (k, v) :: rest => if String.eqb k key then v else obj_get key rest
  end.

(** The body of [for (const line of lines)]. *)
Definition read_line (obj : Obj) (line : string) : Obj :=
  let trimmed := JSString.trim line in
  if negb (JS.truthy trimmed) || JSString.startsWith trimmed "#" then obj
  else
    match JSString.cut_at ":" trimmed with
    | None => obj
    | Some (before, after) =>
        let key := JSString.trim before in
        let value := JSString.trim after in
        if JSString.startsWith value "[" && JSString.endsWith value "]" then
          let inner := JSString.slice_1_m1 value in
          (key, items (filter JS.truthy (map JSString.trim (JS.split "," inner)))) :: obj
        else
          (key, scalar value) :: obj
    end.

Definition required : list string :=
  ["name"; "version"; "category"; "mission"; "description"].

(** [!obj[field]]. *)
Definition falsy (v : Value) : bool :=
  match v with
  | undefined => true
  | scalar s => negb (JS.truthy s)
  | items _ => false
  end.

(** The metadata as the parser returns it: [as string] and
    [as string[]] check nothing, so each field is whatever [obj] holds. *)
Record RawMeta : Type := mk_meta
  { name : Value;
    version : Value;
    category : Value;
    mission : Value;
    description : Value;
    tools : Value }.

Record RawSkill : Type := mk_skill
  { meta : RawMeta;
    instructions : string;
    filePath : string }.

Definition missing_field (filePath field : string) : JS.Thrown :=
  JS.new_Error ("SKILL.md at " ++ filePath ++ " is missing required field: " ++ field).

Definition invalid_format (filePath : string) : JS.Thrown :=
  JS.new_Error ("Invalid SKILL.md format in " ++ filePath ++ ": no YAML front matter found").

(** Minimal YAML front matter parser. *)
Definition parseYamlFrontMatter (yaml filePath : string) : JS.Thrown + RawMeta :=
  let lines := JS.split LF yaml in
  let obj := fold_left read_line lines [] in
  match find (fun field => falsy (obj_get field obj)) required with
  | Some field => inl (missing_field filePath field)
  | None =>
      inr (mk_meta (obj_get "name" obj) (obj_get "version" obj) (obj_get "category" obj)
                   (obj_get "mission" obj) (obj_get "description" obj)
                   (match obj_get "tools" obj with
                    | undefined => items []
                    | tools => tools
                    end))
  end.

(** Parse a SKILL.md file into its metadata and instruction body. *)
Definition parseSkillMd (content filePath : string) : JS.Thrown + RawSkill :=
  let normalized := JSString.replace_crlf content in
  match frontMatterMatch normalized with
  | None => inl (invalid_format filePath)
  | Some (yamlBlock, body) =>
      let instructions := JSString.trim body in
      match parseYamlFrontMatter yamlBlock filePath with
      | inl err => inl err
      | inr meta => inr (mk_skill meta instructions filePath)
      end
  end.

(** The skill at its declared type, when every field has it. *)
Definition typed (raw : RawSkill) : option Skill.t :=
  match meta raw with
  | mk_meta (scalar name) (scalar version) (scalar category) (scalar mission)
            (scalar description) (items tools) =>
      Some (Skill.mk (SkillMeta.mk name version category mission description tools)
                     (instructions raw) (filePath raw))
  | _ => None
  end.

End SkillLoader.

(* ================================================================== *)
(** * core/task-worker.ts: skill matching *)
(* ================================================================== *)

Module SkillMatching.

Section WithRuntime.

(** [String.prototype.toLowerCase], from the runtime. *)
Variable toLowerCase : string -> string.

(** [skill.meta.<field>.toLowerCase()].  The worker's skills are what
    [parseSkillMd] returned, so the field holds a string or, for a line
    written with square brackets, an array, which has no such method; on
    [undefined] the method cannot be read. *)
Definition field_toLowerCase (field : string) (value : SkillLoader.Value)
  : JS.Thrown + string :=
  match value with
  | SkillLoader.scalar s => inr (toLowerCase s)
  | SkillLoader.items _ =>
      inl (JS.ErrorObject "TypeError"
             ("skill.meta." ++ field ++ ".toLowerCase is not a function"))
  | SkillLoader.undefined => inl (JS.TypeError_undefined "toLowerCase")
  end.

(** The body of the [.map((skill) => { ... return { skill, score } })]
    callback after its three [const]s; every [score += n] is one [let]. *)
Definition score (taskTags : list string) (taskTitle taskDesc : string)
    (name category desc : string) : Z :=
  let score := 0%Z in
  let score := if JS.Set_has taskTags category then (score + 3)%Z else score in
  let score := if JS.Set_has taskTags name then (score + 3)%Z else score in
  let score :=
    fold_left (fun score part => if JS.Set_has taskTags part then (score + 2)%Z else score)
              (JS.split "-" name) score in
  let score :=
    if JS.includes taskTitle name || JS.includes taskTitle category
    then (score + 2)%Z else score in
  let score :=
    if JS.includes taskDesc name || JS.includes taskDesc category
    then (score + 1)%Z else score in
  let score :=
    fold_left (fun score tag => if JS.includes desc tag then (score + 1)%Z else score)
              taskTags score in
  score.

(** The whole callback: the three [const]s, in the order of the source,
    then the score. *)
Definition score_of (taskTags : list string) (taskTitle taskDesc : string)
    (skill : SkillLoader.RawSkill) : JS.Thrown + Z :=
  match field_toLowerCase "name" (SkillLoader.name (SkillLoader.meta skill)) with
  | inl err => inl err
  | inr name =>
      match field_toLowerCase "category" (SkillLoader.category (SkillLoader.meta skill)) with
      | inl err => inl err
      | inr category =>
          match field_toLowerCase "description"
                  (SkillLoader.description (SkillLoader.meta skill)) with
          | inl err => inl err
          | inr desc => inr (score taskTags taskTitle taskDesc name category desc)
          end
      end
  end.

(** The relevance of [skill] for [task]: [score_of] on the task's
    lower-cased tags, title and description. *)
Definition relevance (task : AvailableTask.t) (skill : SkillLoader.RawSkill) : JS.Thrown + Z :=
  score_of (JS.Set_of (map toLowerCase (AvailableTask.tags task)))
           (toLowerCase (AvailableTask.title task))
           (toLowerCase (AvailableTask.description task))
           skill.

(** [value === text]: an array is never equal to a string. *)
Definition strict_equal (value : SkillLoader.Value) (text : string) : bool :=
  match value with
  | SkillLoader.scalar s => String.eqb s text
  | _ => false
  end.

(** [skill.meta.mission === "all" || skill.meta.mission === task.missionSlug]. *)
Definition mission_matches (task : AvailableTask.t) (skill : SkillLoader.RawSkill) : bool :=
  strict_equal (SkillLoader.mission (SkillLoader.meta skill)) "all"
  || strict_equal (SkillLoader.mission (SkillLoader.meta skill)) (AvailableTask.missionSlug task).

(** [(a, b) => b.score - a.score]. *)
Definition by_score_desc (a b : SkillLoader.RawSkill * Z) : Z := (snd b - snd a)%Z.

(** The selection returns the skills, or throws what the scoring of a
    skill of the task's mission throws. *)
Definition selectSkillsForTask (skills : list SkillLoader.RawSkill) (task : AvailableTask.t)
  : JS.Thrown + list SkillLoader.RawSkill :=
  match skills with
  | [] => inr []
  | _ :: _ =>
      let taskTags := JS.Set_of (map toLowerCase (AvailableTask.tags task)) in
      let taskTitle := toLowerCase (AvailableTask.title task) in
      let taskDesc := toLowerCase (AvailableTask.description task) in
      match
        JS.map_or_throw
          (fun skill =>
             match score_of taskTags taskTitle taskDesc skill with
             | inl err => inl err
             | inr score => inr (skill, score)
             end)
          (filter (mission_matches task) skills)
      with
      | inl err => inl err
      | inr entries =>
          let scored :=
            JS.sort by_score_desc (filter (fun entry => (snd entry >? 0)%Z) entries) in
          inr (map fst (JS.slice0 2 scored))
      end
  end.

End WithRuntime.

End SkillMatching.

(* ================================================================== *)
(** * core/task-worker.ts: the agentic loop *)
(* ================================================================== *)

Module Worker.

Definition MAX_AGENT_TURNS : nat := 25.

Definition newline : string := String "010"%char EmptyString.

Definition max_turns_warning : string :=
  newline ++ newline ++ "[Warning: Agent reached maximum turns limit]".

Definition no_answer : string :=
  "[Agent reached maximum turns without producing a final answer]".

(** What the loop is seen to do from outside: each call of
    [this.llm.completeWithTools], with the conversation it is given, and
    each call of [this.toolExecutor.execute]. *)
Inductive Event : Type :=
| model_call (messages : list LLMMessage.t)
| dispatch (call : ToolCall.t).

Section WithWorld.
Variable World : Type.

(** The world together with the record of the calls made so far. *)
Record Env : Type := mk_env
  { world : World;
    trace : list Event }.

Definition M (A : Type) : Type := IO.t Env A.

(** A call into a collaborator: it acts on the world only. *)
Definition call (A : Type) (f : IO.t World A) : M A :=
  fun env =>
    let (w, r) := f (world env) in
    (mk_env w (trace env), r).

Definition emit (ev : Event) : M unit :=
  fun env => (mk_env (world env) (trace env ++ [ev])%list, inr tt).

(** The fields of [TaskWorker] the loop reads, and its two arguments. *)
Variable llm : Adapter.LLMAdapter World.
Variable toolExecutor : ToolExecutor.t World.
Variable systemPrompt userPrompt : string.

(** The loop's local variables. *)
Record Locals : Type := mk_locals
  { messages : list LLMMessage.t;
    totalTokens : Z;
    turn : nat }.

Definition initial : Locals :=
  mk_locals [LLMMessage.mk user (content_string userPrompt)] 0%Z 0.

(** [messages.push(m)]. *)
Definition push (m : LLMMessage.t) (st : Locals) : Locals :=
  mk_locals (messages st ++ [m])%list (totalTokens st) (turn st).

(** From the top of the loop body to
    [messages.push({ role: "assistant", content: response.content })].
    The [for] that follows it logs the text of the text blocks; it calls
    [trim], [slice] and [length] on those strings and nothing else, and
    is left out. *)
Definition call_model (st : Locals) : M (Locals * LLMToolResponse.t) :=
  _ <- emit (model_call (messages st)) ;;
  response <- call (Adapter.completeWithTools llm systemPrompt (messages st)
                      (ToolExecutor.getDefinitions toolExecutor)) ;;
  let st := mk_locals (messages st)
                      (totalTokens st + match LLMToolResponse.tokensUsed response with
                                        | Some n => n
                                        | None => 0
                                        end)%Z
                      (turn st) in
  IO.ret (push (LLMMessage.mk assistant (content_blocks (LLMToolResponse.content response))) st,
          response).

(** [response.stopReason === "end_turn" || response.stopReason === "max_tokens"]. *)
Definition llm_is_done (response : LLMToolResponse.t) : bool :=
  String.eqb (LLMToolResponse.stopReason response) "end_turn"
  || String.eqb (LLMToolResponse.stopReason response) "max_tokens".

(** The text returned from inside the loop. *)
Definition final_text (response : LLMToolResponse.t) : string :=
  JS.join newline (texts_of (LLMToolResponse.content response)).

(** [{ type: "tool_result", tool_use_id: result.tool_use_id,
      content: result.content, is_error: result.is_error }]. *)
Definition tool_result (result : ToolResult.t) : ToolResultContent.t :=
  ToolResultContent.mk (ToolResult.tool_use_id result)
                       (ToolResult.content result)
                       (ToolResult.is_error result).

(** The argument of the [console.log] before the dispatch, which holds
    [JSON.stringify(toolCall.input).slice(0, 100)].  For an [undefined]
    input [JSON.stringify] returns [undefined], and reading [slice] of it
    throws; for an object it returns a string.  What is printed is not
    modelled. *)
Definition log_tool_call (toolCall : ToolCall.t) : M unit :=
  match ToolCall.input toolCall with
  | None => IO.throw (JS.TypeError_undefined "slice")
  | Some _ => IO.ret tt
  end.

(** The argument of the [console.log] after the dispatch, which holds
    [result.content.slice(0, 150)] and [result.content.length].  The
    content is a string in each of the three results of [execute] (two
    template literals and the output of a [Tool], declared and built as a
    string in every tool of the repository), so neither can throw. *)
Definition log_tool_result (result : ToolResult.t) : M unit :=
  IO.ret tt.

(** The body of [for (const toolCall of toolUseBlocks)]. *)
Definition run_tool (toolCall : ToolCall.t) : M ToolResultContent.t :=
  _ <- log_tool_call toolCall ;;
  _ <- emit (dispatch (ToolCall.mk (ToolCall.id toolCall) (ToolCall.name toolCall)
                                   (ToolCall.input toolCall))) ;;
  result <- call (ToolExecutor.execute toolExecutor
                    (ToolCall.mk (ToolCall.id toolCall) (ToolCall.name toolCall)
                                 (ToolCall.input toolCall))) ;;
  _ <- log_tool_result result ;;
  IO.ret (tool_result result).

(** From [// Execute tool calls] to
    [messages.push({ role: "user", content: toolResults })]. *)
Definition run_tools (st : Locals) (response : LLMToolResponse.t) : M Locals :=
  toolResults <- IO.for_of run_tool (tool_uses_of (LLMToolResponse.content response)) ;;
  IO.ret (push (LLMMessage.mk user (content_results toolResults)) st).

(** One pass through the loop body: the answer if it returns, the locals
    at the end of the body otherwise. *)
Definition loop_body (st : Locals) : M (Locals * option string) :=
  '(st, response) <- call_model st ;;
  if llm_is_done response then IO.ret (st, Some (final_text response))
  else
    st <- run_tools st response ;;
    IO.ret (st, None).

(** [messages.filter((m) => m.role === "assistant").pop()]. *)
Definition lastAssistant (msgs : list LLMMessage.t) : option LLMMessage.t :=
  last (map Some (filter (fun m => Role_eqb (LLMMessage.role m) assistant) msgs)) None.

(** The code after the loop. *)
Definition after_loop (msgs : list LLMMessage.t) : string :=
  match lastAssistant msgs with
  | Some m =>
      match LLMMessage.content m with
      | content_blocks blocks =>
          match texts_of blocks with
          | [] => no_answer
          | textBlocks => JS.join newline textBlocks ++ max_turns_warning
          end
      | content_results _ => no_answer
      | content_string _ => no_answer
      end
  | None => no_answer
  end.

(** How a run ends: at the [return] inside the loop (the model is done)
    or at one of the two after it (the turns are used up). *)
Inductive Exit : Type :=
| done (answer : string) (st : Locals)
| budget_exhausted (answer : string) (st : Locals).

Definition answer_of (e : Exit) : string :=
  match e with
  | done answer _ => answer
  | budget_exhausted answer _ => answer
  end.

Definition locals_of (e : Exit) : Locals :=
  match e with
  | done _ st => st
  | budget_exhausted _ st => st
  end.

(** [for (let turn = ...; turn < MAX_AGENT_TURNS; turn++) { ... }] with
    [remaining = MAX_AGENT_TURNS - turn] passes to go. *)
Fixpoint for_turns (remaining : nat) (st : Locals) : M Exit :=
  match remaining with
  | 0 => IO.ret (budget_exhausted (after_loop (messages st)) st)
  | S remaining' =>
      '(st, returned) <- loop_body st ;;
      match returned with
      | Some answer => IO.ret (done answer st)
      | None =>
          for_turns remaining' (mk_locals (messages st) (totalTokens st) (S (turn st)))
      end
  end.

Definition run : M Exit := for_turns MAX_AGENT_TURNS initial.

Definition agenticLoop : M string :=
  e <- run ;; IO.ret (answer_of e).

(** ** The same loop, one transition at a time *)

(** Where control is: at the loop test, between the two halves of the
    body (the model asked for tools), or past a [return]. *)
Inductive Point : Type :=
| awaiting_model (st : Locals)
| executing_tools (st : Locals) (response : LLMToolResponse.t)
| finished (e : Exit).

Definition point_messages (p : Point) : list LLMMessage.t :=
  match p with
  | awaiting_model st => messages st
  | executing_tools st _ => messages st
  | finished e => messages (locals_of e)
  end.

Inductive step : Point * Env -> Point * Env -> Prop :=
| step_exhausted : forall st env,
    ~ turn st < MAX_AGENT_TURNS ->
    step (awaiting_model st, env)
         (finished (budget_exhausted (after_loop (messages st)) st), env)
| step_done : forall st env st' response env',
    turn st < MAX_AGENT_TURNS ->
    call_model st env = (env', inr (st', response)) ->
    llm_is_done response = true ->
    step (awaiting_model st, env)
         (finished (done (final_text response) st'), env')
| step_tool_use : forall st env st' response env',
    turn st < MAX_AGENT_TURNS ->
    call_model st env = (env', inr (st', response)) ->
    llm_is_done response = false ->
    step (awaiting_model st, env) (executing_tools st' response, env')
| step_results : forall st response env st' env',
    run_tools st response env = (env', inr st') ->
    step (executing_tools st response, env)
         (awaiting_model (mk_locals (messages st') (totalTokens st') (S (turn st'))), env').

(** The points a run from [env0] passes through. *)
Inductive reachable (env0 : Env) : Point * Env -> Prop :=
| reachable_start : reachable env0 (awaiting_model initial, env0)
| reachable_step : forall c c', reachable env0 c -> step c c' -> reachable env0 c'.

End WithWorld.

End Worker.

(* ================================================================== *)
(** * core/task-worker.ts: the task lifecycle *)
(* ================================================================== *)

(** Standard API response envelope ([types.ts]). *)
Module ApiResponse.
Record t (T : Type) : Type := mk
  { success : bool;
    data : option T;
    error : option string;
    message : option string }.
End ApiResponse.

(** A task assignment received from the SpaceMars platform. *)
Module TaskAssignment.
Record t : Type := mk
  { taskId : string;
    title : string;
    description : string;
    difficulty : string;
    missionSlug : string;
    rewardMars : JS.Number;
    tags : list string }.
End TaskAssignment.

Module TaskSubmitResult.
Record t : Type := mk
  { taskId : string;
    status : string }.
End TaskSubmitResult.

(** The three methods of [SpaceMarsClient] the worker calls, at the types
    the class declares for them: the worker is modelled against a client
    that resolves to envelopes of these types. *)
Module SpaceMarsClient.
Record t (World : Type) : Type := mk
  { getAvailableTasks : nat -> IO.t World (ApiResponse.t (list AvailableTask.t));
    claimTask : string -> IO.t World (ApiResponse.t TaskAssignment.t);
    submitResult : string -> string -> IO.t World (ApiResponse.t TaskSubmitResult.t) }.
End SpaceMarsClient.

Module TaskWorker.

Definition TASK_SYSTEM_PROMPT : string :=
  "You are Prometheus, an autonomous AI agent working on the SpaceMars platform.
Your mission is to help humanity expand into space by completing tasks assigned to you.

You have access to tools. Use them when they would help you produce a better answer:
- read_file: Read files to understand context
- write_file: Create or update files
- bash: Run shell commands for computation, data processing, or system tasks
- web_fetch: Fetch content from URLs
- web_search: Search the web for information

When solving a task:
1. Think about what information or actions you need
2. Use tools to gather data or perform operations
3. Synthesize your findings into a clear, actionable solution

Produce clear, actionable, well-structured output. If the task asks for code, return
working code with comments. If it asks for research, return well-sourced analysis.
Always be thorough and accurate.".

(** [`${value}`] for what a metadata field holds: the string, or the
    items of the array joined by commas. *)
Definition template_text (value : SkillLoader.Value) : string :=
  match value with
  | SkillLoader.scalar s => s
  | SkillLoader.items xs => JS.join "," xs
  | SkillLoader.undefined => "undefined"
  end.

(** The same value as an element of an array that is joined: [undefined]
    is then the empty string. *)
Definition joined_text (value : SkillLoader.Value) : string :=
  match value with
  | SkillLoader.scalar s => s
  | SkillLoader.items xs => JS.join "," xs
  | SkillLoader.undefined => ""
  end.

Section WithWorld.
Variable World : Type.

(** The fields of a [TaskWorker]; [toolExecutor] starts as [null].  The
    skills are declared as [Skill[]]; they are the values the skill loader
    parsed, whose metadata fields hold strings or arrays. *)
Record t : Type := mk
  { client : SpaceMarsClient.t World;
    llm : Adapter.LLMAdapter World;
    skills : list SkillLoader.RawSkill;
    toolExecutor : option (ToolExecutor.t World);
    soulPrompt : string }.

(** [new TaskWorker(client, llm)]. *)
Definition new_TaskWorker (client : SpaceMarsClient.t World) (llm : Adapter.LLMAdapter World)
  : t :=
  mk client llm [] None "".

Definition setSkills (skills : list SkillLoader.RawSkill) (this : t) : t :=
  mk (client this) (llm this) skills (toolExecutor this) (soulPrompt this).

Definition setToolExecutor (executor : ToolExecutor.t World) (this : t) : t :=
  mk (client this) (llm this) (skills this) (Some executor) (soulPrompt this).

Definition setSoulPrompt (soul : string) (this : t) : t :=
  mk (client this) (llm this) (skills this) (toolExecutor this) soul.

(** [String.prototype.toLowerCase], from the runtime. *)
Variable toLowerCase : string -> string.

Variable this : t.

(** The messages written to the console are left out: they change
    nothing the methods return, and their arguments (template literals
    over strings, [map] and [join]) cannot throw. *)
Definition fetchAndClaimTask : Worker.M World (option AvailableTask.t) :=
  listRes <- Worker.call (SpaceMarsClient.getAvailableTasks (client this) 5) ;;
  if negb (ApiResponse.success listRes) then IO.ret None
  else
    match ApiResponse.data listRes with
    | None => IO.ret None
    | Some [] => IO.ret None
    | Some (task :: _) =>
        claimRes <- Worker.call (SpaceMarsClient.claimTask (client this)
                                   (AvailableTask.id task)) ;;
        if negb (ApiResponse.success claimRes) then IO.ret None
        else IO.ret (Some task)
    end.

Definition buildSystemPromptWithSkills (skills : list SkillLoader.RawSkill) : string :=
  let parts := [TASK_SYSTEM_PROMPT] in
  let parts :=
    if JS.truthy (soulPrompt this)
    then (parts ++ [""; "---"; ""; soulPrompt this])%list
    else parts in
  let parts :=
    match skills with
    | [] => parts
    | _ :: _ =>
        let skillBlocks :=
          map (fun skill =>
                 JS.join Worker.newline
                   ["### Skill: " ++ template_text (SkillLoader.name (SkillLoader.meta skill))
                      ++ " (" ++ template_text (SkillLoader.category (SkillLoader.meta skill))
                      ++ ")";
                    joined_text (SkillLoader.description (SkillLoader.meta skill));
                    "";
                    SkillLoader.instructions skill])
              skills in
        (parts
           ++ [""; "---"; ""; "# Available Skills"; "";
               "You have specialized knowledge from the following skills.";
               "Use their instructions and approaches when relevant to the task.";
               ""]
           ++ skillBlocks)%list
    end in
  JS.join Worker.newline parts.

Definition buildTaskPrompt (task : AvailableTask.t) : string :=
  let parts :=
    ["## Task: " ++ AvailableTask.title task;
     "";
     AvailableTask.description task;
     "";
     "- Difficulty: " ++ AvailableTask.difficulty task;
     "- Mission: " ++ AvailableTask.missionSlug task;
     "- Reward: " ++ JS.Number_toString (AvailableTask.rewardMars task) ++ " MARS"] in
  let parts :=
    match AvailableTask.tags task with
    | [] => parts
    | _ :: _ =>
        let tagLine := "- Tags: " ++ JS.join ", " (AvailableTask.tags task) in
        (parts ++ [tagLine])%list
    end in
  let parts :=
    (parts ++ [""; "Provide a comprehensive, well-structured solution for this task."])%list in
  JS.join Worker.newline parts.

(** Solve a task using the agentic tool-calling loop; without a tool
    executor, fall back to simple completion. *)
Definition solveTask (task : AvailableTask.t) : Worker.M World string :=
  match SkillMatching.selectSkillsForTask toLowerCase (skills this) task with
  | inl err => IO.throw err
  | inr relevantSkills =>
      let systemPrompt := buildSystemPromptWithSkills relevantSkills in
      let userPrompt := buildTaskPrompt task in
      match toolExecutor this with
      | None =>
          response <- Worker.call (Adapter.complete (llm this) systemPrompt userPrompt) ;;
          IO.ret (LLMResponse.content response)
      | Some executor => Worker.agenticLoop (llm this) executor systemPrompt userPrompt
      end
  end.

(** Solve a task described as a simple string. *)
Definition solveDirectTask (description : string) : Worker.M World string :=
  let systemPrompt := buildSystemPromptWithSkills (JS.slice0 2 (skills this)) in
  match toolExecutor this with
  | None =>
      response <- Worker.call (Adapter.complete (llm this) systemPrompt description) ;;
      IO.ret (LLMResponse.content response)
  | Some executor => Worker.agenticLoop (llm this) executor systemPrompt description
  end.

Definition submitSolution (taskId solution : string) : Worker.M World bool :=
  res <- Worker.call (SpaceMarsClient.submitResult (client this) taskId solution) ;;
  IO.ret (ApiResponse.success res).

Definition runOnce : Worker.M World bool :=
  task <- fetchAndClaimTask ;;
  match task with
  | None => IO.ret false
  | Some task =>
      IO.try_catch
        (solution <- solveTask task ;;
         submitSolution (AvailableTask.id task) solution)
        (fun _err => IO.ret false)
  end.

End WithWorld.

End TaskWorker.

(* ================================================================== *)
(** * channels/spacemars-api.ts: the client *)
(* ================================================================== *)

Module SpaceMarsApi.

(** [s.replace(/\/+$/, "")]: [s] without the slashes it ends with. *)
Fixpoint strip_trailing_slashes (s : string) : string :=
  match s with
  | EmptyString => EmptyString
  | String c rest =>
      match strip_trailing_slashes rest with
      | EmptyString => if Ascii.eqb c "/" then EmptyString else String c EmptyString
      | String c' kept => String c (String c' kept)
      end
  end.

Inductive Method : Type := GET | POST.

(** The arguments of [fetch]; [body] is the object given to
    [JSON.stringify]. *)
Record Request : Type := mk_request
  { method : Method;
    url : string;
    headers : list (string * string);
    body : option JS.JsonObject }.

(** The [Response] of [fetch]: [text] is what [res.text()] resolves to,
    or the value it rejects with. *)
Record Response : Type := mk_response
  { ok : bool;
    status : nat;
    text : JS.Thrown + string }.

(** What ends up under [data]: the value of the parsed body, or, for a
    body that is not JSON, the raw text that the source stores there
    under the type [T]. *)
Inductive Payload (T : Type) : Type :=
| parsed (value : T)
| raw (text : string).

Arguments parsed {T} value.
Arguments raw {T} text.

(** What [JSON.parse] makes of a body, as far as [handleResponse] can
    tell: an object, read at the type the source casts it to (a field
    that is absent or falsy reads as [false] or [None]); [null]; or a
    number, a string or a boolean, with its [typeof] and its rendering
    [String(value)]. *)
Inductive Parsed (T : Type) : Type :=
| parsed_object (json : ApiResponse.t T)
| parsed_null
| parsed_primitive (type_of rendered : string).

Arguments parsed_object {T} json.
Arguments parsed_null {T}.
Arguments parsed_primitive {T} type_of rendered.

(** What [handleResponse] resolves to: declared as an envelope, it is
    whatever the body parsed to. *)
Inductive Returned (T : Type) : Type :=
| envelope (r : ApiResponse.t (Payload T))
| returned_null
| returned_primitive (type_of rendered : string).

Arguments envelope {T} r.
Arguments returned_null {T}.
Arguments returned_primitive {T} type_of rendered.

(** [fetch], and [JSON.parse] read at the type each endpoint casts its
    result to. *)
Record Host (World : Type) : Type := mk_host
  { fetch : Request -> IO.t World Response;
    parse_tasks : string -> JS.Thrown + Parsed (list AvailableTask.t);
    parse_assignment : string -> JS.Thrown + Parsed TaskAssignment.t;
    parse_submitted : string -> JS.Thrown + Parsed TaskSubmitResult.t }.

(** The two private fields. *)
Record t : Type := mk
  { baseUrl : string;
    apiKey : string }.

(** [new SpaceMarsClient(baseUrl, apiKey)]. *)
Definition new_SpaceMarsClient (baseUrl apiKey : string) : t :=
  mk (strip_trailing_slashes baseUrl) apiKey.

(** [`${n}`] for a natural number. *)
Definition nat_string (n : nat) : string :=
  NilEmpty.string_of_uint (Nat.to_uint n).

Definition http_error (res : Response) : string :=
  "HTTP " ++ nat_string (status res).

Section WithHost.
Variable World : Type.
Variable host : Host World.
Variable this : t.

Definition request_headers : list (string * string) :=
  let h := [("Content-Type", "application/json"); ("Accept", "application/json")] in
  if JS.truthy (apiKey this)
  then app h [("Authorization", "Bearer " ++ apiKey this)]
  else h.

Section Generic.
Variable T : Type.
Variable JSON_parse : string -> JS.Thrown + Parsed T.

(** The [if (!res.ok && !json.error)] statement on an object. *)
Definition mark_failed (res : Response) (json : ApiResponse.t (Payload T))
  : ApiResponse.t (Payload T) :=
  if negb (ok res)
     && negb (match ApiResponse.error json with
              | Some error => JS.truthy error
              | None => false
              end)
  then ApiResponse.mk false (ApiResponse.data json) (Some (http_error res))
                      (ApiResponse.message json)
  else json.

(** [const text = await res.text()] comes first.  On [null] the test
    [!json.error] throws; on a number, a string or a boolean it holds and
    the assignment [json.success = false] throws, the module being strict
    code. *)
Definition handleResponse (res : Response) : IO.t World (Returned T) :=
  match text res with
  | inl err => IO.throw err
  | inr text =>
      match JSON_parse text with
      | inr (parsed_object json) =>
          IO.ret (envelope
                    (mark_failed res
                       (ApiResponse.mk (ApiResponse.success json)
                                       (option_map parsed (ApiResponse.data json))
                                       (ApiResponse.error json)
                                       (ApiResponse.message json))))
      | inr parsed_null =>
          if negb (ok res)
          then IO.throw (JS.ErrorObject "TypeError"
                           "Cannot read properties of null (reading 'error')")
          else IO.ret returned_null
      | inr (parsed_primitive type_of rendered) =>
          if negb (ok res)
          then IO.throw (JS.ErrorObject "TypeError"
                           ("Cannot create property 'success' on " ++ type_of
                              ++ " '" ++ rendered ++ "'"))
          else IO.ret (returned_primitive type_of rendered)
      | inl _ =>
          IO.ret (envelope
                    (mark_failed res
                       (ApiResponse.mk (ok res)
                                       (if ok res then Some (raw text) else None)
                                       (if ok res then None
                                        else Some (http_error res ++ ": " ++ text))
                                       None)))
      end
  end.

Definition get (path : string) : IO.t World (Returned T) :=
  let url := baseUrl this ++ path in
  res <- fetch host (mk_request GET url request_headers None) ;;
  handleResponse res.

Definition post (path : string) (body : JS.JsonObject)
  : IO.t World (Returned T) :=
  let url := baseUrl this ++ path in
  res <- fetch host (mk_request POST url request_headers (Some body)) ;;
  handleResponse res.

End Generic.

(** List tasks that are available for claiming; [limit] defaults to 10. *)
Definition getAvailableTasks (limit : option nat)
  : IO.t World (Returned (list AvailableTask.t)) :=
  let limit := match limit with Some n => n | None => 10 end in
  get (parse_tasks host) ("/api/v1/tasks/available?limit=" ++ nat_string limit).

(** Claim a specific task by ID. *)
Definition claimTask (taskId : string)
  : IO.t World (Returned TaskAssignment.t) :=
  post (parse_assignment host) ("/api/v1/tasks/" ++ taskId ++ "/claim") [].

(** Submit a result for a claimed task. *)
Definition submitResult (taskId content : string)
  : IO.t World (Returned TaskSubmitResult.t) :=
  post (parse_submitted host) ("/api/v1/tasks/" ++ taskId ++ "/submit")
       [("content", JS.JString content)].

End WithHost.

End SpaceMarsApi.

(* ================================================================== *)
(** * config/config.ts and core/agent.ts *)
(* ================================================================== *)

Module Config.

(** [process.env]. *)
Definition Environment : Type := string -> option string.

(** Read a string env var with a fallback default:
    [process.env[key]?.trim() || fallback]. *)
Definition env (process_env : Environment) (key fallback : string) : string :=
  match process_env key with
  | Some value =>
      let trimmed := JSString.trim value in
      if JS.truthy trimmed then trimmed else fallback
  | None => fallback
  end.

End Config.

Module PrometheusAgent.

(** Default pause between task-loop iterations (60 seconds). *)
Definition TASK_LOOP_INTERVAL_MS : Z := 60000.

(** Pause after an error before retrying (2 minutes). *)
Definition ERROR_BACKOFF_MS : Z := 120000.

(** What the task loop is seen to do: a call of [this.worker.runOnce()],
    with how it settled, and a call of [this.sleep(ms)]. *)
Inductive Event : Type :=
| ran (settled : JS.Thrown + bool)
| slept (ms : Z).

Section WithWorld.
Variable World : Type.

(** The worker's environment and the record of the loop's calls. *)
Record Env : Type := mk_env
  { worker_env : Worker.Env World;
    log : list Event }.

(** [this.running], as the loop test finds it: [stop()] may have run
    during any of the loop's [await]s. *)
Variable running : World -> bool.
Variable worker : TaskWorker.t World.

(** [String.prototype.toLowerCase], from the runtime. *)
Variable toLowerCase : string -> string.

(** [await this.worker.runOnce()]. *)
Definition runOnce : IO.t Env bool :=
  fun s =>
    let (env', settled) := TaskWorker.runOnce toLowerCase worker (worker_env s) in
    (mk_env env' (log s ++ [ran settled])%list, settled).

(** [await this.sleep(ms)]: the timer's promise always resolves. *)
Definition sleep (ms : Z) : IO.t Env unit :=
  fun s => (mk_env (worker_env s) (log s ++ [slept ms])%list, inr tt).

(** The body of [while (this.running)]. *)
Definition pass : IO.t Env unit :=
  IO.try_catch
    (didWork <- runOnce ;;
     let waitMs :=
       if didWork then TASK_LOOP_INTERVAL_MS else (TASK_LOOP_INTERVAL_MS * 2)%Z in
     sleep waitMs)
    (fun _err => sleep ERROR_BACKOFF_MS).

(** Main loop: repeatedly fetch, claim, solve, and submit tasks, until
    [stop()] is called; [passes] bounds the passes looked at. *)
Fixpoint taskLoop (passes : nat) : IO.t Env unit :=
  match passes with
  | 0 => IO.ret tt
  | S passes' =>
      fun s =>
        if running (Worker.world (worker_env s))
        then (_ <- pass ;; taskLoop passes') s
        else IO.ret tt s
  end.

End WithWorld.

End PrometheusAgent.

(* ================================================================== *)
(** * Vocabulary of the properties *)
(* ================================================================== *)

(** The roles of a conversation alternate, the first one being [first]. *)
Fixpoint alternates (first : Role) (msgs : list LLMMessage.t) : bool :=
  match msgs with
  | [] => true
  | m :: rest =>
      Role_eqb (LLMMessage.role m) first
      && alternates (match first with user => assistant | assistant => user end) rest
  end.

(** After the opening prompt: assistant turns carry content blocks and
    user turns carry tool results. *)
Fixpoint turns_after_prompt (expect : Role) (msgs : list LLMMessage.t) : Prop :=
  match msgs with
  | [] => True
  | m :: rest =>
      match expect with
      | assistant =>
          (exists blocks, m = LLMMessage.mk assistant (content_blocks blocks))
          /\ turns_after_prompt user rest
      | user =>
          (exists results, m = LLMMessage.mk user (content_results results))
          /\ turns_after_prompt assistant rest
      end
  end.

(** A conversation of the loop: the task prompt as a single user turn,
    then assistant and tool-result turns in alternation. *)
Definition conversation (prompt : string) (msgs : list LLMMessage.t) : Prop :=
  exists rest,
    msgs = LLMMessage.mk user (content_string prompt) :: rest
    /\ turns_after_prompt assistant rest.

Definition flip_role (r : Role) : Role :=
  match r with user => assistant | assistant => user end.

(** The role expected after [msgs], when [expect] was expected before. *)
Definition role_after (expect : Role) (msgs : list LLMMessage.t) : Role :=
  if Nat.even (length msgs) then expect else flip_role expect.

(** The invariant at the loop test: a conversation that ends with a user
    turn; after the assistant turn is pushed: one that ends with it. *)
Definition awaiting_inv (prompt : string) (msgs : list LLMMessage.t) : Prop :=
  exists rest,
    msgs = LLMMessage.mk user (content_string prompt) :: rest
    /\ turns_after_prompt assistant rest
    /\ Nat.even (length rest) = true.

Definition answered_inv (prompt : string) (msgs : list LLMMessage.t) : Prop :=
  exists rest,
    msgs = LLMMessage.mk user (content_string prompt) :: rest
    /\ turns_after_prompt assistant rest
    /\ Nat.even (length rest) = false.

(** The invariant of each point of the loop. *)
Definition point_inv (prompt : string) (p : Worker.Point) : Prop :=
  match p with
  | Worker.awaiting_model st => awaiting_inv prompt (Worker.messages st)
  | Worker.executing_tools st _ => answered_inv prompt (Worker.messages st)
  | Worker.finished (Worker.done _ st) => answered_inv prompt (Worker.messages st)
  | Worker.finished (Worker.budget_exhausted _ st) => awaiting_inv prompt (Worker.messages st)
  end.

(** Scores from first to last never go up. *)
Definition non_increasing (scores : list Z) : Prop :=
  Sorted (fun a b => (b <= a)%Z) scores.

(** The skill is of the task's mission: its mission is the string [all]
    or the task's [missionSlug]. *)
Definition of_mission (task : AvailableTask.t) (skill : SkillLoader.RawSkill) : Prop :=
  SkillLoader.mission (SkillLoader.meta skill) = SkillLoader.scalar "all"
  \/ SkillLoader.mission (SkillLoader.meta skill)
     = SkillLoader.scalar (AvailableTask.missionSlug task).

(** The three texts the scoring reads are strings, as [SkillMeta]
    declares them. *)
Definition texts_are_strings (skill : SkillLoader.RawSkill) : Prop :=
  exists name category description,
    SkillLoader.name (SkillLoader.meta skill) = SkillLoader.scalar name
    /\ SkillLoader.category (SkillLoader.meta skill) = SkillLoader.scalar category
    /\ SkillLoader.description (SkillLoader.meta skill) = SkillLoader.scalar description.

(** [score] is the relevance of [skill] for [task]. *)
Definition scores (toLowerCase : string -> string) (task : AvailableTask.t)
    (skill : SkillLoader.RawSkill) (score : Z) : Prop :=
  SkillMatching.relevance toLowerCase task skill = inr score.

(** The calls of the model recorded in a trace. *)
Definition model_calls (tr : list Worker.Event) : list (list LLMMessage.t) :=
  flat_map (fun ev => match ev with
                      | Worker.model_call msgs => [msgs]
                      | Worker.dispatch _ => []
                      end) tr.

(** The tool calls recorded in a trace. *)
Definition dispatches (tr : list Worker.Event) : list ToolCall.t :=
  flat_map (fun ev => match ev with
                      | Worker.model_call _ => []
                      | Worker.dispatch c => [c]
                      end) tr.

(** An OpenAI answer with a [choices] array that lacks what [complete]
    reads in it: no first choice, or a first choice without [message], or
    a message without [content]. *)
Definition openai_fields_missing (data : OpenAIWire.data) : Prop :=
  match OpenAIWire.choices data with
  | None => False
  | Some [] => True
  | Some (choice :: _) =>
      match OpenAIWire.message choice with
      | None => True
      | Some message => OpenAIWire.content message = None
      end
  end.

(** A Gemini answer with a [candidates] array that lacks what [complete]
    reads in it: no first candidate, or a first candidate without
    [content], or a content without [parts]. *)
Definition google_fields_missing (data : GoogleWire.data) : Prop :=
  match GoogleWire.candidates data with
  | None => False
  | Some [] => True
  | Some (candidate :: _) =>
      match GoogleWire.content candidate with
      | None => True
      | Some content => GoogleWire.parts content = None
      end
  end.

(** The [TypeError] of reading the first element of an array that is not
    there. *)
Definition no_first_element : JS.Thrown :=
  JS.ErrorObject "TypeError" "Cannot read properties of undefined (reading '0')".

(** What [complete] rejects with on a response whose status is not a
    success: an [Error] with the vendor, the status code and the body, or
    what reading the body rejects with. *)
Definition status_failure (vendor : string) (D : Type) (res : Http.Response D) : JS.Thrown :=
  match Http.text res with
  | inl err => err
  | inr text =>
      JS.ErrorObject "Error"
        (vendor ++ " API error " ++ Adapter.status_string (Http.status res) ++ ": " ++ text)
  end.

(** The request of [OpenAIAdapter.complete]. *)
Definition openai_complete_request (apiKey model systemPrompt userPrompt : string)
  : Http.Request :=
  Http.mk_request Adapter.openai_url (Adapter.openai_headers apiKey)
    (Http.openai_body model
       [OpenAIRequest.plain "system" (content_string systemPrompt);
        OpenAIRequest.plain "user" (content_string userPrompt)]
       4096 None).

(** The request of [GoogleAdapter.complete]. *)
Definition google_complete_request (apiKey model systemPrompt userPrompt : string)
  : Http.Request :=
  Http.mk_request (Adapter.google_url apiKey model) Adapter.google_headers
    (Http.google_body systemPrompt
       [GoogleRequest.mk None [GoogleRequest.text userPrompt]]
       4096 None).

(** [tool] is the tool registered under [name]: the entry of the map
    with that key. *)
Definition registered (World : Type) (tools : ToolExecutor.t World)
    (name : string) (tool : Tool.t World) : Prop :=
  exists before after,
    tools = (before ++ (name, tool) :: after)%list /\ ~ In name (map fst before).

(** No tool of the registry fails with a value that cannot be converted
    to a string. *)
Definition failures_have_messages (World : Type) (tools : ToolExecutor.t World) : Prop :=
  forall name tool input w w1 raised,
    In (name, tool) tools ->
    Tool.execute tool input w <> (w1, inl (JS.Unconvertible raised)).

(** The [TypeError] of logging a tool call whose input is [undefined]. *)
Definition input_not_logged : JS.Thrown :=
  JS.ErrorObject "TypeError" "Cannot read properties of undefined (reading 'slice')".

(** A pass over the tool calls of a turn, from the world [w].  The calls
    are taken one after the other, in order.  A call without input stops
    the pass before it is dispatched.  Every other call is dispatched
    once, in the world the call before it left, and stops the pass if the
    dispatcher rejects; otherwise what the dispatcher answered is fed back
    under the identifier of the call.  [ran] are the calls dispatched,
    [results] the results fed back, [w'] the world the pass left and
    [stopped] what stopped it, if anything did. *)
Inductive tool_pass (World : Type) (toolExecutor : ToolExecutor.t World)
  : World -> list ToolCall.t -> list ToolCall.t -> list ToolResultContent.t
    -> World -> option JS.Thrown -> Prop :=
| pass_end : forall w, tool_pass toolExecutor w [] [] [] w None
| pass_no_input : forall w toolCall calls,
    ToolCall.input toolCall = None ->
    tool_pass toolExecutor w (toolCall :: calls) [] [] w (Some input_not_logged)
| pass_rejected : forall w toolCall calls w1 err,
    ToolCall.input toolCall <> None ->
    ToolExecutor.execute toolExecutor toolCall w = (w1, inl err) ->
    tool_pass toolExecutor w (toolCall :: calls) [toolCall] [] w1 (Some err)
| pass_next : forall w toolCall calls w1 result ran results w2 stopped,
    ToolCall.input toolCall <> None ->
    ToolExecutor.execute toolExecutor toolCall w = (w1, inr result) ->
    tool_pass toolExecutor w1 calls ran results w2 stopped ->
    tool_pass toolExecutor w (toolCall :: calls) (toolCall :: ran)
              (ToolResultContent.mk (ToolCall.id toolCall) (ToolResult.content result)
                                    (ToolResult.is_error result) :: results)
              w2 stopped.

(** The text segments of a turn, in order. *)
Definition text_segments (blocks : list ContentBlock) : list string :=
  flat_map (fun block => match block with
                         | text_block text => [text]
                         | tool_use_block _ _ _ => []
                         end) blocks.

(** What a run returns once the turns are used up, for the blocks of the
    last assistant turn: the text segments joined by line breaks and
    followed by the warning, or the fixed string when there is none. *)
Definition exhausted_answer (blocks : list ContentBlock) : string :=
  match text_segments blocks with
  | [] => "[Agent reached maximum turns without producing a final answer]"
  | first :: rest =>
      String.concat Worker.newline (first :: rest)
        ++ Worker.newline ++ Worker.newline
        ++ "[Warning: Agent reached maximum turns limit]"
  end.

(** Every tool call of the turn carries an input. *)
Definition inputs_given (blocks : list ContentBlock) : Prop :=
  Forall (fun call => ToolCall.input call <> None) (tool_uses_of blocks).

(** A registry as the program can build one: [new ToolExecutor()]
    followed by calls of [register]. *)
Inductive registry_built (World : Type) : ToolExecutor.t World -> Prop :=
| built_empty : registry_built (ToolExecutor.empty World)
| built_register : forall tool tools,
    registry_built tools -> registry_built (ToolExecutor.register tool tools).

(** The result [execute] gives for a name that is not registered. *)
Definition unknown_tool_result (call : ToolCall.t) : ToolResult.t :=
  ToolResult.mk (ToolCall.id call) ("Unknown tool: " ++ ToolCall.name call) (Some true).

(** A round of the loop: the content blocks of an assistant turn and the
    tool results fed back for it. *)
Definition Round : Type := (list ContentBlock * list ToolResultContent.t)%type.

(** The two turns a round leaves in the conversation. *)
Definition round_turns (round : Round) : list LLMMessage.t :=
  [LLMMessage.mk assistant (content_blocks (fst round));
   LLMMessage.mk user (content_results (snd round))].

Definition rounds_turns (rounds : list Round) : list LLMMessage.t :=
  flat_map round_turns rounds.

(** The results answer the [tool_use] blocks one for one, in order, under
    the blocks' identifiers. *)
Definition answers (round : Round) : Prop :=
  map ToolResultContent.tool_use_id (snd round) = map ToolCall.id (tool_uses_of (fst round)).

(** The tool calls a list of rounds asked for, in order. *)
Definition requested (rounds : list Round) : list ToolCall.t :=
  flat_map (fun round => tool_uses_of (fst round)) rounds.

(** A conversation whose every assistant turn is answered: the prompt,
    then complete rounds. *)
Definition answered_conversation (prompt : string) (msgs : list LLMMessage.t) : Prop :=
  exists rounds,
    msgs = LLMMessage.mk user (content_string prompt) :: rounds_turns rounds
    /\ Forall answers rounds.

(** What holds of the locals at a point of the loop, given the rounds
    completed so far. *)
Definition point_ledger (prompt : string) (rounds : list Round) (p : Worker.Point) : Prop :=
  match p with
  | Worker.awaiting_model st =>
      Worker.messages st = LLMMessage.mk user (content_string prompt) :: rounds_turns rounds
      /\ Worker.turn st = length rounds
      /\ Worker.turn st <= Worker.MAX_AGENT_TURNS
  | Worker.executing_tools st response =>
      Worker.messages st
      = (LLMMessage.mk user (content_string prompt) :: rounds_turns rounds
           ++ [LLMMessage.mk assistant (content_blocks (LLMToolResponse.content response))])%list
      /\ Worker.turn st = length rounds
      /\ Worker.turn st < Worker.MAX_AGENT_TURNS
  | Worker.finished (Worker.done answer st) =>
      (exists blocks,
          Worker.messages st
          = (LLMMessage.mk user (content_string prompt) :: rounds_turns rounds
               ++ [LLMMessage.mk assistant (content_blocks blocks)])%list
          /\ answer = JS.join Worker.newline (texts_of blocks))
      /\ Worker.turn st = length rounds
      /\ Worker.turn st < Worker.MAX_AGENT_TURNS
  | Worker.finished (Worker.budget_exhausted answer st) =>
      Worker.messages st = LLMMessage.mk user (content_string prompt) :: rounds_turns rounds
      /\ Worker.turn st = length rounds
      /\ Worker.turn st = Worker.MAX_AGENT_TURNS
  end.

(** The number of model calls made up to a point with [n] completed
    rounds: one per round, and one more once the model has answered the
    current turn. *)
Definition calls_at (n : nat) (p : Worker.Point) : nat :=
  match p with
  | Worker.awaiting_model _ => n
  | Worker.executing_tools _ _ => S n
  | Worker.finished (Worker.done _ _) => S n
  | Worker.finished (Worker.budget_exhausted _ _) => n
  end.

(** The requests of the three [completeWithTools]. *)
Definition anthropic_tools_request (apiKey model systemPrompt : string)
    (messages : list LLMMessage.t) (tools : list ToolDefinition.t) : Http.Request :=
  Http.mk_request Adapter.anthropic_url (Adapter.anthropic_headers apiKey)
    (Http.anthropic_body model 4096 systemPrompt
       (map (fun m => LLMMessage.mk (LLMMessage.role m) (LLMMessage.content m)) messages)
       (Adapter.tools_field tools)).

Definition openai_tools_request (World : Type) (host : Host.t World)
    (apiKey model systemPrompt : string)
    (messages : list LLMMessage.t) (tools : list ToolDefinition.t) : Http.Request :=
  Http.mk_request Adapter.openai_url (Adapter.openai_headers apiKey)
    (Http.openai_body model
       (OpenAIRequest.plain "system" (content_string systemPrompt)
          :: flat_map (Adapter.openai_message host) messages)
       4096 (Adapter.tools_field tools)).

Definition google_tools_request (apiKey model systemPrompt : string)
    (messages : list LLMMessage.t) (tools : list ToolDefinition.t) : Http.Request :=
  Http.mk_request (Adapter.google_url apiKey model) Adapter.google_headers
    (Http.google_body systemPrompt (map Adapter.google_content messages)
       4096 (Adapter.tools_field tools)).

(** What a settled [fetch] makes an adapter reject with, if anything: the
    rejection itself, or, for a status that is not a success, the error
    made of the status and the body, or what reading the body rejects
    with. *)
Definition fetch_failure (vendor : string) (D : Type) (settled : JS.Thrown + Http.Response D)
  : option JS.Thrown :=
  match settled with
  | inl err => Some err
  | inr res => if Http.ok res then None else Some (status_failure vendor res)
  end.

(** [choice.message.tool_calls] as the [if (...)] guard leaves it: none
    when the field is absent. *)
Definition openai_calls (message : OpenAIWire.message_t) : list OpenAIWire.tool_call :=
  match OpenAIWire.tool_calls message with
  | Some calls => calls
  | None => []
  end.

(** The tool call [tc] of an OpenAI answer is read as [call]: same
    identifier, same name, and the input is what [JSON.parse] makes of the
    argument string. *)
Definition read_as (World : Type) (host : Host.t World)
    (tc : OpenAIWire.tool_call) (call : ToolCall.t) : Prop :=
  ToolCall.id call = OpenAIWire.id tc
  /\ ToolCall.name call = OpenAIWire.function_name tc
  /\ match ToolCall.input call with
     | Some input => Host.JSON_parse host (OpenAIWire.function_arguments tc) = inr input
     | None => False
     end.


(** The texts and the function calls among the parts of a Gemini answer,
    in order. *)
Fixpoint google_texts (parts : list GoogleWire.part) : list string :=
  match parts with
  | [] => []
  | GoogleWire.text s :: rest => s :: google_texts rest
  | _ :: rest => google_texts rest
  end.

Fixpoint google_calls (parts : list GoogleWire.part)
  : list (string * option JS.JsonObject) :=
  match parts with
  | [] => []
  | GoogleWire.functionCall name args :: rest => (name, args) :: google_calls rest
  | _ :: rest => google_calls rest
  end.

(** The request of [AnthropicAdapter.complete]. *)
Definition anthropic_complete_request (apiKey model systemPrompt userPrompt : string)
  : Http.Request :=
  Http.mk_request Adapter.anthropic_url (Adapter.anthropic_headers apiKey)
    (Http.anthropic_body model 4096 systemPrompt
       [LLMMessage.mk user (content_string userPrompt)] None).

(** [fetch] resolves on [req] in [w] with a success status and a body that
    parses to [data]. *)
Definition answers_with (World D : Type)
    (fetch : Http.Request -> IO.t World (Http.Response D))
    (req : Http.Request) (w : World) (data : D) : Prop :=
  exists w1 res, fetch req w = (w1, inr res) /\ Http.ok res = true /\ Http.json res = inr data.

(** The completion [plain] of [complete] and the response [tooled] of
    [completeWithTools] tell the same: the content of the one is the
    concatenated text of the other, and provider, model and token count
    are equal. *)
Definition same_answer (plain : LLMResponse.t) (tooled : LLMToolResponse.t) : Prop :=
  LLMResponse.content plain
  = String.concat "" (text_segments (LLMToolResponse.content tooled))
  /\ LLMResponse.provider plain = LLMToolResponse.provider tooled
  /\ LLMResponse.model plain = LLMToolResponse.model tooled
  /\ LLMResponse.tokensUsed plain = LLMToolResponse.tokensUsed tooled.

(** The identifiers in the [tool_calls] field of an assistant message
    sent to OpenAI. *)
Definition openai_call_ids (calls : option (list OpenAIRequest.tool_call)) : list string :=
  match calls with
  | Some calls => map OpenAIRequest.id calls
  | None => []
  end.

(** A message list in which every [tool] message answers a tool call: the
    [tool] messages come in runs that directly follow an assistant message
    and carry, in order, exactly the identifiers of its [tool_calls]. *)
Inductive openai_answered : list OpenAIRequest.message -> Prop :=
| openai_answered_end : openai_answered []
| openai_answered_plain : forall role content rest,
    openai_answered rest ->
    openai_answered (OpenAIRequest.plain role content :: rest)
| openai_answered_round : forall text calls (results : list (string * string)) rest,
    map fst results = openai_call_ids calls ->
    openai_answered rest ->
    openai_answered
      (OpenAIRequest.assistant_msg text calls
         :: map (fun r => OpenAIRequest.tool (fst r) (snd r)) results ++ rest)%list.

(** The number of [functionCall] parts of a turn sent to Gemini. *)
Fixpoint google_request_calls (parts : list GoogleRequest.part) : nat :=
  match parts with
  | [] => 0
  | GoogleRequest.functionCall _ _ :: rest => S (google_request_calls rest)
  | _ :: rest => google_request_calls rest
  end.

(** [{ functionResponse: { name: "tool", ... } }]. *)
Definition is_tool_response (p : GoogleRequest.part) : bool :=
  match p with
  | GoogleRequest.functionResponse name _ => String.eqb name "tool"
  | _ => false
  end.

(** Turns that alternate between [model] and [user], each [user] turn
    made of as many function responses as the [model] turn before it has
    function calls. *)
Inductive google_answered : list GoogleRequest.content -> Prop :=
| google_answered_end : google_answered []
| google_answered_round : forall asked given rest,
    forallb is_tool_response given = true ->
    length given = google_request_calls asked ->
    google_answered rest ->
    google_answered (GoogleRequest.mk (Some "model") asked
                       :: GoogleRequest.mk (Some "user") given :: rest).

(** [n] slashes. *)
Fixpoint slashes (n : nat) : string :=
  match n with
  | 0 => ""
  | S n => String "/" (slashes n)
  end.

(** The envelope [handleResponse] returns when the body parsed to the
    object [json]: the same fields. *)
Definition envelope_of (T : Type) (json : ApiResponse.t T)
  : ApiResponse.t (SpaceMarsApi.Payload T) :=
  ApiResponse.mk (ApiResponse.success json)
                 (option_map SpaceMarsApi.parsed (ApiResponse.data json))
                 (ApiResponse.error json) (ApiResponse.message json).

(** The body is JSON, but not an object. *)
Definition not_an_object (T : Type) (parsed : JS.Thrown + SpaceMarsApi.Parsed T) : Prop :=
  match parsed with
  | inr SpaceMarsApi.parsed_null => True
  | inr (SpaceMarsApi.parsed_primitive _ _) => True
  | _ => False
  end.

(** What the client hands on for a parsed body on a success status: the
    body as it is. *)
Definition returned_as_is (T : Type) (parsed : SpaceMarsApi.Parsed T)
  : SpaceMarsApi.Returned T :=
  match parsed with
  | SpaceMarsApi.parsed_object json => SpaceMarsApi.envelope (envelope_of json)
  | SpaceMarsApi.parsed_null => SpaceMarsApi.returned_null
  | SpaceMarsApi.parsed_primitive type_of rendered =>
      SpaceMarsApi.returned_primitive type_of rendered
  end.

(** A response on which [handleResponse] throws: its body cannot be
    read, or its status is not a success and its body is JSON but not an
    object. *)
Definition unhandled (T : Type) (JSON_parse : string -> JS.Thrown + SpaceMarsApi.Parsed T)
    (res : SpaceMarsApi.Response) : Prop :=
  match SpaceMarsApi.text res with
  | inl _ => True
  | inr text => SpaceMarsApi.ok res = false /\ not_an_object (JSON_parse text)
  end.

(** [error] is set and not empty. *)
Definition has_error (T : Type) (r : ApiResponse.t T) : Prop :=
  exists error, ApiResponse.error r = Some error /\ error <> "".

(** A value the parser stores is trimmed: a string without white space at
    either end, or a list of non-empty such strings. *)
Definition trimmed_value (v : SkillLoader.Value) : Prop :=
  match v with
  | SkillLoader.undefined => True
  | SkillLoader.scalar s => JSString.trim s = s
  | SkillLoader.items xs => Forall (fun x => x <> "" /\ JSString.trim x = x) xs
  end.

(** A required field as the parser lets it through: a non-empty string,
    or any list. *)
Definition field_is_set (v : SkillLoader.Value) : Prop :=
  match v with
  | SkillLoader.undefined => False
  | SkillLoader.scalar s => s <> ""
  | SkillLoader.items _ => True
  end.

(** [s] does not contain the character [c]. *)
Fixpoint without (c : ascii) (s : string) : bool :=
  match s with
  | EmptyString => true
  | String a rest => negb (Ascii.eqb a c) && without c rest
  end.

(** An ASCII character that is not white space. *)
Definition plain_char (a : ascii) : bool :=
  (nat_of_ascii a <? 128)%nat && negb (JSString.space1 a).

(** [s] begins with a plain character. *)
Definition front_plain (s : string) : bool :=
  match s with
  | String a _ => plain_char a
  | EmptyString => false
  end.

(** [s] is not empty, and begins and ends with a plain character. *)
Definition plain_ends (s : string) : bool :=
  front_plain s && front_plain (JSString.rev s).

(** A value that fits on one line of a front matter and is read back as
    the string it is: no line break, plain at both ends, not in square
    brackets. *)
Definition plain_field (s : string) : bool :=
  without "010" s && without "013" s && plain_ends s
  && negb (JSString.startsWith s "[" && JSString.endsWith s "]").

(** An item of a bracketed list: moreover no comma. *)
Definition plain_item (s : string) : bool :=
  without "010" s && without "013" s && without "," s && plain_ends s.

Definition plain_meta (meta : SkillMeta.t) : bool :=
  plain_field (SkillMeta.name meta) && plain_field (SkillMeta.version meta)
  && plain_field (SkillMeta.category meta) && plain_field (SkillMeta.mission meta)
  && plain_field (SkillMeta.description meta)
  && forallb plain_item (SkillMeta.tools meta).

(** A SKILL.md in the expected format: the six keys in a front matter
    between two lines of three dashes, then the body. *)
Definition skill_document (meta : SkillMeta.t) (body : string) : string :=
  let nl := String SkillLoader.LF EmptyString in
  "---" ++ nl
  ++ "name: " ++ SkillMeta.name meta ++ nl
  ++ "version: " ++ SkillMeta.version meta ++ nl
  ++ "category: " ++ SkillMeta.category meta ++ nl
  ++ "mission: " ++ SkillMeta.mission meta ++ nl
  ++ "description: " ++ SkillMeta.description meta ++ nl
  ++ "tools: [" ++ JS.join ", " (SkillMeta.tools meta) ++ "]" ++ nl
  ++ "---" ++ nl
  ++ body.

(** The pause that follows a call of [runOnce], by how it settled. *)
Definition wait_after (settled : JS.Thrown + bool) : Z :=
  match settled with
  | inr true => PrometheusAgent.TASK_LOOP_INTERVAL_MS
  | inr false => (PrometheusAgent.TASK_LOOP_INTERVAL_MS * 2)%Z
  | inl _ => PrometheusAgent.ERROR_BACKOFF_MS
  end.

(** The log of passes that settled as [outcomes]: each run is followed
    by its pause. *)
Definition passes_log (outcomes : list (JS.Thrown + bool)) : list PrometheusAgent.Event :=
  flat_map (fun settled => [PrometheusAgent.ran settled;
                            PrometheusAgent.slept (wait_after settled)])
           outcomes.

(** The variable is not set, or holds white space only. *)
Definition blank (process_env : Config.Environment) (key : string) : Prop :=
  process_env key = None
  \/ exists value, process_env key = Some value /\ JSString.trim value = "".

(* ================================================================== *)
(** * Stubs for the examples *)
(* ================================================================== *)

Module Stub.

(** The world of the examples: the requests sent so far, in order. *)
Definition Log : Type := list Http.Request.

(** A [fetch] that records the request and answers [200 OK] with [data]. *)
Definition answering (D : Type) (data : D) (req : Http.Request)
  : IO.t Log (Http.Response D) :=
  fun log => ((log ++ [req])%list, inr (Http.mk_response true 200 (inr "") (inr data))).

(** A [fetch] that records the request and answers with [status] and a
    body that is not read as JSON. *)
Definition refusing (D : Type) (status : nat) (text : string) (req : Http.Request)
  : IO.t Log (Http.Response D) :=
  fun log =>
    ((log ++ [req])%list,
     inr (Http.mk_response false status (inr text)
            (inl (JS.ErrorObject "SyntaxError" "Unexpected token")))).

(** A host whose three endpoints answer with the given data; arguments
    always parse to the empty object, and the provider names of the
    examples are ASCII. *)
Definition host (a : AnthropicWire.data) (o : OpenAIWire.data) (g : GoogleWire.data)
  : Host.t Log :=
  Host.mk (answering a) (answering o) (answering g)
          (fun _ => inr []) (fun _ => "{}")
          (fun log => (log, inr "gemini_0_abcdef"))
          JS.ascii_toLowerCase.

(** Answers with an empty [content], [choices] or [candidates] array. *)
Definition no_anthropic : AnthropicWire.data := AnthropicWire.mk [] "end_turn" None.
Definition no_openai : OpenAIWire.data := OpenAIWire.mk (Some []) None.
Definition no_google : GoogleWire.data := GoogleWire.mk (Some []) None.

(** The world of the loop's examples: the notes written so far. *)
Definition Notes : Type := list string.

(** The string under [key] in an argument object, [""] without one. *)
Fixpoint string_property (key : string) (fields : JS.JsonObject) : string :=
  match fields with
  | [] => ""
  | (k, JS.JString v) :: rest => if String.eqb k key then v else string_property key rest
  | _ :: rest => string_property key rest
  end.

Definition string_field (key : string) (input : option JS.JsonObject) : string :=
  match input with
  | Some fields => string_property key fields
  | None => ""
  end.

Definition schema : ToolDefinition.input_schema_t := ToolDefinition.mk_schema [] None.

(** [echo] returns its [msg]; [note] appends its [text] to the notes;
    [notes] returns the notes written so far; [broken] always throws. *)
Definition echo : Tool.t Notes :=
  Tool.mk (ToolDefinition.mk "echo" "Echo the message" schema)
          (fun input w => (w, inr (string_field "msg" input))).

Definition note : Tool.t Notes :=
  Tool.mk (ToolDefinition.mk "note" "Write a note" schema)
          (fun input w => ((w ++ [string_field "text" input])%list, inr "ok")).

Definition notes : Tool.t Notes :=
  Tool.mk (ToolDefinition.mk "notes" "Read the notes" schema)
          (fun _ w => (w, inr (JS.join "," w))).

Definition broken : Tool.t Notes :=
  Tool.mk (ToolDefinition.mk "broken" "Always fails" schema)
          (fun _ w => (w, inl (JS.new_Error "boom"))).

Definition registry : ToolExecutor.t Notes :=
  ToolExecutor.register broken
    (ToolExecutor.register notes
       (ToolExecutor.register note
          (ToolExecutor.register echo (ToolExecutor.empty Notes)))).

(** What [String(Object.create(null))] throws. *)
Definition cannot_convert : JS.Thrown :=
  JS.ErrorObject "TypeError" "Cannot convert object to primitive value".

(** [opaque] writes a note and then throws an object without [toString],
    [throw Object.create(null)]; [shouting] throws a string. *)
Definition opaque : Tool.t Notes :=
  Tool.mk (ToolDefinition.mk "opaque" "Fails with a bare object" schema)
          (fun _ w => ((w ++ ["opaque ran"])%list, inl (JS.Unconvertible cannot_convert))).

Definition shouting : Tool.t Notes :=
  Tool.mk (ToolDefinition.mk "shouting" "Fails with a string" schema)
          (fun _ w => (w, inl (JS.OtherValue "no such file"))).

Definition fragile : ToolExecutor.t Notes :=
  ToolExecutor.register shouting (ToolExecutor.register opaque registry).

(** An adapter that answers the same response at every turn. *)
Definition always (response : LLMToolResponse.t) : Adapter.LLMAdapter Notes :=
  Adapter.new_LLMAdapter "stub" "key" "stub-model"
    (fun _ _ => IO.ret (LLMResponse.mk "" "stub" "stub-model" None))
    (fun _ _ _ => IO.ret response).

(** An adapter that answers the responses of a script, one per turn: a
    conversation of [2k+1] messages is at turn [k]. *)
Definition scripted (script : list LLMToolResponse.t) : Adapter.LLMAdapter Notes :=
  Adapter.new_LLMAdapter "stub" "key" "stub-model"
    (fun _ _ => IO.ret (LLMResponse.mk "" "stub" "stub-model" None))
    (fun _ messages _ =>
       match nth_error script (Nat.div (length messages) 2) with
       | Some response => IO.ret response
       | None => IO.throw (JS.new_Error "script exhausted")
       end).

Definition response (content : list ContentBlock) (stopReason : string) : LLMToolResponse.t :=
  LLMToolResponse.mk content stopReason "stub" "stub-model" None.

Definition start : Worker.Env Notes := Worker.mk_env [] [].

(** The lower-casing of the examples, whose texts are ASCII. *)
Definition lower : string -> string := JS.ascii_toLowerCase.

(** Three of the bundled skills (their frontmatter) and one skill of
    another mission, as the loader parses them. *)
Definition skill (name category mission description : string) : SkillLoader.RawSkill :=
  SkillLoader.mk_skill
    (SkillLoader.mk_meta (SkillLoader.scalar name) (SkillLoader.scalar "1.0.0")
                         (SkillLoader.scalar category) (SkillLoader.scalar mission)
                         (SkillLoader.scalar description) (SkillLoader.items []))
    "" "".

Definition math_modeling : SkillLoader.RawSkill :=
  skill "math-modeling" "mathematics" "all"
        "Mathematical modeling and simulation for space mission parameters, trajectories, resource optimization".

Definition research_synthesis : SkillLoader.RawSkill :=
  skill "research-synthesis" "science" "all"
        "Synthesize scientific literature and research papers into actionable knowledge for space colonization".

Definition engineering_analysis : SkillLoader.RawSkill :=
  skill "engineering-analysis" "engineering" "all"
        "Technical analysis of engineering systems for space habitats, vehicles, life support, and infrastructure".

Definition lunar_geology : SkillLoader.RawSkill :=
  skill "lunar-geology" "science" "moon" "Research on lunar regolith".

(** A skill file whose category is written as a list, and what the
    loader makes of it. *)
Definition orbital_mechanics_md : string :=
  "---
name: orbital-mechanics
version: 1.0.0
category: [science, engineering]
mission: all
description: Transfer orbits and launch windows
---

# Orbital mechanics
".

Definition orbital_mechanics : SkillLoader.RawSkill :=
  SkillLoader.mk_skill
    (SkillLoader.mk_meta (SkillLoader.scalar "orbital-mechanics") (SkillLoader.scalar "1.0.0")
                         (SkillLoader.items ["science"; "engineering"])
                         (SkillLoader.scalar "all")
                         (SkillLoader.scalar "Transfer orbits and launch windows")
                         (SkillLoader.items []))
    "# Orbital mechanics" "skills/orbital-mechanics/SKILL.md".

Definition orbit_task : AvailableTask.t :=
  AvailableTask.mk "task-1" "Research transfer orbits" "A science question on trajectories"
                   "advanced" "mars" (JS.number "50") ["Research"; "Modeling"; "research"].

End Stub.

(** ** Stubs for the task lifecycle *)

Module Desk.

Definition assignment (task : AvailableTask.t) : TaskAssignment.t :=
  TaskAssignment.mk (AvailableTask.id task) (AvailableTask.title task)
    (AvailableTask.description task) (AvailableTask.difficulty task)
    (AvailableTask.missionSlug task) (AvailableTask.rewardMars task)
    (AvailableTask.tags task).

(** A platform that lists [listed], lets a task be claimed when
    [claimable], and accepts every submission; each call leaves a note. *)
Definition client (listed : list AvailableTask.t) (claimable : bool)
  : SpaceMarsClient.t Stub.Notes :=
  SpaceMarsClient.mk
    (fun _ notes =>
       (app notes ["list"], inr (ApiResponse.mk true (Some listed) None None)))
    (fun taskId notes =>
       (app notes ["claim " ++ taskId],
        inr (if claimable
             then ApiResponse.mk true (option_map assignment (hd_error listed)) None None
             else ApiResponse.mk false None (Some "Task already claimed") None)))
    (fun taskId content notes =>
       (app notes ["submit " ++ taskId ++ ": " ++ content],
        inr (ApiResponse.mk true (Some (TaskSubmitResult.mk taskId "submitted")) None None))).

(** A host without network: every [fetch] rejects. *)
Definition offline : Host.t Stub.Notes :=
  Host.mk (fun _ => IO.throw (JS.new_Error "fetch failed"))
          (fun _ => IO.throw (JS.new_Error "fetch failed"))
          (fun _ => IO.throw (JS.new_Error "fetch failed"))
          (fun _ => inr []) (fun _ => "{}")
          (fun notes => (notes, inr "gemini_0_abcdef"))
          JS.ascii_toLowerCase.

(** An adapter whose every call rejects. *)
Definition unreachable : Adapter.LLMAdapter Stub.Notes :=
  Adapter.new_LLMAdapter "stub" "key" "stub-model"
    (fun _ _ => IO.throw (JS.new_Error "fetch failed"))
    (fun _ _ _ => IO.throw (JS.new_Error "fetch failed")).

(** The adapter the factory makes without an API key. *)
Definition placeholder : Adapter.LLMAdapter Stub.Notes :=
  Adapter.PlaceholderAdapter Stub.Notes "placeholder" "" "none".

Definition worker (listed : list AvailableTask.t) (claimable : bool)
    (llm : Adapter.LLMAdapter Stub.Notes) : TaskWorker.t Stub.Notes :=
  TaskWorker.setToolExecutor Stub.registry
    (TaskWorker.setSkills [Stub.math_modeling; Stub.research_synthesis]
       (TaskWorker.new_TaskWorker (client listed claimable) llm)).

End Desk.

(** ** Stubs for the skill loader *)

Module Bundled.

Definition nl : string := String SkillLoader.LF EmptyString.

(** The front matter of [skills/mission-planning/SKILL.md]. *)
Definition mission_planning : SkillMeta.t :=
  SkillMeta.mk "mission-planning" "1.0.0" "management" "all"
    "Strategic planning and decomposition of space colonization missions into actionable phases, milestones, and tasks"
    ["web-search"; "calculator"; "document-generator"].

Definition body : string := nl ++ "# Mission Planning Skill" ++ nl.

Definition path : string := "skills/mission-planning/SKILL.md".

(** What the parser returns for that file. *)
Definition parsed : SkillLoader.RawSkill :=
  SkillLoader.mk_skill
    (SkillLoader.mk_meta
       (SkillLoader.scalar "mission-planning") (SkillLoader.scalar "1.0.0")
       (SkillLoader.scalar "management") (SkillLoader.scalar "all")
       (SkillLoader.scalar
          "Strategic planning and decomposition of space colonization missions into actionable phases, milestones, and tasks")
       (SkillLoader.items ["web-search"; "calculator"; "document-generator"]))
    "# Mission Planning Skill" path.

(** A front matter whose version is commented out. *)
Definition unversioned : string :=
  "---" ++ nl ++ "name: orbit" ++ nl ++ "# version: 1.0.0" ++ nl ++ "---" ++ nl.

End Bundled.

(* ================================================================== *)
(** * Properties of the JavaScript primitives *)
(* ================================================================== *)

Section JSFacts.

Lemma prefix_refl (s : string) : String.prefix s s = true.
Proof.
  induction s as [|a s IH]; simpl; [reflexivity|].
  destruct (ascii_dec a a); [exact IH | congruence].
Qed.

Lemma index_app_r (p s : string) : exists n, String.index 0 s (p ++ s) = Some n.
Proof.
  induction p as [|c p IH].
  - destruct s as [|a s]; [now exists 0|].
    change ("" ++ String a s) with (String a s).
    cbn [String.index]. rewrite prefix_refl. now exists 0.
  - destruct IH as [n IH].
    change (String c p ++ s) with (String c (p ++ s)).
    cbn [String.index]. rewrite IH.
    destruct (String.prefix s (String c (p ++ s))); eauto.
Qed.

(** A string ending in [s] includes [s]. *)
Lemma includes_app_r (p s : string) : JS.includes (p ++ s) s = true.
Proof.
  unfold JS.includes. destruct (index_app_r p s) as [n ->]. reflexivity.
Qed.

End JSFacts.

(* ================================================================== *)
(** * The tool dispatcher *)
(* ================================================================== *)

Section DispatcherFacts.
Context {World : Type}.
Implicit Types (tools : ToolExecutor.t World) (call : ToolCall.t) (w : World).

Lemma execute_unknown tools call w :
  ToolExecutor.Map_get (ToolCall.name call) tools = None ->
  ToolExecutor.execute tools call w
  = (w, inr (ToolResult.mk (ToolCall.id call)
                           ("Unknown tool: " ++ ToolCall.name call) (Some true))).
Proof.
  intros Hget. unfold ToolExecutor.execute. rewrite Hget. reflexivity.
Qed.

Lemma execute_success tools call w tool w1 output :
  ToolExecutor.Map_get (ToolCall.name call) tools = Some tool ->
  Tool.execute tool (ToolCall.input call) w = (w1, inr output) ->
  ToolExecutor.execute tools call w
  = (w1, inr (ToolResult.mk (ToolCall.id call) output None)).
Proof.
  intros Hget Hrun. unfold ToolExecutor.execute. rewrite Hget.
  unfold IO.try_catch, IO.bind. rewrite Hrun. reflexivity.
Qed.

Lemma execute_failure tools call w tool w1 err message :
  ToolExecutor.Map_get (ToolCall.name call) tools = Some tool ->
  Tool.execute tool (ToolCall.input call) w = (w1, inl err) ->
  JS.message_of err = inr message ->
  ToolExecutor.execute tools call w
  = (w1, inr (ToolResult.mk (ToolCall.id call) ("Error: " ++ message) (Some true))).
Proof.
  intros Hget Hrun Hmsg. unfold ToolExecutor.execute. rewrite Hget.
  unfold IO.try_catch, IO.bind. rewrite Hrun, Hmsg. reflexivity.
Qed.

Lemma execute_rejection tools call w tool w1 err raised :
  ToolExecutor.Map_get (ToolCall.name call) tools = Some tool ->
  Tool.execute tool (ToolCall.input call) w = (w1, inl err) ->
  JS.message_of err = inl raised ->
  ToolExecutor.execute tools call w = (w1, inl raised).
Proof.
  intros Hget Hrun Hmsg. unfold ToolExecutor.execute. rewrite Hget.
  unfold IO.try_catch, IO.bind. rewrite Hrun, Hmsg. reflexivity.
Qed.

(** A result of [execute] carries the call's identifier. *)
Lemma execute_id tools call w w' result :
  ToolExecutor.execute tools call w = (w', inr result) ->
  ToolResult.tool_use_id result = ToolCall.id call.
Proof.
  destruct (ToolExecutor.Map_get (ToolCall.name call) tools) as [tool|] eqn:Hget.
  - destruct (Tool.execute tool (ToolCall.input call) w) as [w1 [err|output]] eqn:Hrun.
    + destruct (JS.message_of err) as [raised|message] eqn:Hmsg.
      * rewrite (execute_rejection _ _ _ Hget Hrun Hmsg). discriminate.
      * rewrite (execute_failure _ _ _ Hget Hrun Hmsg). now intros [= _ <-].
    + rewrite (execute_success _ _ _ Hget Hrun). now intros [= _ <-].
  - rewrite (execute_unknown _ _ _ Hget). now intros [= _ <-].
Qed.

Lemma Map_get_None tools (key : string) :
  ToolExecutor.Map_get key tools = None <-> ~ In key (ToolExecutor.getToolNames tools).
Proof.
  unfold ToolExecutor.getToolNames. induction tools as [|[k v] rest IH]; simpl.
  - tauto.
  - destruct (String.eqb_spec k key) as [->|Hne].
    + split; [discriminate | tauto].
    + rewrite IH. tauto.
Qed.

(** The entry of the map under a key is what [Map.prototype.get] finds. *)
Lemma registered_get tools (name : string) (tool : Tool.t World) :
  registered tools name tool <-> ToolExecutor.Map_get name tools = Some tool.
Proof.
  split.
  - intros (before & after & -> & Hnot).
    induction before as [|[k v] before IH]; simpl.
    + now rewrite String.eqb_refl.
    + destruct (String.eqb_spec k name) as [->|Hne].
      * exfalso. apply Hnot. now left.
      * apply IH. intros Hin. apply Hnot. now right.
  - induction tools as [|[k v] rest IH]; simpl; [discriminate|].
    destruct (String.eqb_spec k name) as [->|Hne].
    + intros [= ->]. exists [], rest. split; [reflexivity | intros []].
    + intros Hget. destruct (IH Hget) as (before & after & -> & Hnot).
      exists ((k, v) :: before), after. split; [reflexivity|].
      intros [Heq|Hin]; [now apply Hne | now apply Hnot].
Qed.

Lemma Map_get_In tools (name : string) (tool : Tool.t World) :
  ToolExecutor.Map_get name tools = Some tool -> In (name, tool) tools.
Proof.
  intros Hget. apply registered_get in Hget. destruct Hget as (before & after & -> & _).
  apply in_or_app. right. now left.
Qed.

(** When no tool fails with a value that has no string, [execute]
    resolves. *)
Lemma execute_resolves tools call w :
  failures_have_messages tools ->
  exists w' result, ToolExecutor.execute tools call w = (w', inr result).
Proof.
  intros Hfail.
  destruct (ToolExecutor.Map_get (ToolCall.name call) tools) as [tool|] eqn:Hget.
  - destruct (Tool.execute tool (ToolCall.input call) w) as [w1 [err|output]] eqn:Hrun.
    + destruct err as [name message|rendered|raised].
      * eexists _, _. eapply execute_failure; [eassumption | eassumption | reflexivity].
      * eexists _, _. eapply execute_failure; [eassumption | eassumption | reflexivity].
      * exfalso. exact (Hfail _ _ _ _ _ _ (Map_get_In _ _ Hget) Hrun).
    + eexists _, _. eapply execute_success; eassumption.
  - eexists _, _. apply execute_unknown; assumption.
Qed.

(** What [ToolExecutor.execute] does with a call, whatever the registry
    and the world: the statement of C5 with the one case in which
    [execute] raises told apart.  For a name that is not
    registered it resolves, without touching the world, to a result with
    [is_error = true] and the message ["Unknown tool: "] followed by the
    name.  For a registered name it runs the tool registered under it, on
    the call's input: when the tool resolves, the result is its output
    with the [is_error] field absent; when the tool throws an [Error], or
    another value that converts to a string, the failure is caught and the
    result has [is_error = true] and ["Error: "] followed by the message
    of the error or by that string; when the tool throws a value whose
    conversion to a string throws, [execute] rejects with what the
    conversion throws.  Every result carries the identifier of the call,
    and every name is registered or not. *)
Theorem execute_outcomes tools call w :
  (~ In (ToolCall.name call) (ToolExecutor.getToolNames tools) ->
   ToolExecutor.execute tools call w
   = (w, inr (ToolResult.mk (ToolCall.id call)
                            ("Unknown tool: " ++ ToolCall.name call) (Some true))))
  /\ (forall tool,
        registered tools (ToolCall.name call) tool ->
        match Tool.execute tool (ToolCall.input call) w with
        | (w1, inr output) =>
            ToolExecutor.execute tools call w
            = (w1, inr (ToolResult.mk (ToolCall.id call) output None))
        | (w1, inl (JS.ErrorObject _ message)) =>
            ToolExecutor.execute tools call w
            = (w1, inr (ToolResult.mk (ToolCall.id call) ("Error: " ++ message) (Some true)))
        | (w1, inl (JS.OtherValue rendered)) =>
            ToolExecutor.execute tools call w
            = (w1, inr (ToolResult.mk (ToolCall.id call) ("Error: " ++ rendered) (Some true)))
        | (w1, inl (JS.Unconvertible raised)) =>
            ToolExecutor.execute tools call w = (w1, inl raised)
        end)
  /\ (In (ToolCall.name call) (ToolExecutor.getToolNames tools) ->
      exists tool, registered tools (ToolCall.name call) tool).
Proof.
  split; [|split].
  - intros Hnot. apply execute_unknown. now apply Map_get_None.
  - intros tool Hreg. apply registered_get in Hreg.
    destruct (Tool.execute tool (ToolCall.input call) w) as [w1 [err|output]] eqn:Hrun.
    + destruct err as [name message|rendered|raised].
      * eapply execute_failure; [eassumption | eassumption | reflexivity].
      * eapply execute_failure; [eassumption | eassumption | reflexivity].
      * eapply execute_rejection; [eassumption | eassumption | reflexivity].
    + eapply execute_success; eassumption.
  - intros Hin.
    destruct (ToolExecutor.Map_get (ToolCall.name call) tools) as [tool|] eqn:Hget.
    + exists tool. now apply registered_get.
    + apply Map_get_None in Hget. contradiction.
Qed.

(** [register]: the last registration under a name wins. *)
Lemma register_get tools (tool : Tool.t World) :
  ToolExecutor.Map_get (ToolDefinition.name (Tool.definition tool))
                       (ToolExecutor.register tool tools) = Some tool.
Proof.
  unfold ToolExecutor.register.
  generalize (ToolDefinition.name (Tool.definition tool)) as key. intros key.
  induction tools as [|[k v] rest IH]; simpl.
  - now rewrite String.eqb_refl.
  - destruct (String.eqb k key) eqn:E; simpl; rewrite E; [reflexivity | exact IH].
Qed.

End DispatcherFacts.

(** The specification's scenario: a call of [missing_tool] on an empty registry. *)
Example execute_missing_tool :
  ToolExecutor.execute (ToolExecutor.empty unit)
                       (ToolCall.mk "toolu_1" "missing_tool" (Some [])) tt
  = (tt, inr (ToolResult.mk "toolu_1" "Unknown tool: missing_tool" (Some true))).
Proof. reflexivity. Qed.

(** The four results of [execute], on a registry of six tools: an output,
    the message of an [Error], a thrown string, and an unknown name. *)
Example execute_on_stub_registry :
  ToolExecutor.getToolNames Stub.fragile
  = ["echo"; "note"; "notes"; "broken"; "opaque"; "shouting"]
  /\ ToolExecutor.execute Stub.fragile
       (ToolCall.mk "toolu_1" "echo" (Some [("msg", JS.JString "hi")])) []
     = ([], inr (ToolResult.mk "toolu_1" "hi" None))
  /\ ToolExecutor.execute Stub.fragile (ToolCall.mk "toolu_2" "broken" (Some [])) []
     = ([], inr (ToolResult.mk "toolu_2" "Error: boom" (Some true)))
  /\ ToolExecutor.execute Stub.fragile (ToolCall.mk "toolu_3" "shouting" (Some [])) []
     = ([], inr (ToolResult.mk "toolu_3" "Error: no such file" (Some true)))
  /\ ToolExecutor.execute Stub.fragile (ToolCall.mk "toolu_4" "missing_tool" (Some [])) []
     = ([], inr (ToolResult.mk "toolu_4" "Unknown tool: missing_tool" (Some true))).
Proof. repeat split. Qed.

(** C5 on the code.  [execute] is to turn every failure of a tool into a
    result with [is_error = true] and never to raise, and its [catch]
    takes the message from [String(err)] when the failure is not an
    [Error].  For a failure that has no string that conversion throws
    inside the handler: the registered tool [opaque] runs, rejects with
    [Object.create(null)], and [execute] rejects with the [TypeError] of
    the conversion instead of returning an error result. *)
Lemma execute_rejects_on_failure_without_string :
  registered Stub.fragile "opaque" Stub.opaque
  /\ Tool.execute Stub.opaque (Some []) []
     = (["opaque ran"],
        inl (JS.Unconvertible
               (JS.ErrorObject "TypeError" "Cannot convert object to primitive value")))
  /\ ToolExecutor.execute Stub.fragile (ToolCall.mk "toolu_1" "opaque" (Some [])) []
     = (["opaque ran"],
        inl (JS.ErrorObject "TypeError" "Cannot convert object to primitive value")).
Proof.
  split; [|split; reflexivity].
  exists [("echo", Stub.echo); ("note", Stub.note); ("notes", Stub.notes);
          ("broken", Stub.broken)], [("shouting", Stub.shouting)].
  split; [reflexivity|]. cbn. intros H.
  repeat (destruct H as [H|H]; [discriminate H|]). exact H.
Qed.

(* ================================================================== *)
(** * The provider adapters *)
(* ================================================================== *)

Section AdapterFacts.
Context {World : Type}.
Variable host : Host.t World.

Lemma read_json_ok (vendor : string) (D : Type) (res : Http.Response D) (data : D) (w : World) :
  Http.ok res = true -> Http.json res = inr data ->
  Adapter.read_json vendor res w = (w, inr data).
Proof.
  intros Hok Hjson. unfold Adapter.read_json. rewrite Hok, Hjson. reflexivity.
Qed.

Lemma read_json_not_ok (vendor : string) (D : Type) (res : Http.Response D) (w : World) :
  Http.ok res = false ->
  Adapter.read_json vendor res w = (w, inl (status_failure vendor res)).
Proof.
  intros Hok. unfold Adapter.read_json, status_failure. rewrite Hok. cbn [negb].
  destruct (Http.text res); reflexivity.
Qed.

(** The Anthropic adapter hands the vendor's [stop_reason] on as it is. *)
Lemma anthropic_stopReason_is_stop_reason apiKey model sys msgs tools w w' response :
  Adapter.Anthropic_completeWithTools host apiKey model sys msgs tools w = (w', inr response) ->
  exists res data w1,
    Host.fetch_anthropic host
      (Http.mk_request Adapter.anthropic_url (Adapter.anthropic_headers apiKey)
         (Http.anthropic_body model 4096 sys
            (map (fun m => LLMMessage.mk (LLMMessage.role m) (LLMMessage.content m)) msgs)
            (Adapter.tools_field tools))) w = (w1, inr res)
    /\ Http.json res = inr data
    /\ LLMToolResponse.stopReason response = AnthropicWire.stop_reason data.
Proof.
  unfold Adapter.Anthropic_completeWithTools, IO.bind.
  destruct (Host.fetch_anthropic host _ w) as [w1 [err|res]]; [discriminate|].
  unfold Adapter.read_json.
  destruct (Http.ok res); cbn [negb]; [|destruct (Http.text res); discriminate].
  destruct (Http.json res) as [err|data] eqn:Hjson; [discriminate|].
  unfold IO.ret. intros [= <- <-].
  exists res, data, w1. repeat split. exact Hjson.
Qed.

(** The OpenAI adapter: the stop reason is one of the three literals. *)
Lemma openai_stopReason_closed finish_reason message :
  is_stop_reason (Adapter.openai_stopReason finish_reason message) = true.
Proof.
  unfold Adapter.openai_stopReason.
  destruct (String.eqb finish_reason "tool_calls" || _);
    [reflexivity|].
  destruct (String.eqb finish_reason "length"); reflexivity.
Qed.

(** The OpenAI adapter: pending tool calls give [tool_use] whatever the
    finish reason. *)
Lemma openai_tool_calls_tool_use finish_reason content calls :
  Adapter.openai_stopReason finish_reason (OpenAIWire.mk_message content (Some calls))
  = "tool_use".
Proof.
  unfold Adapter.openai_stopReason. cbn. rewrite orb_true_r. reflexivity.
Qed.

(** The OpenAI adapter: ["length"] without tool calls gives [max_tokens]. *)
Lemma openai_length_max_tokens content :
  Adapter.openai_stopReason "length" (OpenAIWire.mk_message content None) = "max_tokens".
Proof. reflexivity. Qed.

Lemma openai_parse_stopReason model data response :
  Adapter.openai_parse host model data = inr response ->
  is_stop_reason (LLMToolResponse.stopReason response) = true.
Proof.
  unfold Adapter.openai_parse.
  destruct (Adapter.openai_choices data) as [err|[|choice ?]]; [discriminate..|].
  destruct (OpenAIWire.message choice) as [message|]; [|discriminate].
  destruct (match OpenAIWire.tool_calls message with
            | Some calls => Adapter.openai_tool_uses host calls
            | None => inr []
            end); [discriminate|].
  intros [= <-]. apply openai_stopReason_closed.
Qed.

End AdapterFacts.

Section GoogleFacts.
Context {World : Type}.
Variable host : Host.t World.

(** The Gemini adapter reports [tool_use] exactly when it produced a
    [tool_use] block, and [end_turn] otherwise; [finishReason] is not
    read. *)
Lemma google_stopReason apiKey model sys msgs tools w w' response :
  Adapter.Google_completeWithTools host apiKey model sys msgs tools w = (w', inr response) ->
  LLMToolResponse.stopReason response
  = (if existsb is_tool_use (LLMToolResponse.content response) then "tool_use" else "end_turn").
Proof.
  unfold Adapter.Google_completeWithTools, IO.bind.
  destruct (Host.fetch_google host _ w) as [w1 [err|res]]; [discriminate|].
  destruct (Adapter.read_json "Google" res w1) as [w2 [err|data]]; [discriminate|].
  destruct (Adapter.google_candidates data) as [err|candidates]; [discriminate|].
  destruct (Adapter.google_blocks host _ w2) as [w3 [err|blocks]]; [discriminate|].
  unfold IO.ret. intros [= <- <-]. reflexivity.
Qed.

Lemma google_stopReason_closed apiKey model sys msgs tools w w' response :
  Adapter.Google_completeWithTools host apiKey model sys msgs tools w = (w', inr response) ->
  is_stop_reason (LLMToolResponse.stopReason response) = true.
Proof.
  intros H. rewrite (google_stopReason _ _ _ _ _ _ H).
  destruct (existsb is_tool_use _); reflexivity.
Qed.

Lemma openai_completeWithTools_closed apiKey model sys msgs tools w w' response :
  Adapter.OpenAI_completeWithTools host apiKey model sys msgs tools w = (w', inr response) ->
  is_stop_reason (LLMToolResponse.stopReason response) = true.
Proof.
  unfold Adapter.OpenAI_completeWithTools, IO.bind.
  destruct (Host.fetch_openai host _ w) as [w1 [err|res]]; [discriminate|].
  destruct (Adapter.read_json "OpenAI" res w1) as [w2 [err|data]]; [discriminate|].
  destruct (Adapter.openai_parse host model data) as [err|r] eqn:Hparse;
    [discriminate|].
  unfold IO.ret. intros [= <- <-]. eapply openai_parse_stopReason, Hparse.
Qed.

(** The placeholder adapter: one fixed text block and [end_turn], the
    world left as it was, whatever the arguments. *)
Lemma placeholder_completeWithTools sys msgs tools (w : World) :
  Adapter.Placeholder_completeWithTools sys msgs tools w
  = (w, inr (LLMToolResponse.mk [text_block Adapter.placeholder_text] "end_turn"
                                "placeholder" "none" None)).
Proof. reflexivity. Qed.

End GoogleFacts.

(** C6.  The stop reason is meant to lie in [end_turn], [tool_use],
    [max_tokens], and pending tool calls are meant to give [tool_use].
    The OpenAI and Gemini adapters do so
    ([openai_completeWithTools_closed], [openai_tool_calls_tool_use],
    [openai_length_max_tokens], [google_stopReason_closed]).  The
    Anthropic adapter does not: it casts the vendor's [stop_reason]
    without looking at it.  On an answer the vendor labels ["refusal"] it
    returns ["refusal"], outside the three literals; on an answer
    cut at the token limit after a [tool_use] block it returns
    ["max_tokens"] although a tool call is pending. *)
Theorem anthropic_stop_reason_not_normalised :
  let ask data :=
    Adapter.Anthropic_completeWithTools
      (Stub.host data Stub.no_openai Stub.no_google)
      "sk-key" "claude" "You are a test agent."
      [LLMMessage.mk user (content_string "Say hello.")] [] [] in
  (snd (ask (AnthropicWire.mk [AnthropicWire.text "I cannot."] "refusal" None))
   = inr (LLMToolResponse.mk [text_block "I cannot."] "refusal" "anthropic" "claude" None)
   /\ is_stop_reason "refusal" = false)
  /\ snd (ask (AnthropicWire.mk [AnthropicWire.tool_use "toolu_1" "bash" (Some [])]
                                "max_tokens" None))
     = inr (LLMToolResponse.mk [tool_use_block "toolu_1" "bash" (Some [])] "max_tokens"
                               "anthropic" "claude" None).
Proof.
  cbv zeta. split; [split|]; reflexivity.
Qed.

Section FactoryFacts.
Context {World : Type}.
Variable host : Host.t World.

(** C8.  With no API key ([apiKey] is the empty string) the factory
    returns the placeholder adapter, whatever the provider name, and does
    not throw.  The placeholder's [completeWithTools] resolves, for every
    input and every world, to one fixed text block with stop reason
    [end_turn], and leaves the world as it found it: the result does not
    depend on the host's [fetch], so no endpoint is called. *)
Theorem no_api_key_gives_placeholder (provider model : string) :
  Adapter.createLLMAdapter host provider "" model
  = inr (Adapter.adapter (Adapter.PlaceholderAdapter World "placeholder" "" "none"))
  /\ forall sys msgs tools (w : World),
       Adapter.completeWithTools
         (Adapter.PlaceholderAdapter World "placeholder" "" "none") sys msgs tools w
       = (w, inr (LLMToolResponse.mk
                    [text_block "[LLM response placeholder -- configure LLM_API_KEY to enable]"]
                    "end_turn" "placeholder" "none" None)).
Proof.
  split; [reflexivity|]. intros. reflexivity.
Qed.

(** An unknown provider name also gives the placeholder. *)
Lemma unknown_provider_gives_placeholder (provider apiKey model : string) :
  Adapter.PROVIDERS host (Host.toLowerCase host provider) = Adapter.undefined World ->
  Adapter.createLLMAdapter host provider apiKey model
  = inr (Adapter.adapter (Adapter.PlaceholderAdapter World "placeholder" "" "none")).
Proof.
  intros H. unfold Adapter.createLLMAdapter. rewrite H.
  destruct (negb (JS.truthy apiKey)); reflexivity.
Qed.

(** X17.  Every adapter the factory builds, the Anthropic one apart,
    returns a stop reason among the three literals. *)
Lemma created_adapter_stop_reason (provider apiKey model : string)
    (a : Adapter.LLMAdapter World) sys msgs tools (w w' : World) response :
  Adapter.createLLMAdapter host provider apiKey model = inr (Adapter.adapter a) ->
  Host.toLowerCase host provider <> "anthropic" ->
  Adapter.completeWithTools a sys msgs tools w = (w', inr response) ->
  is_stop_reason (LLMToolResponse.stopReason response) = true.
Proof.
  unfold Adapter.createLLMAdapter, Adapter.PROVIDERS. intros Hcreate Hprovider.
  destruct (negb (JS.truthy apiKey)).
  { injection Hcreate as <-. cbn. now intros [= <- <-]. }
  destruct (String.eqb_spec (Host.toLowerCase host provider) "anthropic") as [|_]; [contradiction|].
  destruct (String.eqb (Host.toLowerCase host provider) "openai").
  { injection Hcreate as <-. apply openai_completeWithTools_closed. }
  destruct (String.eqb (Host.toLowerCase host provider) "google").
  { injection Hcreate as <-. apply google_stopReason_closed. }
  destruct (String.eqb (Host.toLowerCase host provider) "constructor"); [discriminate|].
  destruct (String.eqb (Host.toLowerCase host provider) "__proto__"); [discriminate|].
  injection Hcreate as <-. cbn. now intros [= <- <-].
Qed.

End FactoryFacts.

(** With a host that records every request: the placeholder sends none,
    the OpenAI adapter sends one. *)
Example placeholder_sends_no_request :
  match Adapter.createLLMAdapter (Stub.host Stub.no_anthropic Stub.no_openai Stub.no_google)
          "openai" "" "gpt-4o" with
  | inr (Adapter.adapter a) =>
      fst (Adapter.completeWithTools a "system"
             [LLMMessage.mk user (content_string "task")] [] [])
  | _ => [Http.mk_request "unreachable" [] (Http.openai_body "" [] 0 None)]
  end = [].
Proof. reflexivity. Qed.

Example openai_sends_one_request :
  match Adapter.createLLMAdapter (Stub.host Stub.no_anthropic Stub.no_openai Stub.no_google)
          "OpenAI" "sk-key" "gpt-4o" with
  | inr (Adapter.adapter a) =>
      map Http.url (fst (Adapter.completeWithTools a "system"
                           [LLMMessage.mk user (content_string "task")] [] []))
  | _ => []
  end = ["https://api.openai.com/v1/chat/completions"].
Proof. reflexivity. Qed.

(* ================================================================== *)
(** * [complete] on answers with missing fields *)
(* ================================================================== *)

Section CompleteFacts.
Context {World : Type}.
Variable host : Host.t World.

Lemma openai_fields_missing_content (data : OpenAIWire.data) :
  openai_fields_missing data ->
  exists choices,
    Adapter.openai_choices data = inr choices /\ Adapter.openai_first_content choices = "".
Proof.
  unfold openai_fields_missing, Adapter.openai_choices, Adapter.openai_first_content.
  destruct (OpenAIWire.choices data) as [[|choice ?]|]; [| |intros []].
  - intros _. now exists [].
  - intros Hmiss. eexists. split; [reflexivity|]. cbn.
    destruct (OpenAIWire.message choice) as [message|]; [|reflexivity].
    now rewrite Hmiss.
Qed.

Lemma google_fields_missing_parts (data : GoogleWire.data) :
  google_fields_missing data ->
  exists candidates,
    Adapter.google_candidates data = inr candidates
    /\ Adapter.google_first_parts candidates = None.
Proof.
  unfold google_fields_missing, Adapter.google_candidates, Adapter.google_first_parts.
  destruct (GoogleWire.candidates data) as [[|candidate ?]|]; [| |intros []].
  - intros _. now exists [].
  - intros Hmiss. eexists. split; [reflexivity|]. cbn.
    destruct (GoogleWire.content candidate) as [content|]; [|reflexivity].
    exact Hmiss.
Qed.

(** [complete] after a successful status and a parsed body. *)
Lemma OpenAI_complete_ok apiKey model sys prompt w w1 res data :
  Host.fetch_openai host (openai_complete_request apiKey model sys prompt) w = (w1, inr res) ->
  Http.ok res = true -> Http.json res = inr data ->
  Adapter.OpenAI_complete host apiKey model sys prompt w
  = (w1, match Adapter.openai_choices data with
         | inl err => inl err
         | inr choices =>
             inr (LLMResponse.mk (Adapter.openai_first_content choices) "openai" model
                                 (OpenAIWire.usage_total_tokens data))
         end).
Proof.
  intros Hfetch Hok Hjson. unfold Adapter.OpenAI_complete, IO.bind.
  fold (openai_complete_request apiKey model sys prompt). rewrite Hfetch.
  rewrite (read_json_ok _ _ _ Hok Hjson).
  destruct (Adapter.openai_choices data); reflexivity.
Qed.

Lemma Google_complete_ok apiKey model sys prompt w w1 res data :
  Host.fetch_google host (google_complete_request apiKey model sys prompt) w = (w1, inr res) ->
  Http.ok res = true -> Http.json res = inr data ->
  Adapter.Google_complete host apiKey model sys prompt w
  = (w1, match Adapter.google_candidates data with
         | inl err => inl err
         | inr candidates =>
             inr (LLMResponse.mk
                    (match Adapter.google_first_parts candidates with
                     | Some parts => JS.join "" (map Adapter.google_part_text parts)
                     | None => ""
                     end)
                    "google" model (GoogleWire.usageMetadata_totalTokenCount data))
         end).
Proof.
  intros Hfetch Hok Hjson. unfold Adapter.Google_complete, IO.bind.
  fold (google_complete_request apiKey model sys prompt). rewrite Hfetch.
  rewrite (read_json_ok _ _ _ Hok Hjson).
  destruct (Adapter.google_candidates data); reflexivity.
Qed.

(** A body that is not JSON makes [complete] reject with the parser's
    error. *)
Lemma read_json_unparsed (vendor : string) (D : Type) (res : Http.Response D) err (w : World) :
  Http.ok res = true -> Http.json res = inl err ->
  Adapter.read_json vendor res w = (w, inl err).
Proof.
  intros Hok Hjson. unfold Adapter.read_json. rewrite Hok, Hjson. reflexivity.
Qed.

Lemma OpenAI_complete_unparsed apiKey model sys prompt w w1 res err :
  Host.fetch_openai host (openai_complete_request apiKey model sys prompt) w = (w1, inr res) ->
  Http.ok res = true -> Http.json res = inl err ->
  Adapter.OpenAI_complete host apiKey model sys prompt w = (w1, inl err).
Proof.
  intros Hfetch Hok Hjson. unfold Adapter.OpenAI_complete, IO.bind.
  fold (openai_complete_request apiKey model sys prompt). rewrite Hfetch.
  rewrite (@read_json_unparsed _ _ _ _ _ Hok Hjson). reflexivity.
Qed.

Lemma Google_complete_unparsed apiKey model sys prompt w w1 res err :
  Host.fetch_google host (google_complete_request apiKey model sys prompt) w = (w1, inr res) ->
  Http.ok res = true -> Http.json res = inl err ->
  Adapter.Google_complete host apiKey model sys prompt w = (w1, inl err).
Proof.
  intros Hfetch Hok Hjson. unfold Adapter.Google_complete, IO.bind.
  fold (google_complete_request apiKey model sys prompt). rewrite Hfetch.
  rewrite (@read_json_unparsed _ _ _ _ _ Hok Hjson). reflexivity.
Qed.

(** A non-success status makes [complete] reject with an [Error] that
    carries the status code and the body, or with what reading the body
    rejects with. *)
Lemma OpenAI_complete_not_ok apiKey model sys prompt w w1 res :
  Host.fetch_openai host (openai_complete_request apiKey model sys prompt) w = (w1, inr res) ->
  Http.ok res = false ->
  Adapter.OpenAI_complete host apiKey model sys prompt w
  = (w1, inl (status_failure "OpenAI" res)).
Proof.
  intros Hfetch Hok. unfold Adapter.OpenAI_complete, IO.bind.
  fold (openai_complete_request apiKey model sys prompt). rewrite Hfetch.
  rewrite (read_json_not_ok _ _ _ Hok). reflexivity.
Qed.

Lemma Google_complete_not_ok apiKey model sys prompt w w1 res :
  Host.fetch_google host (google_complete_request apiKey model sys prompt) w = (w1, inr res) ->
  Http.ok res = false ->
  Adapter.Google_complete host apiKey model sys prompt w
  = (w1, inl (status_failure "Google" res)).
Proof.
  intros Hfetch Hok. unfold Adapter.Google_complete, IO.bind.
  fold (google_complete_request apiKey model sys prompt). rewrite Hfetch.
  rewrite (read_json_not_ok _ _ _ Hok). reflexivity.
Qed.

End CompleteFacts.

(** C7, as the code has it.  What the OpenAI and Gemini [complete] do
    with a response that lacks what they expect.  When the status is a
    success and the body has a [choices] (or [candidates]) array in which
    the expected fields are missing (no first element, or a first one
    without [message] / [content] / [parts]) they do not reject: they
    resolve to a completion whose content is the empty string.  When the
    array itself is absent they reject with the [TypeError] of reading its
    first element; when the body is not JSON, with the parser's error.
    When the status is not a success they reject with an [Error] that
    carries the vendor, the status code and the body, or, if the body
    cannot be read, with what reading it rejects with. *)
Theorem complete_missing_fields_give_empty_completion
    (World : Type) (host : Host.t World) (apiKey model sys prompt : string) (w w1 : World) :
  (forall res data,
      Host.fetch_openai host (openai_complete_request apiKey model sys prompt) w = (w1, inr res) ->
      Http.ok res = true -> Http.json res = inr data ->
      (openai_fields_missing data ->
       Adapter.OpenAI_complete host apiKey model sys prompt w
       = (w1, inr (LLMResponse.mk "" "openai" model (OpenAIWire.usage_total_tokens data))))
      /\ (OpenAIWire.choices data = None ->
          Adapter.OpenAI_complete host apiKey model sys prompt w = (w1, inl no_first_element)))
  /\ (forall res data,
      Host.fetch_google host (google_complete_request apiKey model sys prompt) w = (w1, inr res) ->
      Http.ok res = true -> Http.json res = inr data ->
      (google_fields_missing data ->
       Adapter.Google_complete host apiKey model sys prompt w
       = (w1, inr (LLMResponse.mk "" "google" model
                                  (GoogleWire.usageMetadata_totalTokenCount data))))
      /\ (GoogleWire.candidates data = None ->
          Adapter.Google_complete host apiKey model sys prompt w = (w1, inl no_first_element)))
  /\ (forall res err,
      Host.fetch_openai host (openai_complete_request apiKey model sys prompt) w = (w1, inr res) ->
      Http.ok res = true -> Http.json res = inl err ->
      Adapter.OpenAI_complete host apiKey model sys prompt w = (w1, inl err))
  /\ (forall res err,
      Host.fetch_google host (google_complete_request apiKey model sys prompt) w = (w1, inr res) ->
      Http.ok res = true -> Http.json res = inl err ->
      Adapter.Google_complete host apiKey model sys prompt w = (w1, inl err))
  /\ (forall res,
      Host.fetch_openai host (openai_complete_request apiKey model sys prompt) w = (w1, inr res) ->
      Http.ok res = false ->
      Adapter.OpenAI_complete host apiKey model sys prompt w
      = (w1, inl match Http.text res with
                 | inl err => err
                 | inr text =>
                     JS.ErrorObject "Error"
                       ("OpenAI API error " ++ Adapter.status_string (Http.status res)
                          ++ ": " ++ text)
                 end))
  /\ (forall res,
      Host.fetch_google host (google_complete_request apiKey model sys prompt) w = (w1, inr res) ->
      Http.ok res = false ->
      Adapter.Google_complete host apiKey model sys prompt w
      = (w1, inl match Http.text res with
                 | inl err => err
                 | inr text =>
                     JS.ErrorObject "Error"
                       ("Google API error " ++ Adapter.status_string (Http.status res)
                          ++ ": " ++ text)
                 end)).
Proof.
  split; [|split; [|split; [|split; [|split]]]].
  - intros res data Hfetch Hok Hjson.
    rewrite (OpenAI_complete_ok _ _ _ _ _ _ Hfetch Hok Hjson). split.
    + intros Hmiss.
      destruct (openai_fields_missing_content _ Hmiss) as (choices & -> & ->). reflexivity.
    + intros Hnone. unfold Adapter.openai_choices. rewrite Hnone. reflexivity.
  - intros res data Hfetch Hok Hjson.
    rewrite (Google_complete_ok _ _ _ _ _ _ Hfetch Hok Hjson). split.
    + intros Hmiss.
      destruct (google_fields_missing_parts _ Hmiss) as (candidates & -> & ->). reflexivity.
    + intros Hnone. unfold Adapter.google_candidates. rewrite Hnone. reflexivity.
  - intros res err Hfetch Hok Hjson. eapply OpenAI_complete_unparsed; eassumption.
  - intros res err Hfetch Hok Hjson. eapply Google_complete_unparsed; eassumption.
  - intros res Hfetch Hok. now apply OpenAI_complete_not_ok.
  - intros res Hfetch Hok. now apply Google_complete_not_ok.
Qed.

(** C7 fails as stated: OpenAI answers [200 OK] with an empty [choices]
    array, a response without the expected completion, and [complete]
    resolves to the empty string instead of rejecting. *)
Lemma openai_complete_without_choices_is_empty :
  openai_fields_missing (OpenAIWire.mk (Some []) None)
  /\ Adapter.OpenAI_complete
       (Stub.host Stub.no_anthropic (OpenAIWire.mk (Some []) None) Stub.no_google)
       "sk-key" "gpt-4o" "You are a test agent." "Say hello." []
     = ([openai_complete_request "sk-key" "gpt-4o" "You are a test agent." "Say hello."],
        inr (LLMResponse.mk "" "openai" "gpt-4o" None)).
Proof. split; [exact I | reflexivity]. Qed.

(** The same for Gemini, on a candidate that has no [content]. *)
Example google_complete_without_content_is_empty :
  snd (Adapter.Google_complete
         (Stub.host Stub.no_anthropic Stub.no_openai
            (GoogleWire.mk (Some [GoogleWire.mk_candidate None "SAFETY"]) None))
         "key" "gemini-pro" "You are a test agent." "Say hello." [])
  = inr (LLMResponse.mk "" "google" "gemini-pro" None).
Proof. reflexivity. Qed.

(** A body that is an object without the array, as an error object
    answered under [200 OK]: [complete] rejects, with a [TypeError] that
    says nothing of the response. *)
Example google_complete_without_candidates_rejects :
  snd (Adapter.Google_complete
         (Stub.host Stub.no_anthropic Stub.no_openai (GoogleWire.mk None None))
         "key" "gemini-pro" "You are a test agent." "Say hello." [])
  = inl (JS.ErrorObject "TypeError" "Cannot read properties of undefined (reading '0')").
Proof. reflexivity. Qed.

(** On the stubs: a first choice without [message], a body without
    [choices], and an overloaded endpoint. *)
Lemma complete_missing_fields_witness :
  Adapter.OpenAI_complete
    (Stub.host Stub.no_anthropic
               (OpenAIWire.mk (Some [OpenAIWire.mk_choice None "stop"]) (Some 7%Z))
               Stub.no_google)
    "sk-key" "gpt-4o" "system" "task" []
  = ([openai_complete_request "sk-key" "gpt-4o" "system" "task"],
     inr (LLMResponse.mk "" "openai" "gpt-4o" (Some 7%Z)))
  /\ Adapter.OpenAI_complete
       (Stub.host Stub.no_anthropic (OpenAIWire.mk None None) Stub.no_google)
       "sk-key" "gpt-4o" "system" "task" []
     = ([openai_complete_request "sk-key" "gpt-4o" "system" "task"],
        inl (JS.ErrorObject "TypeError" "Cannot read properties of undefined (reading '0')"))
  /\ Adapter.Google_complete
       (Host.mk (Stub.answering Stub.no_anthropic) (Stub.answering Stub.no_openai)
                (Stub.refusing GoogleWire.data 503 "overloaded")
                (fun _ => inr []) (fun _ => "{}") (fun log => (log, inr "id"))
                JS.ascii_toLowerCase)
       "key" "gemini-pro" "system" "task" []
     = ([google_complete_request "key" "gemini-pro" "system" "task"],
        inl (JS.ErrorObject "Error" "Google API error 503: overloaded")).
Proof.
  split; [|split].
  - apply (proj1 (proj1 (complete_missing_fields_give_empty_completion
                    (Stub.host Stub.no_anthropic
                       (OpenAIWire.mk (Some [OpenAIWire.mk_choice None "stop"]) (Some 7%Z))
                       Stub.no_google)
                    "sk-key" "gpt-4o" "system" "task" []
                    [openai_complete_request "sk-key" "gpt-4o" "system" "task"])
                 (Http.mk_response true 200 (inr "")
                    (inr (OpenAIWire.mk (Some [OpenAIWire.mk_choice None "stop"]) (Some 7%Z))))
                 (OpenAIWire.mk (Some [OpenAIWire.mk_choice None "stop"]) (Some 7%Z))
                 eq_refl eq_refl eq_refl)).
    exact I.
  - apply (proj2 (proj1 (complete_missing_fields_give_empty_completion
                    (Stub.host Stub.no_anthropic (OpenAIWire.mk None None) Stub.no_google)
                    "sk-key" "gpt-4o" "system" "task" []
                    [openai_complete_request "sk-key" "gpt-4o" "system" "task"])
                 (Http.mk_response true 200 (inr "") (inr (OpenAIWire.mk None None)))
                 (OpenAIWire.mk None None)
                 eq_refl eq_refl eq_refl)).
    reflexivity.
  - apply (proj2 (proj2 (proj2 (proj2 (proj2 (complete_missing_fields_give_empty_completion
                    (Host.mk (Stub.answering Stub.no_anthropic) (Stub.answering Stub.no_openai)
                       (Stub.refusing GoogleWire.data 503 "overloaded")
                       (fun _ => inr []) (fun _ => "{}") (fun log => (log, inr "id"))
                       JS.ascii_toLowerCase)
                    "key" "gemini-pro" "system" "task" []
                    [google_complete_request "key" "gemini-pro" "system" "task"])))))
                 (Http.mk_response false 503 (inr "overloaded")
                    (inl (JS.ErrorObject "SyntaxError" "Unexpected token")))).
    + reflexivity.
    + reflexivity.
Defined.

(* ================================================================== *)
(** * [Array.prototype.sort] *)
(* ================================================================== *)

Section SortFacts.
Variable A : Type.
Variable cmp : A -> A -> Z.
(** [before a b]: [a] may stand before [b]. *)
Variable before : A -> A -> Prop.
Hypothesis cmp_le : forall x y, (cmp x y <= 0)%Z -> before x y.
Hypothesis cmp_gt : forall x y, (0 < cmp x y)%Z -> before y x.

Lemma sort_insert_perm (x : A) (l : list A) :
  Permutation (x :: l) (JS.sort_insert cmp x l).
Proof.
  induction l as [|y l IH]; simpl; [reflexivity|].
  destruct (cmp x y <=? 0)%Z; [reflexivity|].
  rewrite perm_swap. now constructor.
Qed.

Lemma sort_perm (l : list A) : Permutation l (JS.sort cmp l).
Proof.
  induction l as [|x l IH]; simpl; [constructor|].
  etransitivity; [|apply sort_insert_perm]. now constructor.
Qed.

Lemma sort_insert_hd (x y : A) (l : list A) :
  before y x -> HdRel before y l -> HdRel before y (JS.sort_insert cmp x l).
Proof.
  intros Hyx Hhd. destruct l as [|z l]; simpl; [now constructor|].
  inversion_clear Hhd. destruct (cmp x z <=? 0)%Z; now constructor.
Qed.

Lemma sort_insert_sorted (x : A) (l : list A) :
  Sorted before l -> Sorted before (JS.sort_insert cmp x l).
Proof.
  induction 1 as [|y l Hsorted IH Hhd]; simpl.
  - repeat constructor.
  - destruct (Z.leb_spec (cmp x y) 0) as [Hle|Hgt].
    + constructor; [now constructor|]. constructor. now apply cmp_le.
    + constructor; [exact IH|]. apply sort_insert_hd; [now apply cmp_gt | exact Hhd].
Qed.

Lemma sort_sorted (l : list A) : Sorted before (JS.sort cmp l).
Proof.
  induction l as [|x l IH]; simpl; [constructor|].
  now apply sort_insert_sorted.
Qed.

Lemma firstn_incl (n : nat) (l : list A) (x : A) :
  In x (firstn n l) -> In x l.
Proof.
  intros Hin. rewrite <- (firstn_skipn n l). apply in_or_app. now left.
Qed.

Lemma firstn_sorted (n : nat) (l : list A) :
  Sorted before l -> Sorted before (firstn n l).
Proof.
  intros Hs. revert n. induction Hs as [|x l Hs IH Hhd]; intros [|n]; simpl;
    try constructor.
  - apply IH.
  - destruct Hhd; destruct n; simpl; constructor. assumption.
Qed.

End SortFacts.

(* ================================================================== *)
(** * Skill selection *)
(* ================================================================== *)

Section SkillFacts.
Variable toLowerCase : string -> string.
Variable task : AvailableTask.t.

Local Abbreviation Skill := SkillLoader.RawSkill.
Local Abbreviation relevance := (SkillMatching.relevance toLowerCase task).

(** The callback of [map]: the skill with its score. *)
Let scored (skill : Skill) : JS.Thrown + (Skill * Z) :=
  match relevance skill with
  | inl err => inl err
  | inr score => inr (skill, score)
  end.

Lemma selectSkillsForTask_unfold (skills : list Skill) :
  SkillMatching.selectSkillsForTask toLowerCase skills task
  = match JS.map_or_throw scored (filter (SkillMatching.mission_matches task) skills) with
    | inl err => inl err
    | inr entries =>
        inr (map fst (firstn 2 (JS.sort SkillMatching.by_score_desc
                                  (filter (fun entry => (snd entry >? 0)%Z) entries))))
    end.
Proof.
  destruct skills; reflexivity.
Qed.

Lemma map_or_throw_ok (A B : Type) (f : A -> JS.Thrown + B) (xs : list A) (ys : list B) :
  JS.map_or_throw f xs = inr ys -> Forall2 (fun x y => f x = inr y) xs ys.
Proof.
  revert ys. induction xs as [|x xs IH]; cbn; intros ys.
  - intros [= <-]. constructor.
  - destruct (f x) as [err|y] eqn:Hx; [discriminate|].
    destruct (JS.map_or_throw f xs) as [err|ys']; [discriminate|].
    intros [= <-]. constructor; [exact Hx | now apply IH].
Qed.

Lemma map_or_throw_throws (A B : Type) (f : A -> JS.Thrown + B) (xs : list A) err :
  JS.map_or_throw f xs = inl err -> exists x, In x xs /\ f x = inl err.
Proof.
  induction xs as [|x xs IH]; cbn; [discriminate|].
  destruct (f x) as [err'|y] eqn:Hx.
  - intros [= <-]. exists x. now split; [left|].
  - destruct (JS.map_or_throw f xs) as [err'|ys']; [|discriminate].
    intros [= <-]. destruct (IH eq_refl) as (x' & Hin & Hx'). exists x'. now split; [right|].
Qed.

Lemma Forall2_In_r (A B : Type) (R : A -> B -> Prop) (xs : list A) (ys : list B) (y : B) :
  Forall2 R xs ys -> In y ys -> exists x, In x xs /\ R x y.
Proof.
  induction 1 as [|x y' xs ys HR _ IH]; [intros []|].
  intros [<-|Hin].
  - exists x. now split; [left|].
  - destruct (IH Hin) as (x' & Hin' & HR'). exists x'. now split; [right|].
Qed.

Lemma sorted_entries_spec (entries : list (Skill * Z)) (n : nat) (entry : Skill * Z) :
  In entry (firstn n (JS.sort SkillMatching.by_score_desc entries)) -> In entry entries.
Proof.
  intros Hin. apply firstn_incl in Hin.
  eapply Permutation_in; [symmetry; apply sort_perm | exact Hin].
Qed.

Lemma sorted_by_score (l : list (Skill * Z)) :
  Sorted (fun a b => (snd b <= snd a)%Z) (JS.sort SkillMatching.by_score_desc l).
Proof.
  apply sort_sorted; unfold SkillMatching.by_score_desc; intros x y H; lia.
Qed.

Lemma sorted_map_snd (l : list (Skill * Z)) :
  Sorted (fun a b => (snd b <= snd a)%Z) l -> non_increasing (map snd l).
Proof.
  unfold non_increasing. induction 1 as [|x l Hs IH Hhd]; simpl; constructor.
  - exact IH.
  - destruct Hhd; simpl; constructor. assumption.
Qed.

Lemma strict_equal_spec (value : SkillLoader.Value) (text : string) :
  SkillMatching.strict_equal value text = true <-> value = SkillLoader.scalar text.
Proof.
  destruct value as [|s|xs]; cbn.
  - split; discriminate.
  - rewrite String.eqb_eq. split; [now intros -> | now intros [= ->]].
  - split; discriminate.
Qed.

Lemma mission_matches_spec (skill : Skill) :
  SkillMatching.mission_matches task skill = true <-> of_mission task skill.
Proof.
  unfold SkillMatching.mission_matches, of_mission.
  now rewrite orb_true_iff, !strict_equal_spec.
Qed.

(** The scoring returns on a skill exactly when its three texts are
    strings, and throws a [TypeError] otherwise. *)
Lemma relevance_returns (skill : Skill) :
  texts_are_strings skill <-> exists score, relevance skill = inr score.
Proof.
  unfold texts_are_strings, SkillMatching.relevance, SkillMatching.score_of.
  destruct (SkillLoader.meta skill) as [name version category mission description tools].
  cbn [SkillLoader.name SkillLoader.category SkillLoader.description].
  split.
  - intros (n & c & d & -> & -> & ->). cbn. eauto.
  - destruct name as [|n|?]; cbn; try (intros [? H]; discriminate H).
    destruct category as [|c|?]; cbn; try (intros [? H]; discriminate H).
    destruct description as [|d|?]; cbn; try (intros [? H]; discriminate H).
    intros _. now exists n, c, d.
Qed.

Lemma relevance_throws (skill : Skill) err :
  relevance skill = inl err -> exists message, err = JS.ErrorObject "TypeError" message.
Proof.
  unfold SkillMatching.relevance, SkillMatching.score_of.
  destruct (SkillLoader.meta skill) as [name version category mission description tools].
  cbn [SkillLoader.name SkillLoader.category SkillLoader.description].
  destruct name as [|n|?]; cbn; try (intros [= <-]; eexists; reflexivity).
  destruct category as [|c|?]; cbn; try (intros [= <-]; eexists; reflexivity).
  destruct description as [|d|?]; cbn; try (intros [= <-]; eexists; reflexivity).
Qed.

(** What holds of a selection that was returned. *)
Lemma selected_spec (skills selected : list Skill) :
  SkillMatching.selectSkillsForTask toLowerCase skills task = inr selected ->
  length selected <= 2
  /\ Forall (fun skill =>
               In skill skills /\ of_mission task skill
               /\ exists score, scores toLowerCase task skill score /\ (0 < score)%Z)
            selected
  /\ exists ranks,
      Forall2 (scores toLowerCase task) selected ranks /\ non_increasing ranks.
Proof.
  rewrite selectSkillsForTask_unfold.
  destruct (JS.map_or_throw scored _) as [err|entries] eqn:Hmap; [discriminate|].
  set (top := firstn 2 (JS.sort SkillMatching.by_score_desc
                          (filter (fun entry => (snd entry >? 0)%Z) entries))).
  intros Hselected. assert (selected = map fst top) as -> by congruence. clear Hselected.
  apply map_or_throw_ok in Hmap.
  assert (Htop : forall entry, In entry top ->
            In (fst entry) skills /\ of_mission task (fst entry)
            /\ scores toLowerCase task (fst entry) (snd entry) /\ (0 < snd entry)%Z).
  { intros entry Hin. apply sorted_entries_spec in Hin. apply filter_In in Hin as [Hin Hpos].
    destruct (@Forall2_In_r _ _ _ _ _ _ Hmap Hin) as (skill & Hskill & Hscored).
    apply filter_In in Hskill as [Hskill Hmission].
    unfold scored in Hscored.
    destruct (relevance skill) as [err|score] eqn:Hrel; [discriminate|].
    injection Hscored as <-. cbn [fst snd] in *.
    repeat split; [assumption | now apply mission_matches_spec | exact Hrel
                   | now apply Z.gtb_lt]. }
  split; [|split].
  - rewrite length_map. apply firstn_le_length.
  - apply Forall_forall. intros skill Hin. apply in_map_iff in Hin as [entry [<- Hin]].
    destruct (Htop _ Hin) as (Hskill & Hmission & Hscore & Hpos).
    repeat split; [assumption | assumption | eauto].
  - exists (map snd top). split.
    + clearbody top. clear - Htop. induction top as [|entry top IH]; cbn; constructor.
      * apply Htop. now left.
      * apply IH. intros e He. apply Htop. now right.
    + apply sorted_map_snd, firstn_sorted, sorted_by_score.
Qed.

(** The selection returns when the scoring reads strings only. *)
Lemma selection_returns (skills : list SkillLoader.RawSkill) :
  (forall skill, In skill skills -> of_mission task skill -> texts_are_strings skill) ->
  exists selected, SkillMatching.selectSkillsForTask toLowerCase skills task = inr selected.
Proof.
  intros Hstrings.
  destruct (SkillMatching.selectSkillsForTask toLowerCase skills task)
    as [err|selected] eqn:Hselect; [|eauto].
  exfalso. rewrite selectSkillsForTask_unfold in Hselect.
  destruct (JS.map_or_throw scored _) as [err'|entries] eqn:Hmap; [|discriminate].
  apply map_or_throw_throws in Hmap as (skill & Hin & Hthrown).
  apply filter_In in Hin as [Hin Hmission]. apply mission_matches_spec in Hmission.
  apply (Hstrings _ Hin), relevance_returns in Hmission as [score Hscore].
  unfold scored in Hthrown. rewrite Hscore in Hthrown. discriminate.
Qed.

(** The selection throws when the scoring meets a field that is not a
    string. *)
Lemma selection_throws (skills : list SkillLoader.RawSkill) :
  (exists skill, In skill skills /\ of_mission task skill /\ ~ texts_are_strings skill) ->
  exists message,
    SkillMatching.selectSkillsForTask toLowerCase skills task
    = inl (JS.ErrorObject "TypeError" message).
Proof.
  intros (skill & Hin & Hmission & Hbad).
  rewrite selectSkillsForTask_unfold.
  destruct (JS.map_or_throw scored _) as [err|entries] eqn:Hmap.
  - apply map_or_throw_throws in Hmap as (skill' & _ & Hthrown).
    unfold scored in Hthrown.
    destruct (relevance skill') as [err'|score] eqn:Hrel; [|discriminate].
    injection Hthrown as ->. apply relevance_throws in Hrel as [message ->]. eauto.
  - exfalso. apply map_or_throw_ok in Hmap.
    assert (Hin' : In skill (filter (SkillMatching.mission_matches task) skills)).
    { apply filter_In. split; [assumption | now apply mission_matches_spec]. }
    clear - Hmap Hin' Hbad.
    induction Hmap as [|x y xs ys Hx _ IH]; [destruct Hin'|].
    destruct Hin' as [->|Hin']; [|now apply IH].
    apply Hbad, relevance_returns. unfold scored in Hx.
    destruct (relevance skill) as [err|score]; [discriminate | eauto].
Qed.

(** The selection, with the one case in which it throws told apart: the
    statement of C10 for the skills whose texts are strings.  When the
    name, the category and the description of every configured skill of
    the task's mission (mission
    [all] or the task's [missionSlug]) are strings, the selection returns:
    it has at most two skills; each of them is one of the configured
    skills, is of the task's mission and has a relevance greater than
    zero; and the relevances never go up along the result.  When one of
    those three fields of a skill of the task's mission is not a string
    (the loader returns an array for a line written with square brackets),
    the selection does not return: it throws a [TypeError]. *)
Theorem selectSkillsForTask_spec (skills : list SkillLoader.RawSkill) :
  ((forall skill, In skill skills -> of_mission task skill -> texts_are_strings skill) ->
   exists selected,
     SkillMatching.selectSkillsForTask toLowerCase skills task = inr selected
     /\ length selected <= 2
     /\ Forall (fun skill =>
                  In skill skills /\ of_mission task skill
                  /\ exists score, scores toLowerCase task skill score /\ (0 < score)%Z)
               selected
     /\ exists ranks,
         Forall2 (scores toLowerCase task) selected ranks /\ non_increasing ranks)
  /\ ((exists skill, In skill skills /\ of_mission task skill /\ ~ texts_are_strings skill) ->
      exists message,
        SkillMatching.selectSkillsForTask toLowerCase skills task
        = inl (JS.ErrorObject "TypeError" message)).
Proof.
  split; [|apply selection_throws].
  intros Hstrings. destruct (@selection_returns skills Hstrings) as [selected Hselect].
  exists selected. split; [exact Hselect|]. now apply selected_spec.
Qed.

End SkillFacts.

(** On the bundled skills: [research-synthesis] scores 4 (the name part
    [research] is a tag, its category is in the task's description, the
    tag [research] is in its description), [math-modeling] scores 3 (the
    name part [modeling] is a tag, the tag is in its description),
    [engineering-analysis] scores 0, and the lunar skill scores 2 but is
    of another mission. *)
Example select_for_orbit_task :
  SkillMatching.selectSkillsForTask Stub.lower
    [Stub.math_modeling; Stub.lunar_geology; Stub.engineering_analysis;
     Stub.research_synthesis]
    Stub.orbit_task
  = inr [Stub.research_synthesis; Stub.math_modeling]
  /\ map (SkillMatching.relevance Stub.lower Stub.orbit_task)
         [Stub.math_modeling; Stub.lunar_geology; Stub.engineering_analysis;
          Stub.research_synthesis]
     = [inr 3; inr 2; inr 0; inr 4]%Z.
Proof. split; reflexivity. Qed.

(** C10 on the code.  The selection is to return at most two skills for
    every configured skill list, and [SkillMeta] declares the category of
    a skill a string.  For a SKILL.md that writes the category with square
    brackets the loader returns an array under an unchecked cast, and with
    that skill configured the selection throws, at the [toLowerCase] of
    the category, instead of returning. *)
Lemma selection_throws_on_listed_category :
  SkillLoader.parseSkillMd Stub.orbital_mechanics_md "skills/orbital-mechanics/SKILL.md"
  = inr Stub.orbital_mechanics
  /\ SkillMatching.selectSkillsForTask Stub.lower
       [Stub.math_modeling; Stub.orbital_mechanics] Stub.orbit_task
     = inl (JS.ErrorObject "TypeError" "skill.meta.category.toLowerCase is not a function").
Proof. split; reflexivity. Qed.

Lemma selectSkillsForTask_witness :
  SkillMatching.selectSkillsForTask Stub.lower
    [Stub.math_modeling; Stub.lunar_geology; Stub.engineering_analysis;
     Stub.research_synthesis]
    Stub.orbit_task
  = inr [Stub.research_synthesis; Stub.math_modeling]
  /\ Forall2 (scores Stub.lower Stub.orbit_task)
             [Stub.research_synthesis; Stub.math_modeling] [4; 3]%Z
  /\ exists selected,
      SkillMatching.selectSkillsForTask Stub.lower
        [Stub.math_modeling; Stub.lunar_geology; Stub.engineering_analysis;
         Stub.research_synthesis]
        Stub.orbit_task
      = inr selected
      /\ length selected <= 2
      /\ Forall (fun skill =>
                   In skill [Stub.math_modeling; Stub.lunar_geology;
                             Stub.engineering_analysis; Stub.research_synthesis]
                   /\ of_mission Stub.orbit_task skill
                   /\ exists score,
                       scores Stub.lower Stub.orbit_task skill score /\ (0 < score)%Z)
                selected
      /\ exists ranks,
          Forall2 (scores Stub.lower Stub.orbit_task) selected ranks
          /\ non_increasing ranks.
Proof.
  split; [reflexivity|]. split; [repeat constructor|].
  apply (proj1 (selectSkillsForTask_spec Stub.lower Stub.orbit_task
                  [Stub.math_modeling; Stub.lunar_geology; Stub.engineering_analysis;
                   Stub.research_synthesis])).
  intros skill Hin _.
  repeat (destruct Hin as [<-|Hin]; [eexists _, _, _; repeat split|]).
  destruct Hin.
Defined.

(* ================================================================== *)
(** * The agentic loop: one pass through the body *)
(* ================================================================== *)

Section LoopFacts.
Context {World : Type}.
Variable llm : Adapter.LLMAdapter World.
Variable toolExecutor : ToolExecutor.t World.
Variable systemPrompt userPrompt : string.

Local Abbreviation Env := (Worker.Env World).
Local Abbreviation call_model := (Worker.call_model llm toolExecutor systemPrompt).
Local Abbreviation run_tool := (Worker.run_tool toolExecutor).
Local Abbreviation run_tools := (Worker.run_tools toolExecutor).
Local Abbreviation loop_body := (Worker.loop_body llm toolExecutor systemPrompt).
Local Abbreviation for_turns := (Worker.for_turns llm toolExecutor systemPrompt).
Local Abbreviation run := (Worker.run llm toolExecutor systemPrompt userPrompt).
Local Abbreviation tool_definitions := (ToolExecutor.getDefinitions toolExecutor).

Lemma call_model_ok (st : Worker.Locals) (env : Env) w' response :
  Adapter.completeWithTools llm systemPrompt (Worker.messages st) tool_definitions
                            (Worker.world env) = (w', inr response) ->
  call_model st env
  = (Worker.mk_env w' (Worker.trace env ++ [Worker.model_call (Worker.messages st)])%list,
     inr (Worker.mk_locals
            (Worker.messages st
               ++ [LLMMessage.mk assistant (content_blocks (LLMToolResponse.content response))])%list
            (Worker.totalTokens st
             + match LLMToolResponse.tokensUsed response with Some n => n | None => 0 end)%Z
            (Worker.turn st),
          response)).
Proof.
  intros H. unfold Worker.call_model, IO.bind, Worker.emit, Worker.call.
  cbn [Worker.world Worker.trace]. rewrite H. reflexivity.
Qed.

Lemma call_model_throws (st : Worker.Locals) (env : Env) w' err :
  Adapter.completeWithTools llm systemPrompt (Worker.messages st) tool_definitions
                            (Worker.world env) = (w', inl err) ->
  call_model st env
  = (Worker.mk_env w' (Worker.trace env ++ [Worker.model_call (Worker.messages st)])%list,
     inl err).
Proof.
  intros H. unfold Worker.call_model, IO.bind, Worker.emit, Worker.call.
  cbn [Worker.world Worker.trace]. rewrite H. reflexivity.
Qed.

(** What [call_model] gives when it does not reject. *)
Lemma call_model_inv (st st1 : Worker.Locals) (env env1 : Env) response :
  call_model st env = (env1, inr (st1, response)) ->
  Adapter.completeWithTools llm systemPrompt (Worker.messages st) tool_definitions
                            (Worker.world env) = (Worker.world env1, inr response)
  /\ Worker.trace env1 = (Worker.trace env ++ [Worker.model_call (Worker.messages st)])%list
  /\ Worker.messages st1
     = (Worker.messages st
          ++ [LLMMessage.mk assistant (content_blocks (LLMToolResponse.content response))])%list
  /\ Worker.turn st1 = Worker.turn st.
Proof.
  destruct (Adapter.completeWithTools llm systemPrompt (Worker.messages st) tool_definitions
              (Worker.world env)) as [w' [err|r]] eqn:H.
  - rewrite (call_model_throws _ _ H). discriminate.
  - rewrite (call_model_ok _ _ H). intros [= <- <- <-]. repeat split.
Qed.

(** A tool call without input: the loop throws before the dispatch. *)
Lemma run_tool_no_input (toolCall : ToolCall.t) (env : Env) :
  ToolCall.input toolCall = None ->
  run_tool toolCall env = (env, inl input_not_logged).
Proof.
  intros Hinput. unfold Worker.run_tool, Worker.log_tool_call, IO.bind at 1.
  rewrite Hinput. reflexivity.
Qed.

(** A tool call with an input: it is recorded and dispatched, and what
    the dispatcher answers is fed back under the call's identifier. *)
Lemma run_tool_dispatched (toolCall : ToolCall.t) (env : Env) :
  ToolCall.input toolCall <> None ->
  run_tool toolCall env
  = match ToolExecutor.execute toolExecutor toolCall (Worker.world env) with
    | (w', inr result) =>
        (Worker.mk_env w' (Worker.trace env ++ [Worker.dispatch toolCall])%list,
         inr (ToolResultContent.mk (ToolCall.id toolCall) (ToolResult.content result)
                                   (ToolResult.is_error result)))
    | (w', inl err) =>
        (Worker.mk_env w' (Worker.trace env ++ [Worker.dispatch toolCall])%list, inl err)
    end.
Proof.
  intros Hinput. unfold Worker.run_tool, Worker.log_tool_call, Worker.log_tool_result.
  unfold IO.bind, Worker.emit, Worker.call, IO.ret.
  destruct toolCall as [id name input]. cbn [ToolCall.id ToolCall.name ToolCall.input] in *.
  destruct input as [input|]; [|contradiction].
  cbn [Worker.world Worker.trace].
  destruct (ToolExecutor.execute toolExecutor (ToolCall.mk id name (Some input))
              (Worker.world env)) as [w' [err|result]] eqn:Hexec; [reflexivity|].
  apply execute_id in Hexec. cbn [ToolCall.id] in Hexec.
  unfold Worker.tool_result. now rewrite Hexec.
Qed.

(** The [for ... of] over the turn's tool calls is a pass over them. *)
Lemma run_each_tool (calls : list ToolCall.t) (env : Env) :
  exists ran results w' stopped,
    tool_pass toolExecutor (Worker.world env) calls ran results w' stopped
    /\ IO.for_of run_tool calls env
       = (Worker.mk_env w' (Worker.trace env ++ map Worker.dispatch ran)%list,
          match stopped with
          | None => inr results
          | Some err => inl err
          end).
Proof.
  revert env. induction calls as [|toolCall calls IH]; intros env.
  - exists [], [], (Worker.world env), None. split; [constructor|].
    cbn. rewrite app_nil_r. now destruct env.
  - destruct (ToolCall.input toolCall) as [input|] eqn:Hinput.
    + assert (Hgiven : ToolCall.input toolCall <> None) by congruence.
      pose proof (@run_tool_dispatched toolCall env Hgiven) as Hrun.
      destruct (ToolExecutor.execute toolExecutor toolCall (Worker.world env))
        as [w1 [err|result]] eqn:Hexec.
      * exists [toolCall], [], w1, (Some err). split; [now constructor|].
        cbn [IO.for_of]. unfold IO.bind at 1. rewrite Hrun. reflexivity.
      * destruct (IH (Worker.mk_env w1 (Worker.trace env ++ [Worker.dispatch toolCall])%list))
          as (ran & results & w2 & stopped & Hpass & Hrest).
        cbn [Worker.world Worker.trace] in *.
        eexists (toolCall :: ran), _, w2, stopped. split.
        { eapply pass_next; eassumption. }
        cbn [IO.for_of]. unfold IO.bind at 1. rewrite Hrun.
        unfold IO.bind at 1. rewrite Hrest. rewrite <- app_assoc.
        destruct stopped; reflexivity.
    + exists [], [], (Worker.world env), (Some input_not_logged).
      split; [now constructor|].
      cbn [IO.for_of]. unfold IO.bind at 1. rewrite (@run_tool_no_input toolCall env Hinput).
      cbn. rewrite app_nil_r. now destruct env.
Qed.


(** A pass that nothing stopped dispatched every call, and fed back one
    result per call, in order and under the call's identifier. *)
Lemma tool_pass_complete (w : World) (calls : list ToolCall.t) ran results w' :
  tool_pass toolExecutor w calls ran results w' None ->
  ran = calls
  /\ map ToolResultContent.tool_use_id results = map ToolCall.id calls
  /\ Forall (fun call => ToolCall.input call <> None) calls.
Proof.
  intros Hpass. remember None as stopped eqn:Hstopped.
  induction Hpass as [w| | |w toolCall calls w1 result ran results w2 stopped Hsome Hexec _ IH];
    try discriminate.
  - repeat split. constructor.
  - destruct (IH Hstopped) as (-> & Hids & Hinputs). repeat split.
    + cbn. now rewrite Hids.
    + now constructor.
Qed.

(** When every call has an input and no tool fails with a value that
    cannot be converted, nothing stops the pass. *)
Lemma tool_pass_not_stopped (w : World) (calls : list ToolCall.t) ran results w' stopped :
  failures_have_messages toolExecutor ->
  Forall (fun call => ToolCall.input call <> None) calls ->
  tool_pass toolExecutor w calls ran results w' stopped ->
  stopped = None.
Proof.
  intros Hfail Hinputs Hpass.
  induction Hpass as [w|w toolCall calls Hnone|w toolCall calls w1 err Hsome Hexec
                     |w toolCall calls w1 result ran results w2 stopped Hsome Hexec _ IH].
  - reflexivity.
  - inversion Hinputs; subst. contradiction.
  - destruct (execute_resolves toolCall w Hfail) as (w' & result & Hres). congruence.
  - inversion Hinputs; subst. now apply IH.
Qed.

Lemma run_tools_pass (st : Worker.Locals) (response : LLMToolResponse.t) (env : Env) :
  exists ran results w' stopped,
    tool_pass toolExecutor (Worker.world env)
              (tool_uses_of (LLMToolResponse.content response)) ran results w' stopped
    /\ run_tools st response env
       = (Worker.mk_env w' (Worker.trace env ++ map Worker.dispatch ran)%list,
          match stopped with
          | None => inr (Worker.push (LLMMessage.mk user (content_results results)) st)
          | Some err => inl err
          end).
Proof.
  destruct (run_each_tool (tool_uses_of (LLMToolResponse.content response)) env)
    as (ran & results & w' & stopped & Hpass & Hrun).
  exists ran, results, w', stopped. split; [exact Hpass|].
  unfold Worker.run_tools, IO.bind. rewrite Hrun. destruct stopped; reflexivity.
Qed.

(** What [run_tools] did when it returned. *)
Lemma run_tools_ok (st st' : Worker.Locals) (response : LLMToolResponse.t) (env env' : Env) :
  run_tools st response env = (env', inr st') ->
  exists results,
    env' = Worker.mk_env (Worker.world env')
             (Worker.trace env
                ++ map Worker.dispatch (tool_uses_of (LLMToolResponse.content response)))%list
    /\ st' = Worker.push (LLMMessage.mk user (content_results results)) st
    /\ map ToolResultContent.tool_use_id results
       = map ToolCall.id (tool_uses_of (LLMToolResponse.content response))
    /\ tool_pass toolExecutor (Worker.world env)
         (tool_uses_of (LLMToolResponse.content response))
         (tool_uses_of (LLMToolResponse.content response)) results (Worker.world env') None.
Proof.
  destruct (run_tools_pass st response env) as (ran & results & w' & stopped & Hpass & ->).
  destruct stopped as [err|]; [discriminate|]. intros [= <- <-].
  destruct (tool_pass_complete Hpass) as (-> & Hids & _).
  exists results. repeat split; assumption.
Qed.

(** The trace after [run_tools], whether it returned or not: some of the
    turn's calls were dispatched, and the model was not called. *)
Lemma run_tools_trace (st : Worker.Locals) (response : LLMToolResponse.t) (env : Env) :
  exists ran,
    Worker.trace (fst (run_tools st response env))
    = (Worker.trace env ++ map Worker.dispatch ran)%list.
Proof.
  destruct (run_tools_pass st response env) as (ran & results & w' & stopped & _ & ->).
  now exists ran.
Qed.

Lemma loop_body_done (st st1 : Worker.Locals) (env env1 : Env) response :
  call_model st env = (env1, inr (st1, response)) ->
  Worker.llm_is_done response = true ->
  loop_body st env = (env1, inr (st1, Some (Worker.final_text response))).
Proof.
  intros Hcall Hdone. unfold Worker.loop_body, IO.bind. rewrite Hcall, Hdone. reflexivity.
Qed.

Lemma loop_body_tools (st st1 : Worker.Locals) (env env1 : Env) response :
  call_model st env = (env1, inr (st1, response)) ->
  Worker.llm_is_done response = false ->
  loop_body st env
  = match run_tools st1 response env1 with
    | (env2, inr st2) => (env2, inr (st2, None))
    | (env2, inl err) => (env2, inl err)
    end.
Proof.
  intros Hcall Hdone. unfold Worker.loop_body, IO.bind at 1. rewrite Hcall, Hdone.
  unfold IO.bind. destruct (run_tools st1 response env1) as [env2 [err|st2]]; reflexivity.
Qed.

Lemma loop_body_throws (st : Worker.Locals) (env env1 : Env) err :
  call_model st env = (env1, inl err) ->
  loop_body st env = (env1, inl err).
Proof.
  intros Hcall. unfold Worker.loop_body, IO.bind. rewrite Hcall. reflexivity.
Qed.

Lemma llm_is_done_spec (response : LLMToolResponse.t) :
  Worker.llm_is_done response = true
  <-> LLMToolResponse.stopReason response = "end_turn"
      \/ LLMToolResponse.stopReason response = "max_tokens".
Proof.
  unfold Worker.llm_is_done. now rewrite orb_true_iff, !String.eqb_eq.
Qed.

Lemma dispatches_app (tr1 tr2 : list Worker.Event) :
  dispatches (tr1 ++ tr2) = (dispatches tr1 ++ dispatches tr2)%list.
Proof. apply flat_map_app. Qed.

Lemma dispatches_dispatch (calls : list ToolCall.t) :
  dispatches (map Worker.dispatch calls) = calls.
Proof.
  induction calls as [|c calls IH]; [reflexivity|]. cbn. now f_equal.
Qed.

Lemma model_calls_app (tr1 tr2 : list Worker.Event) :
  model_calls (tr1 ++ tr2) = (model_calls tr1 ++ model_calls tr2)%list.
Proof. apply flat_map_app. Qed.

Lemma model_calls_dispatch (calls : list ToolCall.t) :
  model_calls (map Worker.dispatch calls) = [].
Proof.
  induction calls as [|c calls IH]; [reflexivity|]. exact IH.
Qed.

Lemma texts_of_segments (blocks : list ContentBlock) :
  texts_of blocks = text_segments blocks.
Proof.
  induction blocks as [|[text|id name input] blocks IH]; cbn; [reflexivity | |exact IH].
  now rewrite IH.
Qed.






(** ** The shape of the conversation *)

Lemma turns_after_prompt_app (expect : Role) (l1 l2 : list LLMMessage.t) :
  turns_after_prompt expect (l1 ++ l2)
  <-> turns_after_prompt expect l1 /\ turns_after_prompt (role_after expect l1) l2.
Proof.
  revert expect. induction l1 as [|m l1 IH]; intros expect.
  - cbn. tauto.
  - unfold role_after. cbn [app turns_after_prompt length].
    rewrite Nat.even_succ, <- Nat.negb_even.
    destruct expect; rewrite IH; unfold role_after;
      destruct (Nat.even (length l1)); cbn; tauto.
Qed.

Lemma turns_after_prompt_alternates (expect : Role) (msgs : list LLMMessage.t) :
  turns_after_prompt expect msgs -> alternates expect msgs = true.
Proof.
  revert expect. induction msgs as [|m msgs IH]; intros expect; [reflexivity|].
  destruct expect; cbn; intros [[c ->] H]; cbn; now apply IH in H.
Qed.

Lemma conversation_alternates (prompt : string) (msgs : list LLMMessage.t) :
  conversation prompt msgs -> alternates user msgs = true.
Proof.
  intros (rest & -> & H). cbn. now apply turns_after_prompt_alternates.
Qed.

Lemma awaiting_inv_initial : awaiting_inv userPrompt (Worker.messages (Worker.initial userPrompt)).
Proof. exists []. repeat split. Qed.

Lemma awaiting_inv_push (prompt : string) (msgs : list LLMMessage.t) blocks :
  awaiting_inv prompt msgs ->
  answered_inv prompt (msgs ++ [LLMMessage.mk assistant (content_blocks blocks)]).
Proof.
  intros (rest & -> & Hturns & Heven).
  exists (rest ++ [LLMMessage.mk assistant (content_blocks blocks)])%list.
  split; [reflexivity|]. split.
  - apply turns_after_prompt_app. split; [assumption|].
    unfold role_after. rewrite Heven. cbn. eauto.
  - rewrite length_app, Nat.add_1_r, Nat.even_succ, <- Nat.negb_even, Heven. reflexivity.
Qed.

Lemma answered_inv_push (prompt : string) (msgs : list LLMMessage.t) results :
  answered_inv prompt msgs ->
  awaiting_inv prompt (msgs ++ [LLMMessage.mk user (content_results results)]).
Proof.
  intros (rest & -> & Hturns & Heven).
  exists (rest ++ [LLMMessage.mk user (content_results results)])%list.
  split; [reflexivity|]. split.
  - apply turns_after_prompt_app. split; [assumption|].
    unfold role_after. rewrite Heven. cbn. eauto.
  - rewrite length_app, Nat.add_1_r, Nat.even_succ, <- Nat.negb_even, Heven. reflexivity.
Qed.

Lemma awaiting_inv_conversation (prompt : string) (msgs : list LLMMessage.t) :
  awaiting_inv prompt msgs -> conversation prompt msgs.
Proof. intros (rest & ? & ? & _). now exists rest. Qed.

Lemma answered_inv_conversation (prompt : string) (msgs : list LLMMessage.t) :
  answered_inv prompt msgs -> conversation prompt msgs.
Proof. intros (rest & ? & ? & _). now exists rest. Qed.

Local Abbreviation step := (Worker.step llm toolExecutor systemPrompt).
Local Abbreviation reachable := (Worker.reachable llm toolExecutor systemPrompt userPrompt).

Lemma step_preserves_inv (prompt : string) (c c' : Worker.Point * Env) :
  step c c' -> point_inv prompt (fst c) -> point_inv prompt (fst c').
Proof.
  destruct 1 as [st env Hturn
                | st env st' response env' Hturn Hcall Hdone
                | st env st' response env' Hturn Hcall Hdone
                | st response env st' env' Hrun]; cbn [fst point_inv].
  - trivial.
  - destruct (call_model_inv _ _ Hcall) as (_ & _ & -> & _). apply awaiting_inv_push.
  - destruct (call_model_inv _ _ Hcall) as (_ & _ & -> & _). apply awaiting_inv_push.
  - destruct (@run_tools_ok _ _ _ _ _ Hrun) as (results & _ & -> & _).
    cbn [Worker.messages Worker.push]. apply answered_inv_push.
Qed.

Lemma reachable_inv (env0 : Env) (c : Worker.Point * Env) :
  reachable env0 c -> point_inv userPrompt (fst c).
Proof.
  induction 1 as [|c c' _ IH Hstep].
  - apply awaiting_inv_initial.
  - eapply step_preserves_inv; eassumption.
Qed.

Lemma point_inv_conversation (prompt : string) (p : Worker.Point) :
  point_inv prompt p -> conversation prompt (Worker.point_messages p).
Proof.
  destruct p as [st|st response|[answer st|answer st]]; cbn;
    auto using awaiting_inv_conversation, answered_inv_conversation.
Qed.

(** C9.  At every point a run of the loop passes through (the loop test,
    between the model's answer and the tool calls, and past either
    [return]) the conversation is the task prompt as one user turn
    followed by assistant turns and user turns in strict alternation, the
    assistant turns carrying the model's content blocks and the later user
    turns carrying tool results. *)
Theorem loop_conversation_alternates (env0 env : Env) (p : Worker.Point) :
  reachable env0 (p, env) ->
  conversation userPrompt (Worker.point_messages p)
  /\ alternates user (Worker.point_messages p) = true.
Proof.
  intros Hreach. apply reachable_inv in Hreach. cbn [fst] in Hreach.
  apply point_inv_conversation in Hreach.
  split; [exact Hreach | eapply conversation_alternates, Hreach].
Qed.

(** The points of [step] are those of [for_turns]: what a run returns is
    a reachable point. *)
Lemma for_turns_reachable (env0 : Env) (remaining : nat) :
  forall (st : Worker.Locals) (env env' : Env) (e : Worker.Exit),
    reachable env0 (Worker.awaiting_model st, env) ->
    Worker.turn st + remaining = Worker.MAX_AGENT_TURNS ->
    for_turns remaining st env = (env', inr e) ->
    reachable env0 (Worker.finished e, env').
Proof.
  induction remaining as [|remaining IH]; intros st env env' e Hreach Hturn Hrun.
  - cbn in Hrun. injection Hrun as <- <-.
    eapply Worker.reachable_step; [exact Hreach|]. constructor. lia.
  - cbn [Worker.for_turns] in Hrun. unfold IO.bind at 1 in Hrun.
    destruct (call_model st env) as [env1 [err|[st1 response]]] eqn:Hcall.
    + rewrite (loop_body_throws _ _ Hcall) in Hrun. discriminate.
    + destruct (Worker.llm_is_done response) eqn:Hdone.
      * rewrite (loop_body_done _ _ Hcall Hdone) in Hrun.
        injection Hrun as <- <-.
        eapply Worker.reachable_step; [exact Hreach|].
        eapply Worker.step_done; [lia | exact Hcall | exact Hdone].
      * rewrite (loop_body_tools _ _ Hcall Hdone) in Hrun.
        destruct (run_tools st1 response env1) as [env2 [err|st2]] eqn:Htools;
          [discriminate|].
        eapply IH; [| |exact Hrun].
        -- eapply Worker.reachable_step; [|eapply Worker.step_results, Htools].
           eapply Worker.reachable_step; [exact Hreach|].
           eapply Worker.step_tool_use; [lia | exact Hcall | exact Hdone].
        -- cbn [Worker.turn].
           destruct (@run_tools_ok _ _ _ _ _ Htools) as (results & _ & -> & _).
           destruct (call_model_inv _ _ Hcall) as (_ & _ & _ & Hturn1).
           cbn [Worker.push Worker.turn]. lia.
Qed.

Lemma run_reachable (env0 env' : Env) (e : Worker.Exit) :
  run env0 = (env', inr e) -> reachable env0 (Worker.finished e, env').
Proof.
  apply for_turns_reachable; [constructor | reflexivity].
Qed.

(** ** Whole runs *)

Lemma lastAssistant_before_results (prefix : list LLMMessage.t) blocks results :
  Worker.lastAssistant
    (prefix ++ [LLMMessage.mk assistant (content_blocks blocks);
                LLMMessage.mk user (content_results results)])
  = Some (LLMMessage.mk assistant (content_blocks blocks)).
Proof.
  unfold Worker.lastAssistant. rewrite filter_app, map_app. cbn. apply last_last.
Qed.

Lemma after_loop_before_results (prefix : list LLMMessage.t) blocks results :
  Worker.after_loop
    (prefix ++ [LLMMessage.mk assistant (content_blocks blocks);
                LLMMessage.mk user (content_results results)])
  = exhausted_answer blocks.
Proof.
  unfold Worker.after_loop. rewrite lastAssistant_before_results.
  cbn [LLMMessage.content]. unfold exhausted_answer. rewrite texts_of_segments.
  destruct (text_segments blocks); reflexivity.
Qed.

(** Every call of the model that a run from [env0] makes is answered, with
    the stop reason [tool_use] and an input in every tool call. *)
Local Abbreviation answers_tool_use env0 :=
  (forall st env env1 r,
      reachable env0 (Worker.awaiting_model st, env) ->
      Worker.turn st < Worker.MAX_AGENT_TURNS ->
      call_model st env = (env1, r) ->
      exists st1 response,
        r = inr (st1, response)
        /\ LLMToolResponse.stopReason response = "tool_use"
        /\ inputs_given (LLMToolResponse.content response)).

Lemma for_turns_always_tool_use (env0 : Env) (remaining : nat) :
  answers_tool_use env0 ->
  failures_have_messages toolExecutor ->
  forall (st : Worker.Locals) (env : Env),
    reachable env0 (Worker.awaiting_model st, env) ->
    Worker.turn st + remaining = Worker.MAX_AGENT_TURNS ->
    exists env' st',
      for_turns remaining st env
      = (env', inr (Worker.budget_exhausted (Worker.after_loop (Worker.messages st')) st'))
      /\ Worker.turn st' = Worker.turn st + remaining
      /\ length (model_calls (Worker.trace env'))
         = length (model_calls (Worker.trace env)) + remaining
      /\ (0 < remaining ->
          exists prefix blocks results,
            Worker.messages st'
            = (prefix ++ [LLMMessage.mk assistant (content_blocks blocks);
                          LLMMessage.mk user (content_results results)])%list).
Proof.
  intros Halways Hfail. induction remaining as [|remaining IH]; intros st env Hreach Hturn.
  - exists env, st. cbn. repeat split; try lia.
  - destruct (call_model st env) as [env1 r] eqn:Hcall.
    destruct (Halways _ _ _ _ Hreach ltac:(lia) Hcall)
      as (st1 & response & -> & Hstop & Hinputs).
    assert (Hdone : Worker.llm_is_done response = false).
    { unfold Worker.llm_is_done. now rewrite Hstop. }
    destruct (call_model_inv _ _ Hcall) as (_ & Htrace1 & Hmsgs1 & Hturn1).
    destruct (run_tools_pass st1 response env1)
      as (ran & results & w2 & stopped & Hpass & Hrun).
    pose proof (tool_pass_not_stopped Hfail Hinputs Hpass) as ->.
    destruct (tool_pass_complete Hpass) as (-> & _ & _).
    match type of Hrun with _ = (?e, inr ?s) => set (env2 := e) in *; set (st2 := s) in * end.
    destruct (IH (Worker.mk_locals (Worker.messages st2) (Worker.totalTokens st2)
                                   (S (Worker.turn st2))) env2)
      as (env' & st' & Hrest & Hturn' & Hcalls & Hlast).
    { eapply Worker.reachable_step; [|eapply Worker.step_results, Hrun].
      eapply Worker.reachable_step; [exact Hreach|].
      eapply Worker.step_tool_use; [lia | exact Hcall | exact Hdone]. }
    { subst st2. cbn [Worker.turn Worker.push]. lia. }
    exists env', st'. repeat split.
    + cbn [Worker.for_turns]. unfold IO.bind at 1.
      rewrite (loop_body_tools _ _ Hcall Hdone), Hrun. exact Hrest.
    + rewrite Hturn'. subst st2. cbn [Worker.turn Worker.push]. lia.
    + rewrite Hcalls. subst env2. cbn [Worker.trace]. rewrite Htrace1.
      rewrite !model_calls_app, model_calls_dispatch, !length_app. cbn. lia.
    + intros _. destruct remaining as [|remaining].
      * cbn in Hrest. injection Hrest as _ _ <-. cbn [Worker.messages].
        subst st2. cbn [Worker.push Worker.messages]. rewrite Hmsgs1.
        eexists _, _, _. rewrite <- app_assoc. reflexivity.
      * apply Hlast. lia.
Qed.

(** The turn budget: the statement of C2 for the runs in which every
    tool call carries an input and every failure of a tool has a string.
    If every call of the model that the run
    makes is answered with the stop reason [tool_use] and with an input in
    each of its tool calls, and no tool of the registry fails with a value
    that cannot be converted to a string, the run does not reject and ends
    after the loop, with the turns used up: the model was called exactly
    [25] times, the turn counter stands at [25], and the conversation ends
    with the last assistant turn and the results of its tool calls.  The
    string returned is the text segments of that assistant turn joined by
    line breaks and followed by the warning, or, when the turn has no text
    segment, the fixed string saying that no answer was produced. *)
Theorem always_tool_use_exhausts_budget (env0 : Env) :
  (forall st env env1 r,
      reachable env0 (Worker.awaiting_model st, env) ->
      Worker.turn st < Worker.MAX_AGENT_TURNS ->
      call_model st env = (env1, r) ->
      exists st1 response,
        r = inr (st1, response)
        /\ LLMToolResponse.stopReason response = "tool_use"
        /\ inputs_given (LLMToolResponse.content response)) ->
  failures_have_messages toolExecutor ->
  exists env' st prefix blocks results answer,
    run env0 = (env', inr (Worker.budget_exhausted answer st))
    /\ Worker.agenticLoop llm toolExecutor systemPrompt userPrompt env0 = (env', inr answer)
    /\ Worker.turn st = 25
    /\ length (model_calls (Worker.trace env'))
       = length (model_calls (Worker.trace env0)) + 25
    /\ Worker.messages st
       = (prefix ++ [LLMMessage.mk assistant (content_blocks blocks);
                     LLMMessage.mk user (content_results results)])%list
    /\ answer = exhausted_answer blocks.
Proof.
  intros Halways Hfail.
  destruct (for_turns_always_tool_use Worker.MAX_AGENT_TURNS Halways Hfail
              (st := Worker.initial userPrompt) (env := env0))
    as (env' & st & Hrun & Hturn & Hcalls & Hlast);
    [constructor | reflexivity |].
  destruct Hlast as (prefix & blocks & results & Hmsgs);
    [unfold Worker.MAX_AGENT_TURNS; lia|].
  exists env', st, prefix, blocks, results, (Worker.after_loop (Worker.messages st)).
  repeat split.
  - exact Hrun.
  - unfold Worker.agenticLoop, IO.bind. unfold Worker.run. rewrite Hrun. reflexivity.
  - exact Hturn.
  - exact Hcalls.
  - exact Hmsgs.
  - rewrite Hmsgs. apply after_loop_before_results.
Qed.

(** In particular for an adapter that answers [tool_use] whatever it is
    asked. *)
Lemma stub_always_tool_use (env0 : Env) :
  (forall msgs w, exists w' response,
      Adapter.completeWithTools llm systemPrompt msgs tool_definitions w = (w', inr response)
      /\ LLMToolResponse.stopReason response = "tool_use"
      /\ inputs_given (LLMToolResponse.content response)) ->
  answers_tool_use env0.
Proof.
  intros Hstub st env env1 r _ _ Hcall.
  destruct (Hstub (Worker.messages st) (Worker.world env))
    as (w' & response & Hllm & Hstop & Hinputs).
  rewrite (call_model_ok _ _ Hllm) in Hcall. injection Hcall as _ <-. eauto.
Qed.



(** Every conversation handed to the model during a run, whether the run
    returns or rejects, is the prompt followed by alternating turns and
    ends with a user turn. *)
Lemma for_turns_model_calls (remaining : nat) :
  forall (st : Worker.Locals) (env env' : Env) (r : JS.Thrown + Worker.Exit),
    awaiting_inv userPrompt (Worker.messages st) ->
    for_turns remaining st env = (env', r) ->
    exists new,
      model_calls (Worker.trace env') = (model_calls (Worker.trace env) ++ new)%list
      /\ Forall (awaiting_inv userPrompt) new.
Proof.
  induction remaining as [|remaining IH]; intros st env env' r Hinv Hrun.
  - cbn in Hrun. injection Hrun as <- _. exists []. now rewrite app_nil_r.
  - cbn [Worker.for_turns] in Hrun. unfold IO.bind at 1 in Hrun.
    destruct (Adapter.completeWithTools llm systemPrompt (Worker.messages st)
                tool_definitions (Worker.world env)) as [w1 [err|response]] eqn:Hllm.
    + rewrite (loop_body_throws _ _ (call_model_throws _ _ Hllm)) in Hrun.
      injection Hrun as <- _. exists [Worker.messages st]. cbn [Worker.trace].
      rewrite model_calls_app. split; [reflexivity | now constructor].
    + pose proof (call_model_ok st env Hllm) as Hcall.
      destruct (Worker.llm_is_done response) eqn:Hdone.
      * rewrite (loop_body_done _ _ Hcall Hdone) in Hrun.
        injection Hrun as <- _. exists [Worker.messages st]. cbn [Worker.trace].
        rewrite model_calls_app. split; [reflexivity | now constructor].
      * rewrite (loop_body_tools _ _ Hcall Hdone) in Hrun.
        match type of Hcall with _ = (?e, inr (?s, _)) =>
          destruct (run_tools_pass s response e)
            as (ran & results & w2 & stopped & _ & Htools)
        end.
        rewrite Htools in Hrun. destruct stopped as [err|].
        { injection Hrun as <- _. exists [Worker.messages st]. cbn [Worker.trace].
          rewrite !model_calls_app, model_calls_dispatch, app_nil_r.
          split; [reflexivity | now constructor]. }
        apply IH in Hrun as (new & Hcalls & Hnew).
        -- exists (Worker.messages st :: new). split; [|now constructor].
           rewrite Hcalls. cbn [Worker.trace].
           rewrite !model_calls_app, model_calls_dispatch, app_nil_r, <- app_assoc.
           reflexivity.
        -- cbn [Worker.messages Worker.push].
           now apply answered_inv_push, awaiting_inv_push.
Qed.

Lemma run_model_calls (env env' : Env) (r : JS.Thrown + Worker.Exit) :
  run env = (env', r) ->
  exists new,
    model_calls (Worker.trace env') = (model_calls (Worker.trace env) ++ new)%list
    /\ Forall (fun msgs => conversation userPrompt msgs /\ alternates user msgs = true) new.
Proof.
  intros Hrun.
  destruct (for_turns_model_calls _ _ _ awaiting_inv_initial Hrun) as (new & Hcalls & Hnew).
  exists new. split; [exact Hcalls|].
  eapply Forall_impl; [|exact Hnew]. intros msgs Hinv.
  apply awaiting_inv_conversation in Hinv.
  split; [exact Hinv | eapply conversation_alternates, Hinv].
Qed.

(** A first answer labelled [end_turn] or [max_tokens] ends the run on the
    first turn, with its joined text. *)
Lemma run_done_on_first_turn (env : Env) w' response :
  Adapter.completeWithTools llm systemPrompt
    [LLMMessage.mk user (content_string userPrompt)] tool_definitions (Worker.world env)
  = (w', inr response) ->
  LLMToolResponse.stopReason response = "end_turn"
  \/ LLMToolResponse.stopReason response = "max_tokens" ->
  exists st,
    run env
    = (Worker.mk_env w'
         (Worker.trace env
            ++ [Worker.model_call [LLMMessage.mk user (content_string userPrompt)]])%list,
       inr (Worker.done (JS.join Worker.newline (texts_of (LLMToolResponse.content response)))
                        st))
    /\ Worker.turn st = 0
    /\ Worker.messages st
       = [LLMMessage.mk user (content_string userPrompt);
          LLMMessage.mk assistant (content_blocks (LLMToolResponse.content response))].
Proof.
  intros Hllm Hlabel. apply llm_is_done_spec in Hlabel.
  pose proof (call_model_ok (Worker.initial userPrompt) env Hllm) as Hcall.
  eexists. split; [|split].
  - unfold Worker.run, Worker.MAX_AGENT_TURNS. cbn [Worker.for_turns].
    unfold IO.bind at 1. rewrite (loop_body_done _ _ Hcall Hlabel). reflexivity.
  - reflexivity.
  - reflexivity.
Qed.

End LoopFacts.

(* ================================================================== *)
(** * The agentic loop on the stubs *)
(* ================================================================== *)

(** The specification's first scenario: one text block and [end_turn]. *)
Example say_hello :
  Worker.agenticLoop (Stub.always (Stub.response [text_block "Hello."] "end_turn"))
                     Stub.registry "You are a test agent." "Say hello." Stub.start
  = (Worker.mk_env []
       [Worker.model_call [LLMMessage.mk user (content_string "Say hello.")]],
     inr "Hello.").
Proof. reflexivity. Qed.

(** The specification's second scenario: one call of [echo], then the answer. *)
Example echo_then_done :
  let r := Worker.agenticLoop
             (Stub.scripted
                [Stub.response [tool_use_block "toolu_1" "echo" (Some [("msg", JS.JString "hi")])]
                               "tool_use";
                 Stub.response [text_block "Done: hi"] "end_turn"])
             Stub.registry "You are a test agent." "Echo hi." Stub.start in
  snd r = inr "Done: hi"
  /\ dispatches (Worker.trace (fst r))
     = [ToolCall.mk "toolu_1" "echo" (Some [("msg", JS.JString "hi")])].
Proof. split; reflexivity. Qed.


(** A Gemini answer with a function call that has no arguments: the
    adapter stores [undefined] as the input and reports [tool_use], and
    the loop rejects at its first log line, before any dispatch. *)
Example function_call_without_args_is_not_dispatched :
  let data :=
    GoogleWire.mk
      (Some [GoogleWire.mk_candidate
               (Some (GoogleWire.mk_content (Some [GoogleWire.functionCall "notes" None])))
               "STOP"]) None in
  let host :=
    Host.mk (fun _ => IO.throw (JS.new_Error "fetch failed"))
            (fun _ => IO.throw (JS.new_Error "fetch failed"))
            (fun _ notes => (notes, inr (Http.mk_response true 200 (inr "") (inr data))))
            (fun _ => inr []) (fun _ => "{}")
            (fun notes => (notes, inr "gemini_0_abcdef"))
            JS.ascii_toLowerCase in
  let llm := Adapter.GoogleAdapter host "google" "key" "gemini-pro" in
  snd (Adapter.completeWithTools llm "system"
         [LLMMessage.mk user (content_string "Read the notes.")] [] [])
  = inr (LLMToolResponse.mk [tool_use_block "gemini_0_abcdef" "notes" None] "tool_use"
                            "google" "gemini-pro" None)
  /\ Worker.run llm Stub.registry "system" "Read the notes." Stub.start
     = (Worker.mk_env []
          [Worker.model_call [LLMMessage.mk user (content_string "Read the notes.")]],
        inl (JS.ErrorObject "TypeError"
               "Cannot read properties of undefined (reading 'slice')")).
Proof. split; reflexivity. Qed.





(** A turn whose second call has no input: the first call is dispatched,
    the pass stops before the second, nothing is fed back and the loop
    rejects. *)
Example tool_call_without_input_stops_the_pass :
  let blocks := [tool_use_block "gemini_1" "note" (Some [("text", JS.JString "a")]);
                 tool_use_block "gemini_2" "notes" None;
                 tool_use_block "gemini_3" "echo" (Some [])] in
  Worker.loop_body (Stub.always (Stub.response blocks "tool_use"))
                   Stub.registry "system" (Worker.initial "task") Stub.start
  = (Worker.mk_env ["a"]
       [Worker.model_call [LLMMessage.mk user (content_string "task")];
        Worker.dispatch (ToolCall.mk "gemini_1" "note" (Some [("text", JS.JString "a")]))],
     inl (JS.ErrorObject "TypeError" "Cannot read properties of undefined (reading 'slice')")).
Proof. reflexivity. Qed.

(** What the dispatcher did on the turn of the witness. *)
Example tool_calls_results :
  snd (IO.for_of (Worker.run_tool Stub.registry)
         [ToolCall.mk "toolu_1" "note" (Some [("text", JS.JString "a")]);
          ToolCall.mk "toolu_2" "notes" (Some []);
          ToolCall.mk "toolu_3" "missing_tool" (Some []);
          ToolCall.mk "toolu_4" "broken" (Some [])]
         Stub.start)
  = inr [ToolResultContent.mk "toolu_1" "ok" None;
         ToolResultContent.mk "toolu_2" "a" None;
         ToolResultContent.mk "toolu_3" "Unknown tool: missing_tool" (Some true);
         ToolResultContent.mk "toolu_4" "Error: boom" (Some true)].
Proof. reflexivity. Qed.

(** The tools of the stub registry fail with errors only. *)
Lemma stub_failures_have_messages : failures_have_messages Stub.registry.
Proof.
  intros name tool input w w1 raised Hin.
  cbn in Hin.
  repeat (destruct Hin as [[= <- <-]|Hin]; [cbn; discriminate|]).
  destruct Hin.
Qed.

(** C2 on the code.  A run whose every answer reports [tool_use] is to
    end with the turns used up, after 25 model calls.  Every answer of
    these two runs reports [tool_use], and both reject during the first
    turn.  In the first, the answers are those of the Gemini adapter for a
    function call without arguments, whose input the adapter leaves
    [undefined]: the argument of the [console.log] before the dispatch
    throws, after one model call and before any dispatch.  In the second,
    the tool called throws an object that has no string: the dispatcher
    rejects, and the run with it. *)
Lemma always_tool_use_run_is_rejected :
  let data :=
    GoogleWire.mk
      (Some [GoogleWire.mk_candidate
               (Some (GoogleWire.mk_content (Some [GoogleWire.functionCall "notes" None])))
               "STOP"]) None in
  let host :=
    Host.mk (fun _ => IO.throw (JS.new_Error "fetch failed"))
            (fun _ => IO.throw (JS.new_Error "fetch failed"))
            (fun _ notes => (notes, inr (Http.mk_response true 200 (inr "") (inr data))))
            (fun _ => inr []) (fun _ => "{}")
            (fun notes => (notes, inr "gemini_0_abcdef"))
            JS.ascii_toLowerCase in
  let gemini := Adapter.GoogleAdapter host "google" "key" "gemini-pro" in
  let stub :=
    Stub.always (Stub.response [tool_use_block "toolu_1" "opaque" (Some [])] "tool_use") in
  (forall messages notes,
      exists response,
        Adapter.completeWithTools gemini "system" messages [] notes = (notes, inr response)
        /\ LLMToolResponse.stopReason response = "tool_use")
  /\ Worker.run gemini (ToolExecutor.empty Stub.Notes) "system" "Read the notes." Stub.start
     = (Worker.mk_env []
          [Worker.model_call [LLMMessage.mk user (content_string "Read the notes.")]],
        inl (JS.ErrorObject "TypeError"
               "Cannot read properties of undefined (reading 'slice')"))
  /\ Worker.run stub Stub.fragile "system" "task" Stub.start
     = (Worker.mk_env ["opaque ran"]
          [Worker.model_call [LLMMessage.mk user (content_string "task")];
           Worker.dispatch (ToolCall.mk "toolu_1" "opaque" (Some []))],
        inl (JS.ErrorObject "TypeError" "Cannot convert object to primitive value")).
Proof.
  intros data host gemini stub. split; [|split; reflexivity].
  intros messages notes.
  exists (LLMToolResponse.mk [tool_use_block "gemini_0_abcdef" "notes" None] "tool_use"
                             "google" "gemini-pro" None).
  split; reflexivity.
Qed.

Lemma always_tool_use_witness :
  let blocks := [text_block "Still working."; text_block "One more step.";
                 tool_use_block "toolu_1" "note" (Some [("text", JS.JString "a")])] in
  let llm := Stub.always (Stub.response blocks "tool_use") in
  let answer :=
    String.append "Still working."
      (String "010" (String.append "One more step."
         (String "010" (String "010" "[Warning: Agent reached maximum turns limit]")))) in
  exhausted_answer blocks = answer
  /\ snd (Worker.agenticLoop llm Stub.registry "system" "task" Stub.start) = inr answer
  /\ exists env' st prefix results,
      Worker.run llm Stub.registry "system" "task" Stub.start
      = (env', inr (Worker.budget_exhausted answer st))
      /\ Worker.turn st = 25
      /\ length (model_calls (Worker.trace env')) = 25
      /\ length (Worker.world env') = 25
      /\ Worker.messages st
         = (prefix ++ [LLMMessage.mk assistant (content_blocks blocks);
                       LLMMessage.mk user (content_results results)])%list.
Proof.
  intros blocks llm answer.
  destruct (@always_tool_use_exhausts_budget Stub.Notes llm Stub.registry "system" "task"
              Stub.start)
    as (env' & st & prefix & blocks' & results & answer' & Hrun & Hloop & Hturn & Hcalls
        & Hmsgs & Hanswer).
  { intros st env env1 r _ _ Hcall. injection Hcall as _ <-.
    eexists _, _. split; [reflexivity|]. split; [reflexivity|].
    repeat constructor; discriminate. }
  { exact stub_failures_have_messages. }
  assert (Hcomputed : snd (Worker.agenticLoop llm Stub.registry "system" "task" Stub.start)
                      = inr answer) by (vm_compute; reflexivity).
  assert (Hnotes : length (Worker.world
                             (fst (Worker.run llm Stub.registry "system" "task" Stub.start)))
                   = 25) by (vm_compute; reflexivity).
  split; [reflexivity|]. split; [exact Hcomputed|].
  rewrite Hloop in Hcomputed. cbn [snd] in Hcomputed. injection Hcomputed as ->.
  rewrite Hrun in Hnotes. cbn [fst] in Hnotes.
  assert (Hlast : blocks' = blocks).
  { pose proof (f_equal (fun r => match snd r with
                                  | inr e => Worker.lastAssistant
                                               (Worker.messages (Worker.locals_of e))
                                  | inl _ => None
                                  end) Hrun) as Heq.
    cbn [snd Worker.locals_of] in Heq. rewrite Hmsgs in Heq.
    rewrite (@lastAssistant_before_results prefix blocks' results) in Heq.
    vm_compute in Heq. now injection Heq as <-. }
  subst blocks'.
  exists env', st, prefix, results. repeat split; assumption.
Defined.

(** The same run, computed: 25 model calls, 25 dispatches, the warning. *)
Example always_tool_use_run :
  let r := Worker.agenticLoop
             (Stub.always (Stub.response [text_block "Still working.";
                                          tool_use_block "toolu_1" "echo" (Some [])] "tool_use"))
             Stub.registry "system" "task" Stub.start in
  length (model_calls (Worker.trace (fst r))) = 25
  /\ length (dispatches (Worker.trace (fst r))) = 25
  /\ snd r = inr ("Still working." ++ Worker.newline ++ Worker.newline
                    ++ "[Warning: Agent reached maximum turns limit]").
Proof. vm_compute. repeat split. Qed.

(** Without a text block in the last assistant turn: the fixed string. *)
Example always_tool_use_no_text :
  snd (Worker.agenticLoop
         (Stub.always (Stub.response [tool_use_block "toolu_1" "echo" (Some [])] "tool_use"))
         Stub.registry "system" "task" Stub.start)
  = inr "[Agent reached maximum turns without producing a final answer]".
Proof. vm_compute. reflexivity. Qed.


Lemma loop_conversation_witness :
  let llm := Stub.scripted
               [Stub.response [tool_use_block "toolu_1" "echo" (Some [("msg", JS.JString "hi")])]
                              "tool_use";
                Stub.response [text_block "Done: hi"] "end_turn"] in
  let msgs := [LLMMessage.mk user (content_string "Echo hi.");
               LLMMessage.mk assistant
                 (content_blocks [tool_use_block "toolu_1" "echo" (Some [("msg", JS.JString "hi")])]);
               LLMMessage.mk user (content_results [ToolResultContent.mk "toolu_1" "hi" None]);
               LLMMessage.mk assistant (content_blocks [text_block "Done: hi"])] in
  exists env',
    Worker.reachable llm Stub.registry "system" "Echo hi." Stub.start
      (Worker.finished (Worker.done "Done: hi" (Worker.mk_locals msgs 0%Z 1)), env')
    /\ conversation "Echo hi." msgs
    /\ alternates user msgs = true.
Proof.
  intros llm msgs.
  assert (Hreach : exists env',
             Worker.reachable llm Stub.registry "system" "Echo hi." Stub.start
               (Worker.finished (Worker.done "Done: hi" (Worker.mk_locals msgs 0%Z 1)), env')).
  { subst llm msgs. eexists.
    eapply Worker.reachable_step;
      [eapply Worker.reachable_step;
       [eapply Worker.reachable_step; [apply Worker.reachable_start|]|]|].
    - eapply Worker.step_tool_use;
        [unfold Worker.MAX_AGENT_TURNS; cbn; lia | cbv; reflexivity | reflexivity].
    - eapply Worker.step_results. cbv. reflexivity.
    - eapply Worker.step_done
        with (response := Stub.response [text_block "Done: hi"] "end_turn");
        [unfold Worker.MAX_AGENT_TURNS; cbn; lia | cbv; reflexivity | reflexivity]. }
  destruct Hreach as [env' Hreach]. exists env'.
  split; [exact Hreach|].
  exact (loop_conversation_alternates Hreach).
Defined.

(* ================================================================== *)
(** * The registry of the dispatcher *)
(* ================================================================== *)

Section RegistryFacts.
Context {World : Type}.
Implicit Types (tools : ToolExecutor.t World) (tool : Tool.t World) (call : ToolCall.t).

Lemma Map_get_set (key k : string) (value : Tool.t World) tools :
  ToolExecutor.Map_get k (ToolExecutor.Map_set key value tools)
  = if String.eqb key k then Some value else ToolExecutor.Map_get k tools.
Proof.
  induction tools as [|[k' v'] rest IH]; simpl.
  - rewrite String.eqb_sym. reflexivity.
  - destruct (String.eqb_spec k' key) as [->|Hne]; simpl.
    + destruct (String.eqb_spec key k); reflexivity.
    + rewrite IH. destruct (String.eqb_spec k' k) as [->|Hne'].
      * destruct (String.eqb_spec key k); [congruence | reflexivity].
      * reflexivity.
Qed.

Lemma names_Map_set (key : string) (value : Tool.t World) tools :
  ToolExecutor.getToolNames (ToolExecutor.Map_set key value tools)
  = if existsb (String.eqb key) (ToolExecutor.getToolNames tools)
    then ToolExecutor.getToolNames tools
    else (ToolExecutor.getToolNames tools ++ [key])%list.
Proof.
  unfold ToolExecutor.getToolNames. induction tools as [|[k v] rest IH]; simpl.
  - reflexivity.
  - rewrite (String.eqb_sym key k).
    destruct (String.eqb_spec k key) as [->|Hne]; simpl; [reflexivity|].
    rewrite IH. destruct (existsb _ _); reflexivity.
Qed.

(** X1.  After [register(tool)], a call under the tool's name runs that
    tool, whatever was registered under the name before, and a call under
    any other name is dispatched as it was before the registration. *)
Theorem register_then_execute tool tools call (w : World) :
  ToolExecutor.execute (ToolExecutor.register tool tools) call w
  = if String.eqb (ToolDefinition.name (Tool.definition tool)) (ToolCall.name call)
    then ToolExecutor.execute (ToolExecutor.register tool (ToolExecutor.empty World)) call w
    else ToolExecutor.execute tools call w.
Proof.
  unfold ToolExecutor.execute, ToolExecutor.register, ToolExecutor.empty.
  rewrite !Map_get_set. cbn [ToolExecutor.Map_get].
  destruct (String.eqb _ _); reflexivity.
Qed.

(** Registering under a name that is already there keeps the list of
    names as it is (the name keeps its place, the count is unchanged);
    registering under a new name appends it at the end. *)
Lemma register_names tool tools :
  ToolExecutor.getToolNames (ToolExecutor.register tool tools)
  = if existsb (String.eqb (ToolDefinition.name (Tool.definition tool)))
               (ToolExecutor.getToolNames tools)
    then ToolExecutor.getToolNames tools
    else (ToolExecutor.getToolNames tools
            ++ [ToolDefinition.name (Tool.definition tool)])%list.
Proof. apply names_Map_set. Qed.

Lemma existsb_eqb_In (key : string) (names : list string) :
  existsb (String.eqb key) names = true <-> In key names.
Proof.
  rewrite existsb_exists. split.
  - intros (x & Hin & Heq). apply String.eqb_eq in Heq. now subst.
  - intros Hin. exists key. split; [assumption | apply String.eqb_refl].
Qed.

Lemma definitions_Map_set (value : Tool.t World) tools :
  map ToolDefinition.name (ToolExecutor.getDefinitions tools) = ToolExecutor.getToolNames tools ->
  map ToolDefinition.name
      (ToolExecutor.getDefinitions
         (ToolExecutor.Map_set (ToolDefinition.name (Tool.definition value)) value tools))
  = ToolExecutor.getToolNames
      (ToolExecutor.Map_set (ToolDefinition.name (Tool.definition value)) value tools).
Proof.
  unfold ToolExecutor.getDefinitions, ToolExecutor.getToolNames.
  induction tools as [|[k v] rest IH]; simpl; [reflexivity|].
  intros [= Hk Hrest]. destruct (String.eqb_spec k (ToolDefinition.name (Tool.definition value)))
    as [->|Hne]; simpl.
  - now rewrite Hrest.
  - now rewrite Hk, IH.
Qed.

(** X2.  In a registry built by [register] calls the names are pairwise
    distinct, and [getDefinitions] lists, in the order of [getToolNames],
    one definition per name, carrying that name. *)
Theorem built_registry_names tools :
  registry_built tools ->
  NoDup (ToolExecutor.getToolNames tools)
  /\ map ToolDefinition.name (ToolExecutor.getDefinitions tools)
     = ToolExecutor.getToolNames tools.
Proof.
  induction 1 as [|tool tools Hbuilt [Hnodup Hdefs]].
  - split; [constructor | reflexivity].
  - split.
    + rewrite register_names.
      destruct (existsb _ _) eqn:Hin; [exact Hnodup|].
      apply NoDup_app; [exact Hnodup | repeat constructor; intros [] |].
      intros name Hname [<-|[]].
      apply existsb_eqb_In in Hname. congruence.
    + now apply definitions_Map_set.
Qed.

(** X3.  [execute] answers with the unknown-tool result, leaving the
    world as it was, exactly for the calls whose name is not among
    [getToolNames]: a registered tool is never answered for in that way,
    whatever it returns or throws. *)
Theorem unknown_tool_iff_not_registered tools call (w : World) :
  ToolExecutor.execute tools call w = (w, inr (unknown_tool_result call))
  <-> ~ In (ToolCall.name call) (ToolExecutor.getToolNames tools).
Proof.
  rewrite <- Map_get_None. unfold ToolExecutor.execute, unknown_tool_result.
  destruct (ToolExecutor.Map_get (ToolCall.name call) tools) as [tool|]; [|tauto].
  split; [|discriminate].
  unfold IO.try_catch, IO.bind, IO.ret.
  destruct (Tool.execute tool (ToolCall.input call) w) as [w1 [err|output]];
    [destruct (JS.message_of err)|]; intros H; try discriminate H;
    injection H as _ H; discriminate.
Qed.

End RegistryFacts.

Lemma built_registry_names_witness :
  registry_built Stub.registry
  /\ NoDup (ToolExecutor.getToolNames Stub.registry)
  /\ map ToolDefinition.name (ToolExecutor.getDefinitions Stub.registry)
     = ["echo"; "note"; "notes"; "broken"].
Proof.
  assert (Hbuilt : registry_built Stub.registry) by (repeat constructor).
  split; [exact Hbuilt|]. exact (built_registry_names Hbuilt).
Defined.

(* ================================================================== *)
(** * The agentic loop: rounds, calls and rejections *)
(* ================================================================== *)

Section LedgerFacts.
Context {World : Type}.
Variable llm : Adapter.LLMAdapter World.
Variable toolExecutor : ToolExecutor.t World.
Variable systemPrompt userPrompt : string.

Local Abbreviation Env := (Worker.Env World).
Local Abbreviation call_model := (Worker.call_model llm toolExecutor systemPrompt).
Local Abbreviation run_tools := (Worker.run_tools toolExecutor).
Local Abbreviation loop_body := (Worker.loop_body llm toolExecutor systemPrompt).
Local Abbreviation for_turns := (Worker.for_turns llm toolExecutor systemPrompt).
Local Abbreviation run := (Worker.run llm toolExecutor systemPrompt userPrompt).
Local Abbreviation step := (Worker.step llm toolExecutor systemPrompt).
Local Abbreviation reachable := (Worker.reachable llm toolExecutor systemPrompt userPrompt).
Local Abbreviation tool_definitions := (ToolExecutor.getDefinitions toolExecutor).

(** The ledger of a point: the completed rounds, the conversations given
    to the model so far, and how the trace accounts for them. *)
Local Abbreviation ledger env0 c rounds given :=
  (Forall answers rounds
   /\ point_ledger userPrompt rounds (fst c)
   /\ dispatches (Worker.trace (snd c))
      = (dispatches (Worker.trace env0) ++ requested rounds)%list
   /\ model_calls (Worker.trace (snd c))
      = (model_calls (Worker.trace env0) ++ given)%list
   /\ length given = calls_at (length rounds) (fst c)
   /\ Forall (answered_conversation userPrompt) given).

Lemma rounds_turns_snoc (rounds : list Round) (round : Round) :
  rounds_turns (rounds ++ [round])
  = (rounds_turns rounds ++ round_turns round)%list.
Proof.
  unfold rounds_turns. rewrite flat_map_app. f_equal.
Qed.

Lemma requested_snoc (rounds : list Round) (round : Round) :
  requested (rounds ++ [round]) = (requested rounds ++ tool_uses_of (fst round))%list.
Proof.
  unfold requested. rewrite flat_map_app. f_equal. apply app_nil_r.
Qed.

Lemma step_ledger (env0 : Env) (c c' : Worker.Point * Env) rounds given :
  step c c' -> ledger env0 c rounds given ->
  exists rounds' given', ledger env0 c' rounds' given'.
Proof.
  intros Hstep (Hans & Hpoint & Hdisp & Hcalls & Hlen & Hgiven).
  destruct Hstep as [st env Hturn
                    | st env st' response env' Hturn Hcall Hdone
                    | st env st' response env' Hturn Hcall Hdone
                    | st response env st' env' Hrun];
    cbn [fst snd point_ledger calls_at] in *.
  - exists rounds, given. destruct Hpoint as (Hmsgs & Hround & Hle).
    repeat split; try assumption; lia.
  - edestruct (@call_model_inv World) as (_ & Htrace & Hmsgs' & Hturn'); [exact Hcall|].
    destruct Hpoint as (Hmsgs & Hround & Hle).
    exists rounds, (given ++ [Worker.messages st])%list. repeat split; try assumption.
    + exists (LLMToolResponse.content response). rewrite Hmsgs', Hmsgs. split; reflexivity.
    + congruence.
    + lia.
    + rewrite Htrace, dispatches_app. cbn. now rewrite app_nil_r.
    + rewrite Htrace, model_calls_app, Hcalls, <- app_assoc. reflexivity.
    + rewrite length_app. cbn. lia.
    + apply Forall_app. split; [assumption|]. constructor; [|constructor].
      exists rounds. split; assumption.
  - edestruct (@call_model_inv World) as (_ & Htrace & Hmsgs' & Hturn'); [exact Hcall|].
    destruct Hpoint as (Hmsgs & Hround & Hle).
    exists rounds, (given ++ [Worker.messages st])%list. repeat split; try assumption.
    + rewrite Hmsgs', Hmsgs. reflexivity.
    + congruence.
    + lia.
    + rewrite Htrace, dispatches_app. cbn. now rewrite app_nil_r.
    + rewrite Htrace, model_calls_app, Hcalls, <- app_assoc. reflexivity.
    + rewrite length_app. cbn. lia.
    + apply Forall_app. split; [assumption|]. constructor; [|constructor].
      exists rounds. split; assumption.
  - destruct (@run_tools_ok _ _ _ _ _ _ _ Hrun) as (results & -> & -> & Hids & _).
    destruct Hpoint as (Hmsgs & Hround & Hlt).
    exists (rounds ++ [(LLMToolResponse.content response, results)])%list, given.
    cbn [Worker.messages Worker.push Worker.turn Worker.trace].
    repeat split; try assumption.
    + apply Forall_app. split; [assumption|]. constructor; [exact Hids | constructor].
    + rewrite Hmsgs, rounds_turns_snoc. cbn. rewrite <- app_assoc. reflexivity.
    + rewrite length_app. cbn. lia.
    + rewrite dispatches_app, dispatches_dispatch, Hdisp, requested_snoc, <- app_assoc.
      reflexivity.
    + rewrite model_calls_app, model_calls_dispatch, app_nil_r. exact Hcalls.
    + rewrite length_app. cbn. lia.
Qed.

Lemma reachable_ledger (env0 : Env) (c : Worker.Point * Env) :
  reachable env0 c -> exists rounds given, ledger env0 c rounds given.
Proof.
  induction 1 as [|c c' _ (rounds & given & IH) Hstep].
  - exists [], []. cbn. rewrite !app_nil_r.
    repeat split; try constructor. unfold Worker.MAX_AGENT_TURNS. lia.
  - eapply step_ledger; eassumption.
Qed.

End LedgerFacts.

Section RunFacts.
Context {World : Type}.
Variable llm : Adapter.LLMAdapter World.
Variable toolExecutor : ToolExecutor.t World.
Variable systemPrompt userPrompt : string.

Local Abbreviation Env := (Worker.Env World).
Local Abbreviation call_model := (Worker.call_model llm toolExecutor systemPrompt).
Local Abbreviation run_tools := (Worker.run_tools toolExecutor).
Local Abbreviation loop_body := (Worker.loop_body llm toolExecutor systemPrompt).
Local Abbreviation for_turns := (Worker.for_turns llm toolExecutor systemPrompt).
Local Abbreviation run := (Worker.run llm toolExecutor systemPrompt userPrompt).
Local Abbreviation step := (Worker.step llm toolExecutor systemPrompt).
Local Abbreviation reachable := (Worker.reachable llm toolExecutor systemPrompt userPrompt).
Local Abbreviation tool_definitions := (ToolExecutor.getDefinitions toolExecutor).
Local Abbreviation next_turn st :=
  (Worker.mk_locals (Worker.messages st) (Worker.totalTokens st) (S (Worker.turn st))).

Lemma for_turns_S_throws (remaining : nat) (st : Worker.Locals) (env env1 : Env) err :
  call_model st env = (env1, inl err) ->
  for_turns (S remaining) st env = (env1, inl err).
Proof.
  intros Hcall. cbn [Worker.for_turns]. unfold IO.bind at 1.
  erewrite loop_body_throws by exact Hcall. reflexivity.
Qed.

Lemma for_turns_S_done (remaining : nat) (st st1 : Worker.Locals) (env env1 : Env) response :
  call_model st env = (env1, inr (st1, response)) ->
  Worker.llm_is_done response = true ->
  for_turns (S remaining) st env
  = (env1, inr (Worker.done (Worker.final_text response) st1)).
Proof.
  intros Hcall Hdone. cbn [Worker.for_turns]. unfold IO.bind at 1.
  erewrite loop_body_done by eassumption. reflexivity.
Qed.

Lemma for_turns_S_tools (remaining : nat) (st st1 st2 : Worker.Locals) (env env1 env2 : Env)
    response :
  call_model st env = (env1, inr (st1, response)) ->
  Worker.llm_is_done response = false ->
  run_tools st1 response env1 = (env2, inr st2) ->
  for_turns (S remaining) st env = for_turns remaining (next_turn st2) env2.
Proof.
  intros Hcall Hdone Htools. cbn [Worker.for_turns]. unfold IO.bind at 1.
  erewrite loop_body_tools by eassumption. rewrite Htools. reflexivity.
Qed.

Lemma for_turns_S_stopped (remaining : nat) (st st1 : Worker.Locals) (env env1 env2 : Env)
    response err :
  call_model st env = (env1, inr (st1, response)) ->
  Worker.llm_is_done response = false ->
  run_tools st1 response env1 = (env2, inl err) ->
  for_turns (S remaining) st env = (env2, inl err).
Proof.
  intros Hcall Hdone Htools. cbn [Worker.for_turns]. unfold IO.bind at 1.
  erewrite loop_body_tools by eassumption. rewrite Htools. reflexivity.
Qed.

(** [run_tools] leaves the turn counter alone. *)
Lemma run_tools_turn (st st2 : Worker.Locals) response (env env2 : Env) :
  run_tools st response env = (env2, inr st2) -> Worker.turn st2 = Worker.turn st.
Proof.
  intros Hrun. destruct (@run_tools_ok _ _ _ _ _ _ _ Hrun) as (results & _ & -> & _).
  reflexivity.
Qed.

(** What is left of the run at a point it passes through. *)
Local Abbreviation rest_of_run c :=
  (match c with
   | (Worker.awaiting_model st, env) =>
       for_turns (Worker.MAX_AGENT_TURNS - Worker.turn st) st env
   | (Worker.executing_tools st response, env) =>
       match run_tools st response env with
       | (env2, inr st2) =>
           for_turns (Worker.MAX_AGENT_TURNS - S (Worker.turn st)) (next_turn st2) env2
       | (env2, inl err) => (env2, inl err)
       end
   | (Worker.finished e, env) => (env, inr e)
   end).


(** A run that rejects does so at a model call, or during the tool pass
    of a turn, of a point it reached. *)
Lemma for_turns_rejects (env0 : Env) (remaining : nat) :
  forall (st : Worker.Locals) (env env' : Env) err,
    reachable env0 (Worker.awaiting_model st, env) ->
    Worker.turn st + remaining = Worker.MAX_AGENT_TURNS ->
    for_turns remaining st env = (env', inl err) ->
    (exists st1 env1,
        reachable env0 (Worker.awaiting_model st1, env1)
        /\ Worker.turn st1 < Worker.MAX_AGENT_TURNS
        /\ call_model st1 env1 = (env', inl err))
    \/ (exists st1 response env1,
           reachable env0 (Worker.executing_tools st1 response, env1)
           /\ run_tools st1 response env1 = (env', inl err)).
Proof.
  induction remaining as [|remaining IH]; intros st env env' err Hreach Hturn Hrun.
  - discriminate.
  - destruct (call_model st env) as [env1 [err1|[st1 response]]] eqn:Hcall.
    + rewrite (for_turns_S_throws _ _ _ Hcall) in Hrun. injection Hrun as <- <-.
      left. exists st, env. repeat split; [assumption | lia | assumption].
    + destruct (Worker.llm_is_done response) eqn:Hdone.
      * rewrite (for_turns_S_done _ _ _ Hcall Hdone) in Hrun. discriminate.
      * assert (Hexec : reachable env0 (Worker.executing_tools st1 response, env1)).
        { eapply Worker.reachable_step; [exact Hreach|].
          eapply Worker.step_tool_use; [lia | exact Hcall | exact Hdone]. }
        destruct (run_tools st1 response env1) as [env2 [err2|st2]] eqn:Htools.
        -- rewrite (for_turns_S_stopped _ _ _ Hcall Hdone Htools) in Hrun.
           injection Hrun as <- <-. right. exists st1, response, env1. now split.
        -- rewrite (for_turns_S_tools _ _ _ Hcall Hdone Htools) in Hrun.
           eapply IH; [| |exact Hrun].
           ++ eapply Worker.reachable_step; [exact Hexec | eapply Worker.step_results, Htools].
           ++ edestruct (@call_model_inv World) as (_ & _ & _ & Hturn'); [exact Hcall|].
              cbn [Worker.turn]. rewrite (@run_tools_turn _ _ _ _ _ Htools). lia.
Qed.

Lemma call_model_rejects_iff (st : Worker.Locals) (env env' : Env) err :
  call_model st env = (env', inl err)
  <-> Adapter.completeWithTools llm systemPrompt (Worker.messages st) tool_definitions
        (Worker.world env) = (Worker.world env', inl err)
      /\ Worker.trace env' = (Worker.trace env ++ [Worker.model_call (Worker.messages st)])%list.
Proof.
  split.
  - intros Hcall.
    destruct (Adapter.completeWithTools llm systemPrompt (Worker.messages st) tool_definitions
                (Worker.world env)) as [w1 [err1|response]] eqn:Hllm.
    + erewrite call_model_throws in Hcall by exact Hllm.
      injection Hcall as <- <-. split; reflexivity.
    + erewrite call_model_ok in Hcall by exact Hllm. discriminate.
  - intros [Hllm Htrace]. erewrite call_model_throws by exact Hllm.
    rewrite <- Htrace. destruct env'. reflexivity.
Qed.

(** The conversations a run hands to the model, whether it returns or
    rejects: at least one, at most [MAX_AGENT_TURNS], each one the prompt
    followed by answered rounds. *)
Lemma run_given (env0 : Env) :
  exists given,
    model_calls (Worker.trace (fst (run env0)))
    = (model_calls (Worker.trace env0) ++ given)%list
    /\ 1 <= length given <= Worker.MAX_AGENT_TURNS
    /\ Forall (answered_conversation userPrompt) given.
Proof.
  destruct (run env0) as [env' [err|e]] eqn:Hrun; cbn [fst].
  - edestruct for_turns_rejects
      as [(st & env & Hreach & Hturn & Hcall)|(st & response & env & Hreach & Htools)];
      [apply Worker.reachable_start | reflexivity | exact Hrun | |].
    + destruct (reachable_ledger Hreach)
        as (rounds & given & Hans & (Hmsgs & Hround & _) & _ & Hcalls & Hlen & Hgiven).
      apply call_model_rejects_iff in Hcall as [_ Htrace].
      cbn [fst snd calls_at] in *.
      exists (given ++ [Worker.messages st])%list. split; [|split].
      * rewrite Htrace, model_calls_app, Hcalls, <- app_assoc. reflexivity.
      * rewrite length_app. cbn. lia.
      * apply Forall_app. split; [assumption|]. constructor; [|constructor].
        exists rounds. split; assumption.
    + destruct (reachable_ledger Hreach)
        as (rounds & given & Hans & (Hmsgs & Hround & Hlt) & _ & Hcalls & Hlen & Hgiven).
      destruct (run_tools_trace toolExecutor st response env) as (ran & Htrace).
      rewrite Htools in Htrace. cbn [fst snd calls_at] in *.
      exists given. split; [|split].
      * rewrite Htrace, model_calls_app, model_calls_dispatch, app_nil_r. exact Hcalls.
      * unfold Worker.MAX_AGENT_TURNS in *. lia.
      * exact Hgiven.
  - destruct (reachable_ledger (run_reachable _ _ _ _ _ Hrun))
      as (rounds & given & _ & Hpoint & _ & Hcalls & Hlen & Hgiven).
    cbn [fst snd] in *. exists given. split; [exact Hcalls|]. split; [|exact Hgiven].
    destruct e as [answer st|answer st]; cbn [point_ledger calls_at] in *;
      unfold Worker.MAX_AGENT_TURNS in *; lia.
Qed.

(** X4.  Whatever the provider and the tools do, and whether the run
    returns or rejects, [agenticLoop] calls the model at least once and at
    most 25 times. *)
Theorem run_calls_model_at_most_25_times (env0 : Env) :
  exists given,
    model_calls (Worker.trace (fst (run env0)))
    = (model_calls (Worker.trace env0) ++ given)%list
    /\ 1 <= length given <= 25.
Proof.
  destruct (run_given env0) as (given & Hcalls & Hbound & _).
  exists given. split; [exact Hcalls | exact Hbound].
Qed.





End RunFacts.




(* ================================================================== *)
(** * The adapters: failures and response parsing *)
(* ================================================================== *)

Section AdapterFailures.
Context {World : Type}.
Variable host : Host.t World.
Variables apiKey model systemPrompt : string.
Variable messages : list LLMMessage.t.
Variable tools : list ToolDefinition.t.

(** X9.  Failure semantics of [completeWithTools], for the three
    vendors alike: when [fetch] rejects, the call rejects with the same
    value; when the response has a non-success status, the call reads the
    body and rejects with an [Error] whose message names the vendor, the
    status code and the body, or, when reading the body rejects, with
    what the reading rejects with.  In each case the world is as that one
    [fetch] left it: nothing is retried and the body is not parsed. *)
Theorem completeWithTools_failure_semantics (w w1 : World) (err : JS.Thrown) :
  (forall settled,
      Host.fetch_anthropic host
        (anthropic_tools_request apiKey model systemPrompt messages tools) w = (w1, settled) ->
      fetch_failure "Anthropic" settled = Some err ->
      Adapter.Anthropic_completeWithTools host apiKey model systemPrompt messages tools w
      = (w1, inl err))
  /\ (forall settled,
      Host.fetch_openai host
        (openai_tools_request host apiKey model systemPrompt messages tools) w = (w1, settled) ->
      fetch_failure "OpenAI" settled = Some err ->
      Adapter.OpenAI_completeWithTools host apiKey model systemPrompt messages tools w
      = (w1, inl err))
  /\ (forall settled,
      Host.fetch_google host
        (google_tools_request apiKey model systemPrompt messages tools) w = (w1, settled) ->
      fetch_failure "Google" settled = Some err ->
      Adapter.Google_completeWithTools host apiKey model systemPrompt messages tools w
      = (w1, inl err)).
Proof.
  repeat split; intros [thrown | res] Hfetch Hfail; cbn in Hfail;
    try (destruct (Http.ok res) eqn:Hok; [discriminate|]);
    injection Hfail as <-.
  - unfold Adapter.Anthropic_completeWithTools, IO.bind.
    unfold anthropic_tools_request in Hfetch. now rewrite Hfetch.
  - unfold Adapter.Anthropic_completeWithTools, IO.bind.
    unfold anthropic_tools_request in Hfetch.
    now rewrite Hfetch, (read_json_not_ok _ _ _ Hok).
  - unfold Adapter.OpenAI_completeWithTools, IO.bind.
    unfold openai_tools_request in Hfetch. now rewrite Hfetch.
  - unfold Adapter.OpenAI_completeWithTools, IO.bind.
    unfold openai_tools_request in Hfetch.
    now rewrite Hfetch, (read_json_not_ok _ _ _ Hok).
  - unfold Adapter.Google_completeWithTools, IO.bind.
    unfold google_tools_request in Hfetch. now rewrite Hfetch.
  - unfold Adapter.Google_completeWithTools, IO.bind.
    unfold google_tools_request in Hfetch.
    now rewrite Hfetch, (read_json_not_ok _ _ _ Hok).
Qed.

End AdapterFailures.

(** A rate-limited Anthropic endpoint: the one request is logged and the
    call rejects with the status and the body.  A gateway that drops the
    connection while the body is read: the call rejects with the error of
    the reading. *)
Lemma completeWithTools_failure_witness :
  let limited :=
    Host.mk (Stub.refusing AnthropicWire.data 429 "rate limited")
            (Stub.answering Stub.no_openai) (Stub.answering Stub.no_google)
            (fun _ => inr []) (fun _ => "{}") (fun log => (log, inr "gemini_0_abcdef"))
            JS.ascii_toLowerCase in
  let dropped : Http.Response AnthropicWire.data :=
    Http.mk_response false 502 (inl (JS.ErrorObject "TypeError" "terminated"))
                     (inl (JS.ErrorObject "TypeError" "terminated")) in
  let dropping :=
    Host.mk (fun req log => ((log ++ [req])%list, inr dropped))
            (Stub.answering Stub.no_openai) (Stub.answering Stub.no_google)
            (fun _ => inr []) (fun _ => "{}") (fun log => (log, inr "gemini_0_abcdef"))
            JS.ascii_toLowerCase in
  let prompt := [LLMMessage.mk user (content_string "task")] in
  Adapter.Anthropic_completeWithTools limited "sk-key" "claude" "system" prompt [] []
  = ([anthropic_tools_request "sk-key" "claude" "system" prompt []],
     inl (JS.ErrorObject "Error" "Anthropic API error 429: rate limited"))
  /\ Adapter.Anthropic_completeWithTools dropping "sk-key" "claude" "system" prompt [] []
     = ([anthropic_tools_request "sk-key" "claude" "system" prompt []],
        inl (JS.ErrorObject "TypeError" "terminated")).
Proof.
  intros limited dropped dropping prompt. split.
  - apply (proj1 (completeWithTools_failure_semantics limited "sk-key" "claude" "system"
                    prompt [] [] [anthropic_tools_request "sk-key" "claude" "system" prompt []]
                    (JS.ErrorObject "Error" "Anthropic API error 429: rate limited"))
             (inr (Http.mk_response false 429 (inr "rate limited")
                     (inl (JS.ErrorObject "SyntaxError" "Unexpected token"))))).
    + reflexivity.
    + vm_compute. reflexivity.
  - apply (proj1 (completeWithTools_failure_semantics dropping "sk-key" "claude" "system"
                    prompt [] [] [anthropic_tools_request "sk-key" "claude" "system" prompt []]
                    (JS.ErrorObject "TypeError" "terminated"))
             (inr dropped)).
    + reflexivity.
    + reflexivity.
Defined.

Section AdapterParsing.
Context {World : Type}.
Variable host : Host.t World.

Lemma join_singleton (s : string) : JS.join "" [s] = s.
Proof. reflexivity. Qed.

Lemma truthy_false (s : string) : JS.truthy s = false -> s = "".
Proof.
  unfold JS.truthy. destruct (String.eqb_spec s ""); [auto | discriminate].
Qed.

Lemma texts_of_app (xs ys : list ContentBlock) :
  texts_of (xs ++ ys) = (texts_of xs ++ texts_of ys)%list.
Proof.
  induction xs as [|[s|id name input] xs IH]; cbn; [reflexivity| |exact IH].
  now rewrite IH.
Qed.

Lemma tool_uses_of_app (xs ys : list ContentBlock) :
  tool_uses_of (xs ++ ys) = (tool_uses_of xs ++ tool_uses_of ys)%list.
Proof.
  induction xs as [|[s|id name input] xs IH]; cbn; [reflexivity|exact IH|].
  now rewrite IH.
Qed.

(** The loop over [tool_calls]: on success one [tool_use] block per
    call and nothing else. *)
Lemma openai_tool_uses_ok calls blocks :
  Adapter.openai_tool_uses host calls = inr blocks ->
  texts_of blocks = [] /\ Forall2 (read_as host) calls (tool_uses_of blocks).
Proof.
  revert blocks. induction calls as [|tc calls IH]; cbn; intros blocks H.
  - injection H as <-. split; [reflexivity | constructor].
  - destruct (Host.JSON_parse host _) as [err|input] eqn:Hparse; [discriminate|].
    destruct (Adapter.openai_tool_uses host calls) as [err|rest]; [discriminate|].
    injection H as <-. destruct (IH rest eq_refl) as [Htexts Hcalls].
    split; [exact Htexts|]. cbn. constructor; [|exact Hcalls].
    repeat split. exact Hparse.
Qed.

Lemma openai_choices_inr (data : OpenAIWire.data) (choices : list OpenAIWire.choice) :
  Adapter.openai_choices data = inr choices <-> OpenAIWire.choices data = Some choices.
Proof.
  unfold Adapter.openai_choices. destruct (OpenAIWire.choices data).
  - split; now intros [= ->].
  - split; discriminate.
Qed.


(** The text of a parsed OpenAI answer is the content [complete] reads;
    provider, model and token count are those of [complete]. *)
Lemma openai_tool_calls_shape (model : string) (data : OpenAIWire.data)
    (response : LLMToolResponse.t) :
  Adapter.openai_parse host model data = inr response ->
  exists choices,
    Adapter.openai_choices data = inr choices
    /\ JS.join "" (texts_of (LLMToolResponse.content response))
       = Adapter.openai_first_content choices
    /\ "openai" = LLMToolResponse.provider response
    /\ model = LLMToolResponse.model response
    /\ OpenAIWire.usage_total_tokens data = LLMToolResponse.tokensUsed response.
Proof.
  unfold Adapter.openai_parse, Adapter.openai_first_content.
  destruct (Adapter.openai_choices data) as [err|[|choice rest]]; [discriminate..|].
  exists (choice :: rest). split; [reflexivity|]. revert H.
  destruct (OpenAIWire.message choice) as [message|]; [|discriminate].
  destruct (match OpenAIWire.tool_calls message with
            | Some calls => Adapter.openai_tool_uses host calls
            | None => inr []
            end) as [err|tool_blocks] eqn:Htools; [discriminate|].
  intros [= <-]. cbn. repeat split. rewrite texts_of_app.
  assert (Htexts : texts_of tool_blocks = []).
  { destruct (OpenAIWire.tool_calls message) as [calls|].
    - now apply openai_tool_uses_ok in Htools.
    - now injection Htools as <-. }
  rewrite Htexts, app_nil_r.
  destruct (OpenAIWire.content message) as [content|]; [|reflexivity].
  destruct (JS.truthy content) eqn:Htruthy; [apply join_singleton|].
  now rewrite (truthy_false _ Htruthy).
Qed.

(** X10.  What [OpenAIAdapter.completeWithTools] makes of a parsed
    answer: only the first choice is read; the [tool_use] blocks are its
    tool calls, one for one and in order, under the same identifiers and
    names, each input being [JSON.parse] of the call's argument string;
    and the text of the blocks is the content [complete] would return for
    the same answer. *)
Theorem openai_tool_calls_become_tool_uses (model : string) (data : OpenAIWire.data)
    (response : LLMToolResponse.t) :
  Adapter.openai_parse host model data = inr response ->
  exists choice rest message,
    OpenAIWire.choices data = Some (choice :: rest)
    /\ OpenAIWire.message choice = Some message
    /\ Forall2 (read_as host) (openai_calls message)
               (tool_uses_of (LLMToolResponse.content response))
    /\ length (texts_of (LLMToolResponse.content response)) <= 1
    /\ JS.join "" (texts_of (LLMToolResponse.content response))
       = Adapter.openai_first_content (choice :: rest).
Proof.
  unfold Adapter.openai_parse, Adapter.openai_first_content, openai_calls.
  destruct (Adapter.openai_choices data) as [err|[|choice rest]] eqn:Hchoices;
    [discriminate..|].
  apply openai_choices_inr in Hchoices.
  destruct (OpenAIWire.message choice) as [message|] eqn:Hmessage; [|discriminate].
  destruct (match OpenAIWire.tool_calls message with
            | Some calls => Adapter.openai_tool_uses host calls
            | None => inr []
            end) as [err|tool_blocks] eqn:Htools; [discriminate|].
  intros [= <-]. exists choice, rest, message. rewrite Hmessage.
  cbn [LLMToolResponse.content]. rewrite texts_of_app, tool_uses_of_app.
  assert (Hblocks : texts_of tool_blocks = []
                    /\ Forall2 (read_as host)
                         (match OpenAIWire.tool_calls message with
                          | Some calls => calls
                          | None => []
                          end) (tool_uses_of tool_blocks)).
  { destruct (OpenAIWire.tool_calls message) as [calls|].
    - now apply openai_tool_uses_ok.
    - injection Htools as <-. split; [reflexivity | constructor]. }
  destruct Hblocks as [Htexts Hcalls]. rewrite Htexts, app_nil_r.
  split; [exact Hchoices|]. split; [reflexivity|]. split; [|split].
  - destruct (OpenAIWire.content message) as [content|]; [|exact Hcalls].
    destruct (JS.truthy content); exact Hcalls.
  - destruct (OpenAIWire.content message) as [content|]; [|cbn; lia].
    destruct (JS.truthy content); cbn; lia.
  - destruct (OpenAIWire.content message) as [content|]; [|reflexivity].
    destruct (JS.truthy content) eqn:Htruthy; [apply join_singleton|].
    now rewrite (truthy_false _ Htruthy).
Qed.


End AdapterParsing.

(** An answer with a text and one tool call, on the stub host. *)
Lemma openai_tool_calls_witness :
  let host := Stub.host Stub.no_anthropic Stub.no_openai Stub.no_google in
  let tc := OpenAIWire.mk_call "call_1" "echo" "{}" in
  let message := OpenAIWire.mk_message (Some "Let me check.") (Some [tc]) in
  let data :=
    OpenAIWire.mk (Some [OpenAIWire.mk_choice (Some message) "tool_calls"]) (Some 12%Z) in
  let response :=
    LLMToolResponse.mk [text_block "Let me check."; tool_use_block "call_1" "echo" (Some [])]
                       "tool_use" "openai" "gpt-4o" (Some 12%Z) in
  Adapter.openai_parse host "gpt-4o" data = inr response
  /\ exists choice rest message,
      OpenAIWire.choices data = Some (choice :: rest)
      /\ OpenAIWire.message choice = Some message
      /\ Forall2 (read_as host) (openai_calls message)
                 (tool_uses_of (LLMToolResponse.content response))
      /\ length (texts_of (LLMToolResponse.content response)) <= 1
      /\ JS.join "" (texts_of (LLMToolResponse.content response))
         = Adapter.openai_first_content (choice :: rest).
Proof.
  intros host tc message data response. split; [reflexivity|].
  apply (openai_tool_calls_become_tool_uses host "gpt-4o" data). reflexivity.
Defined.

Section GoogleParsing.
Context {World : Type}.
Variable host : Host.t World.

Lemma google_blocks_ok parts (w w' : World) blocks :
  Adapter.google_blocks host parts w = (w', inr blocks) ->
  texts_of blocks = google_texts parts
  /\ map (fun call => (ToolCall.name call, ToolCall.input call)) (tool_uses_of blocks)
     = google_calls parts.
Proof.
  revert w w' blocks. induction parts as [|[s|name args|] parts IH]; cbn; intros w w' blocks H.
  - injection H as _ <-. split; reflexivity.
  - unfold IO.bind in H.
    destruct (Adapter.google_blocks host parts w) as [w1 [err|rest]] eqn:Hrest; [discriminate|].
    injection H as _ <-. destruct (IH _ _ _ Hrest) as [Htexts Hcalls].
    cbn. now rewrite Htexts.
  - unfold IO.bind in H.
    destruct (Host.gemini_id host w) as [w1 [err|id]]; [discriminate|].
    destruct (Adapter.google_blocks host parts w1) as [w2 [err|rest]] eqn:Hrest; [discriminate|].
    injection H as _ <-. destruct (IH _ _ _ Hrest) as [Htexts Hcalls].
    cbn. now rewrite Hcalls.
  - now apply IH in H.
Qed.

Lemma has_tool_use_calls blocks :
  existsb is_tool_use blocks
  = match tool_uses_of blocks with [] => false | _ :: _ => true end.
Proof.
  induction blocks as [|[s|id name input] blocks IH]; cbn; [reflexivity|exact IH|reflexivity].
Qed.

(** X12.  What [GoogleAdapter.completeWithTools] makes of an answer it
    resolves on: only the parts of the first candidate are read; the text
    blocks are its text parts and the [tool_use] blocks its [functionCall]
    parts, in order and with the same names and arguments; the stop
    reason is [tool_use] when there is a [functionCall] part and
    [end_turn] otherwise, so [finishReason] is not read and [max_tokens]
    never reported. *)
Theorem google_parts_become_blocks apiKey model systemPrompt messages tools
    (w w' : World) (response : LLMToolResponse.t) :
  Adapter.Google_completeWithTools host apiKey model systemPrompt messages tools w
  = (w', inr response) ->
  exists w1 res data candidates parts,
    Host.fetch_google host
      (google_tools_request apiKey model systemPrompt messages tools) w = (w1, inr res)
    /\ Http.ok res = true
    /\ Http.json res = inr data
    /\ GoogleWire.candidates data = Some candidates
    /\ parts = match Adapter.google_first_parts candidates with
               | Some parts => parts
               | None => []
               end
    /\ texts_of (LLMToolResponse.content response) = google_texts parts
    /\ map (fun call => (ToolCall.name call, ToolCall.input call))
           (tool_uses_of (LLMToolResponse.content response))
       = google_calls parts
    /\ LLMToolResponse.stopReason response
       = match google_calls parts with [] => "end_turn" | _ :: _ => "tool_use" end.
Proof.
  unfold Adapter.Google_completeWithTools, IO.bind, google_tools_request.
  destruct (Host.fetch_google host _ w) as [w1 [err|res]]; [discriminate|].
  unfold Adapter.read_json.
  destruct (Http.ok res) eqn:Hok; cbn [negb]; [|destruct (Http.text res); discriminate].
  destruct (Http.json res) as [err|data] eqn:Hjson; [discriminate|].
  unfold IO.ret at 1. unfold Adapter.google_candidates.
  destruct (GoogleWire.candidates data) as [candidates|] eqn:Hcandidates; [|discriminate].
  destruct (Adapter.google_blocks host _ w1) as [w2 [err|blocks]] eqn:Hblocks; [discriminate|].
  unfold IO.ret. intros [= <- <-].
  destruct (google_blocks_ok _ _ Hblocks) as [Htexts Hcalls].
  exists w1, res, data, candidates, (match Adapter.google_first_parts candidates with
                                     | Some parts => parts
                                     | None => []
                                     end).
  cbn [LLMToolResponse.content LLMToolResponse.stopReason].
  repeat (split; [reflexivity || assumption|]).
  rewrite <- Hcalls, has_tool_use_calls.
  destruct (tool_uses_of blocks); reflexivity.
Qed.

End GoogleParsing.

(** A Gemini answer cut short at the token limit, with a text, a function
    call and a part of another kind. *)
Lemma google_parts_witness :
  let parts := [GoogleWire.text "Checking."; GoogleWire.functionCall "echo" (Some []);
                GoogleWire.other_part] in
  let data :=
    GoogleWire.mk (Some [GoogleWire.mk_candidate (Some (GoogleWire.mk_content (Some parts)))
                                                 "MAX_TOKENS"]) None in
  let host := Stub.host Stub.no_anthropic Stub.no_openai data in
  let prompt := [LLMMessage.mk user (content_string "task")] in
  exists response,
    snd (Adapter.Google_completeWithTools host "key" "gemini" "system" prompt [] [])
    = inr response
    /\ LLMToolResponse.stopReason response = "tool_use"
    /\ exists w1 res data' candidates parts',
        Host.fetch_google host (google_tools_request "key" "gemini" "system" prompt []) []
        = (w1, inr res)
        /\ Http.ok res = true
        /\ Http.json res = inr data'
        /\ GoogleWire.candidates data' = Some candidates
        /\ parts' = match Adapter.google_first_parts candidates with
                    | Some parts => parts
                    | None => []
                    end
        /\ texts_of (LLMToolResponse.content response) = google_texts parts'
        /\ map (fun call => (ToolCall.name call, ToolCall.input call))
               (tool_uses_of (LLMToolResponse.content response))
           = google_calls parts'
        /\ LLMToolResponse.stopReason response
           = match google_calls parts' with [] => "end_turn" | _ :: _ => "tool_use" end.
Proof.
  intros parts data host prompt. eexists. split; [reflexivity|]. split; [reflexivity|].
  eapply (google_parts_become_blocks host "key" "gemini" "system" prompt [] []).
  cbv. reflexivity.
Defined.

Section AdapterAgreement.
Context {World : Type}.
Variable host : Host.t World.
Variables apiKey model systemPrompt userPrompt : string.
Variable messages : list LLMMessage.t.
Variable tools : list ToolDefinition.t.

Lemma anthropic_texts_blocks (blocks : list AnthropicWire.block) :
  Adapter.anthropic_texts blocks = texts_of (map Adapter.anthropic_block blocks).
Proof.
  induction blocks as [|[s|id name input] blocks IH]; cbn; [reflexivity| |exact IH].
  now rewrite IH.
Qed.

Lemma append_empty_r (s : string) : s ++ "" = s.
Proof. induction s as [|c s IH]; cbn; [reflexivity | now rewrite IH]. Qed.

Lemma google_part_texts (parts : list GoogleWire.part) :
  JS.join "" (map Adapter.google_part_text parts) = JS.join "" (google_texts parts).
Proof.
  unfold JS.join.
  induction parts as [|p parts IH]; [reflexivity|].
  assert (Hcons : forall s xs, String.concat "" (s :: xs) = s ++ String.concat "" xs).
  { intros s [|x xs]; cbn; [now rewrite append_empty_r | reflexivity]. }
  cbn [map]. rewrite Hcons, IH.
  destruct p as [s|name args|]; cbn [Adapter.google_part_text google_texts];
    [now rewrite Hcons | reflexivity | reflexivity].
Qed.

(** X13.  [complete] and [completeWithTools] read an answer alike.  If
    the endpoint answers both requests with the same data, then whenever
    [completeWithTools] resolves, [complete] resolves too, the content of
    the completion is the concatenated text of the response's blocks, and
    the provider, the model and the token count are the same.  For the
    three vendors. *)
Theorem complete_agrees_with_completeWithTools (w v : World) :
  (forall data v1 tooled,
      answers_with (Host.fetch_anthropic host)
        (anthropic_complete_request apiKey model systemPrompt userPrompt) w data ->
      answers_with (Host.fetch_anthropic host)
        (anthropic_tools_request apiKey model systemPrompt messages tools) v data ->
      Adapter.Anthropic_completeWithTools host apiKey model systemPrompt messages tools v
      = (v1, inr tooled) ->
      exists w1 plain,
        Adapter.Anthropic_complete host apiKey model systemPrompt userPrompt w
        = (w1, inr plain)
        /\ same_answer plain tooled)
  /\ (forall data v1 tooled,
      answers_with (Host.fetch_openai host)
        (openai_complete_request apiKey model systemPrompt userPrompt) w data ->
      answers_with (Host.fetch_openai host)
        (openai_tools_request host apiKey model systemPrompt messages tools) v data ->
      Adapter.OpenAI_completeWithTools host apiKey model systemPrompt messages tools v
      = (v1, inr tooled) ->
      exists w1 plain,
        Adapter.OpenAI_complete host apiKey model systemPrompt userPrompt w
        = (w1, inr plain)
        /\ same_answer plain tooled)
  /\ (forall data v1 tooled,
      answers_with (Host.fetch_google host)
        (google_complete_request apiKey model systemPrompt userPrompt) w data ->
      answers_with (Host.fetch_google host)
        (google_tools_request apiKey model systemPrompt messages tools) v data ->
      Adapter.Google_completeWithTools host apiKey model systemPrompt messages tools v
      = (v1, inr tooled) ->
      exists w1 plain,
        Adapter.Google_complete host apiKey model systemPrompt userPrompt w
        = (w1, inr plain)
        /\ same_answer plain tooled).
Proof.
  unfold same_answer.
  split; [|split]; intros data v2 tooled (w1 & res & Hfetch & Hok & Hjson)
                               (v1 & res' & Hfetch' & Hok' & Hjson');
    rewrite <- texts_of_segments.
  - unfold anthropic_complete_request in Hfetch. unfold anthropic_tools_request in Hfetch'.
    unfold Adapter.Anthropic_complete, Adapter.Anthropic_completeWithTools, IO.bind.
    rewrite Hfetch, Hfetch', (read_json_ok _ _ _ Hok Hjson), (read_json_ok _ _ _ Hok' Hjson').
    unfold IO.ret. intros [= <- <-]. eexists _, _. split; [reflexivity|].
    repeat split. cbn. now rewrite anthropic_texts_blocks.
  - unfold openai_complete_request in Hfetch. unfold openai_tools_request in Hfetch'.
    unfold Adapter.OpenAI_complete, Adapter.OpenAI_completeWithTools, IO.bind.
    rewrite Hfetch, Hfetch', (read_json_ok _ _ _ Hok Hjson), (read_json_ok _ _ _ Hok' Hjson').
    intros Hparse.
    destruct (Adapter.openai_parse host model data) as [err|r] eqn:Hr; [discriminate|].
    injection Hparse as _ <-.
    destruct (@openai_tool_calls_shape World host model data r Hr)
      as (choices & -> & Hjoin & Hrest).
    eexists _, _. split; [reflexivity|].
    split; [cbn; now rewrite <- Hjoin | exact Hrest].
  - unfold google_complete_request in Hfetch. unfold google_tools_request in Hfetch'.
    unfold Adapter.Google_complete, Adapter.Google_completeWithTools, IO.bind.
    rewrite Hfetch, Hfetch', (read_json_ok _ _ _ Hok Hjson), (read_json_ok _ _ _ Hok' Hjson').
    destruct (Adapter.google_candidates data) as [err|candidates]; [discriminate|].
    intros Hrun.
    destruct (Adapter.google_blocks host _ v1) as [v3 [err|blocks]] eqn:Hblocks;
      [discriminate|].
    injection Hrun as _ <-. apply google_blocks_ok in Hblocks as [Htexts _].
    eexists _, _. split; [reflexivity|].
    repeat split. cbn. rewrite Htexts.
    destruct (Adapter.google_first_parts candidates) as [parts|]; [apply google_part_texts|].
    reflexivity.
Qed.

End AdapterAgreement.

(** The same answer to both requests, on the stub host. *)
Lemma complete_agrees_witness :
  let message := OpenAIWire.mk_message (Some "Forty-two.") None in
  let data := OpenAIWire.mk (Some [OpenAIWire.mk_choice (Some message) "stop"]) (Some 7%Z) in
  let host := Stub.host Stub.no_anthropic data Stub.no_google in
  let prompt := [LLMMessage.mk user (content_string "task")] in
  let tooled :=
    LLMToolResponse.mk [text_block "Forty-two."] "end_turn" "openai" "gpt-4o" (Some 7%Z) in
  Adapter.OpenAI_completeWithTools host "sk-key" "gpt-4o" "system" prompt [] []
  = ([openai_tools_request host "sk-key" "gpt-4o" "system" prompt []], inr tooled)
  /\ snd (Adapter.OpenAI_complete host "sk-key" "gpt-4o" "system" "task" [])
     = inr (LLMResponse.mk "Forty-two." "openai" "gpt-4o" (Some 7%Z))
  /\ exists w1 plain,
      Adapter.OpenAI_complete host "sk-key" "gpt-4o" "system" "task" [] = (w1, inr plain)
      /\ same_answer plain tooled.
Proof.
  intros message data host prompt tooled.
  split; [reflexivity|]. split; [reflexivity|].
  apply (proj1 (proj2 (complete_agrees_with_completeWithTools
                         host "sk-key" "gpt-4o" "system" "task" prompt [] [] []))
           data [openai_tools_request host "sk-key" "gpt-4o" "system" prompt []] tooled).
  - eexists _, _. repeat split; reflexivity.
  - eexists _, _. repeat split; reflexivity.
  - reflexivity.
Defined.

Section RequestTranslation.
Context {World : Type}.
Variable host : Host.t World.
Variables apiKey model systemPrompt userPrompt : string.
Variable tools : list ToolDefinition.t.

Lemma openai_tool_calls_ids (blocks : list ContentBlock) :
  map OpenAIRequest.id (Adapter.openai_tool_calls host blocks)
  = map ToolCall.id (tool_uses_of blocks).
Proof.
  induction blocks as [|[s|id name input] blocks IH]; cbn; [reflexivity|exact IH|].
  now rewrite IH.
Qed.

Lemma openai_assistant_ids (blocks : list ContentBlock) :
  exists text calls,
    Adapter.openai_assistant host blocks = OpenAIRequest.assistant_msg text calls
    /\ openai_call_ids calls = map ToolCall.id (tool_uses_of blocks).
Proof.
  unfold Adapter.openai_assistant. eexists _, _. split; [reflexivity|].
  rewrite <- openai_tool_calls_ids.
  destruct (Adapter.openai_tool_calls host blocks); reflexivity.
Qed.

Lemma openai_rounds_answered (rounds : list Round) :
  Forall answers rounds ->
  openai_answered (flat_map (Adapter.openai_message host) (rounds_turns rounds)).
Proof.
  induction 1 as [|[blocks results] rounds Hround _ IH]; [constructor|].
  unfold rounds_turns in *. cbn [flat_map round_turns fst snd app].
  unfold answers in Hround. cbn [fst snd] in Hround.
  destruct (openai_assistant_ids blocks) as (text & calls & Hmsg & Hids).
  cbn [Adapter.openai_message LLMMessage.role LLMMessage.content app].
  rewrite Hmsg.
  destruct results as [|first rest].
  - apply (@openai_answered_round text calls []
             (OpenAIRequest.plain "user" (content_results []) :: _)).
    + now rewrite Hids, <- Hround.
    + constructor. exact IH.
  - rewrite <- (map_map (fun tr => (ToolResultContent.tool_use_id tr,
                                    ToolResultContent.content tr))
                        (fun r => OpenAIRequest.tool (fst r) (snd r))).
    apply openai_answered_round; [|exact IH].
    rewrite Hids, <- Hround, map_map. reflexivity.
Qed.

(** X14.  The OpenAI request for a conversation of answered rounds is
    well formed for tool use: after the system and the prompt message,
    [tool] messages only come in runs that directly follow an assistant
    message and carry, in order, exactly the identifiers of that
    message's [tool_calls]. *)
Theorem openai_request_answers_tool_calls (rounds : list Round) :
  Forall answers rounds ->
  exists translated,
    openai_tools_request host apiKey model systemPrompt
      (LLMMessage.mk user (content_string userPrompt) :: rounds_turns rounds) tools
    = Http.mk_request Adapter.openai_url (Adapter.openai_headers apiKey)
        (Http.openai_body model
           (OpenAIRequest.plain "system" (content_string systemPrompt)
              :: OpenAIRequest.plain "user" (content_string userPrompt) :: translated)
           4096 (Adapter.tools_field tools))
    /\ openai_answered translated.
Proof.
  intros Hrounds.
  exists (flat_map (Adapter.openai_message host) (rounds_turns rounds)).
  split; [reflexivity | now apply openai_rounds_answered].
Qed.

Lemma google_results_turn (results : list ToolResultContent.t) :
  forallb is_tool_response
    (map (fun tr => GoogleRequest.functionResponse "tool" (ToolResultContent.content tr))
         results) = true.
Proof. induction results as [|tr results IH]; [reflexivity | exact IH]. Qed.

Lemma google_blocks_turn (blocks : list ContentBlock) :
  google_request_calls
    (map (fun block =>
            match block with
            | text_block s => GoogleRequest.text s
            | tool_use_block _ name input => GoogleRequest.functionCall name input
            end) blocks)
  = length (tool_uses_of blocks).
Proof.
  induction blocks as [|[s|id name input] blocks IH]; cbn; [reflexivity|exact IH|].
  now rewrite IH.
Qed.

Lemma google_rounds_answered (rounds : list Round) :
  Forall answers rounds ->
  google_answered (map Adapter.google_content (rounds_turns rounds)).
Proof.
  induction 1 as [|[blocks results] rounds Hround _ IH]; [constructor|].
  unfold rounds_turns in *. cbn [flat_map round_turns fst snd app map].
  unfold answers in Hround. cbn [fst snd] in Hround.
  unfold Adapter.google_content at 1 2.
  cbn [LLMMessage.role LLMMessage.content Adapter.google_role].
  constructor; [apply google_results_turn | | exact IH].
  rewrite google_blocks_turn, length_map.
  rewrite <- (length_map ToolResultContent.tool_use_id), Hround. apply length_map.
Qed.

(** X15.  The Gemini request for a conversation of answered rounds: after
    the prompt turn the turns alternate between [model] and [user], and
    every [user] turn is made of function responses, as many as the
    [model] turn before it has function calls, each under the fixed name
    [tool] whatever function was called. *)
Theorem google_request_answers_function_calls (rounds : list Round) :
  Forall answers rounds ->
  exists turns,
    google_tools_request apiKey model systemPrompt
      (LLMMessage.mk user (content_string userPrompt) :: rounds_turns rounds) tools
    = Http.mk_request (Adapter.google_url apiKey model) Adapter.google_headers
        (Http.google_body systemPrompt
           (GoogleRequest.mk (Some "user") [GoogleRequest.text userPrompt] :: turns)
           4096 (Adapter.tools_field tools))
    /\ google_answered turns.
Proof.
  intros Hrounds. exists (map Adapter.google_content (rounds_turns rounds)).
  split; [reflexivity | now apply google_rounds_answered].
Qed.

End RequestTranslation.

(** One round with a text and a tool call, answered under the call's
    identifier. *)
Lemma openai_request_witness :
  let host := Stub.host Stub.no_anthropic Stub.no_openai Stub.no_google in
  let rounds := [([text_block "Checking."; tool_use_block "call_1" "echo" (Some [])],
                  [ToolResultContent.mk "call_1" "out" None])] in
  Forall answers rounds
  /\ exists translated,
      openai_tools_request host "sk-key" "gpt-4o" "system"
        (LLMMessage.mk user (content_string "task") :: rounds_turns rounds) []
      = Http.mk_request Adapter.openai_url (Adapter.openai_headers "sk-key")
          (Http.openai_body "gpt-4o"
             (OpenAIRequest.plain "system" (content_string "system")
                :: OpenAIRequest.plain "user" (content_string "task") :: translated)
             4096 (Adapter.tools_field []))
      /\ openai_answered translated.
Proof.
  intros host rounds.
  assert (Hrounds : Forall answers rounds) by (repeat constructor).
  split; [exact Hrounds|].
  apply (openai_request_answers_tool_calls host "sk-key" "gpt-4o" "system" "task" [] Hrounds).
Defined.

Lemma google_request_witness :
  let rounds := [([text_block "Checking."; tool_use_block "gemini_1" "echo" (Some [])],
                  [ToolResultContent.mk "gemini_1" "out" None])] in
  Forall answers rounds
  /\ exists turns,
      google_tools_request "key" "gemini" "system"
        (LLMMessage.mk user (content_string "task") :: rounds_turns rounds) []
      = Http.mk_request (Adapter.google_url "key" "gemini") Adapter.google_headers
          (Http.google_body "system"
             (GoogleRequest.mk (Some "user") [GoogleRequest.text "task"] :: turns)
             4096 (Adapter.tools_field []))
      /\ google_answered turns.
Proof.
  intros rounds.
  assert (Hrounds : Forall answers rounds) by (repeat constructor).
  split; [exact Hrounds|].
  apply (google_request_answers_function_calls "key" "gemini" "system" "task" [] Hrounds).
Defined.

Section FactoryOutcomes.
Context {World : Type}.
Variable host : Host.t World.

(** X16.  The three outcomes of [createLLMAdapter].  With an API key and
    a provider name that lower-cases to [__proto__] the lookup in
    [PROVIDERS] gives [Object.prototype] and [new] throws a [TypeError];
    with one that lower-cases to [constructor] it gives [Object] and the
    result is a [String] object, not an adapter; in every other case the
    result is an adapter. *)
Theorem createLLMAdapter_outcomes (provider apiKey model : string) :
  (apiKey <> "" -> Host.toLowerCase host provider = "__proto__" ->
   Adapter.createLLMAdapter host provider apiKey model
   = inl (JS.ErrorObject "TypeError" "Ctor is not a constructor"))
  /\ (apiKey <> "" -> Host.toLowerCase host provider = "constructor" ->
      Adapter.createLLMAdapter host provider apiKey model
      = inr (Adapter.String_object World provider))
  /\ (apiKey = ""
      \/ (Host.toLowerCase host provider <> "__proto__" /\ Host.toLowerCase host provider <> "constructor") ->
      exists a, Adapter.createLLMAdapter host provider apiKey model = inr (Adapter.adapter a)).
Proof.
  unfold Adapter.createLLMAdapter, Adapter.PROVIDERS, JS.truthy.
  split; [|split].
  - intros Hkey ->. apply String.eqb_neq in Hkey. now rewrite Hkey.
  - intros Hkey ->. apply String.eqb_neq in Hkey. now rewrite Hkey.
  - intros Hcase. destruct (String.eqb_spec apiKey "") as [|Hkey]; cbn [negb]; [eauto|].
    destruct Hcase as [|[Hproto Hctor]]; [contradiction|].
    destruct (String.eqb (Host.toLowerCase host provider) "anthropic"); [eauto|].
    destruct (String.eqb (Host.toLowerCase host provider) "openai"); [eauto|].
    destruct (String.eqb (Host.toLowerCase host provider) "google"); [eauto|].
    destruct (String.eqb_spec (Host.toLowerCase host provider) "constructor"); [contradiction|].
    destruct (String.eqb_spec (Host.toLowerCase host provider) "__proto__"); [contradiction|].
    eauto.
Qed.

End FactoryOutcomes.

Lemma createLLMAdapter_outcomes_witness :
  let host := Stub.host Stub.no_anthropic Stub.no_openai Stub.no_google in
  Adapter.createLLMAdapter host "__PROTO__" "sk-key" "gpt-4o"
  = inl (JS.ErrorObject "TypeError" "Ctor is not a constructor")
  /\ Adapter.createLLMAdapter host "Constructor" "sk-key" "gpt-4o"
     = inr (Adapter.String_object Stub.Log "Constructor")
  /\ exists a, Adapter.createLLMAdapter host "Mistral" "sk-key" "gpt-4o"
               = inr (Adapter.adapter a).
Proof.
  intros host. split; [|split].
  - apply (proj1 (createLLMAdapter_outcomes host "__PROTO__" "sk-key" "gpt-4o"));
      [discriminate | reflexivity].
  - apply (proj1 (proj2 (createLLMAdapter_outcomes host "Constructor" "sk-key" "gpt-4o")));
      [discriminate | reflexivity].
  - apply (proj2 (proj2 (createLLMAdapter_outcomes host "Mistral" "sk-key" "gpt-4o"))).
    right. split; discriminate.
Defined.

(** An OpenAI adapter made by the factory, on an answer cut short by the
    length limit. *)
Lemma created_adapter_stop_reason_witness :
  let message := OpenAIWire.mk_message (Some "Forty-") None in
  let data := OpenAIWire.mk (Some [OpenAIWire.mk_choice (Some message) "length"]) None in
  let host := Stub.host Stub.no_anthropic data Stub.no_google in
  let prompt := [LLMMessage.mk user (content_string "task")] in
  exists a response,
    Adapter.createLLMAdapter host "OpenAI" "sk-key" "gpt-4o" = inr (Adapter.adapter a)
    /\ snd (Adapter.completeWithTools a "system" prompt [] []) = inr response
    /\ LLMToolResponse.stopReason response = "max_tokens"
    /\ is_stop_reason (LLMToolResponse.stopReason response) = true.
Proof.
  intros message data host prompt. eexists _, _.
  split; [reflexivity|]. split; [reflexivity|]. split; [reflexivity|].
  eapply (@created_adapter_stop_reason Stub.Log host "OpenAI" "sk-key" "gpt-4o" _
            "system" prompt [] []).
  - reflexivity.
  - discriminate.
  - cbv. reflexivity.
Defined.

(* ================================================================== *)
(** * The task lifecycle *)
(* ================================================================== *)

Section LifecycleFacts.
Context {World : Type}.
Variable toLowerCase : string -> string.
Variable this : TaskWorker.t World.

Local Abbreviation Env := (Worker.Env World).
Local Abbreviation client := (TaskWorker.client this).

Lemma env_eq (a b : Env) :
  Worker.world a = Worker.world b -> Worker.trace a = Worker.trace b -> a = b.
Proof. destruct a, b. cbn. now intros -> ->. Qed.

(** [fetchAndClaimTask] in terms of the two client calls it makes. *)
Lemma fetchAndClaimTask_calls (env : Env) :
  TaskWorker.fetchAndClaimTask this env
  = match SpaceMarsClient.getAvailableTasks client 5 (Worker.world env) with
    | (w1, inl err) => (Worker.mk_env w1 (Worker.trace env), inl err)
    | (w1, inr listRes) =>
        match ApiResponse.success listRes, ApiResponse.data listRes with
        | true, Some (task :: _) =>
            match SpaceMarsClient.claimTask client (AvailableTask.id task) w1 with
            | (w2, inl err) => (Worker.mk_env w2 (Worker.trace env), inl err)
            | (w2, inr claimRes) =>
                (Worker.mk_env w2 (Worker.trace env),
                 inr (if ApiResponse.success claimRes then Some task else None))
            end
        | _, _ => (Worker.mk_env w1 (Worker.trace env), inr None)
        end
    end.
Proof.
  unfold TaskWorker.fetchAndClaimTask, IO.bind, Worker.call.
  destruct (SpaceMarsClient.getAvailableTasks client 5 (Worker.world env))
    as [w1 [err|listRes]]; [reflexivity|].
  destruct (ApiResponse.success listRes); cbn [negb]; [|reflexivity].
  destruct (ApiResponse.data listRes) as [[|task rest]|]; try reflexivity.
  cbn [Worker.world Worker.trace].
  destruct (SpaceMarsClient.claimTask client (AvailableTask.id task) w1)
    as [w2 [err|claimRes]]; [reflexivity|].
  destruct (ApiResponse.success claimRes); reflexivity.
Qed.

(** X18.  [fetchAndClaimTask] returns a task exactly when the list of at
    most five tasks came back successful and not empty and the claim of
    its first task succeeded; the task returned is that first one, no
    other task is claimed, and the model is not called. *)
Theorem fetchAndClaimTask_claims_first_listed (env env' : Env) (task : AvailableTask.t) :
  TaskWorker.fetchAndClaimTask this env = (env', inr (Some task))
  <-> exists w1 listRes rest claimRes,
        SpaceMarsClient.getAvailableTasks client 5 (Worker.world env) = (w1, inr listRes)
        /\ ApiResponse.success listRes = true
        /\ ApiResponse.data listRes = Some (task :: rest)
        /\ SpaceMarsClient.claimTask client (AvailableTask.id task) w1
           = (Worker.world env', inr claimRes)
        /\ ApiResponse.success claimRes = true
        /\ Worker.trace env' = Worker.trace env.
Proof.
  rewrite fetchAndClaimTask_calls. split.
  - destruct (SpaceMarsClient.getAvailableTasks client 5 (Worker.world env))
      as [w1 [err|listRes]]; [discriminate|].
    destruct (ApiResponse.success listRes) eqn:Hsuccess; [|discriminate].
    destruct (ApiResponse.data listRes) as [[|first rest]|] eqn:Hdata; try discriminate.
    destruct (SpaceMarsClient.claimTask client (AvailableTask.id first) w1)
      as [w2 [err|claimRes]] eqn:Hclaim; [discriminate|].
    destruct (ApiResponse.success claimRes) eqn:Hclaimed; [|discriminate].
    intros [= <- <-]. exists w1, listRes, rest, claimRes. repeat split; assumption.
  - intros (w1 & listRes & rest & claimRes & -> & -> & -> & -> & -> & Htrace).
    f_equal. apply env_eq; [reflexivity | now rewrite Htrace].
Qed.

(** X19.  [runOnce] rejects only before a task is claimed: exactly when
    listing the tasks rejects, or claiming the first listed task rejects.
    A failure of the model, of a tool or of the submission never makes it
    reject, and at a rejection the model has not been called. *)
Theorem runOnce_rejects_iff (env env' : Env) (err : JS.Thrown) :
  TaskWorker.runOnce toLowerCase this env = (env', inl err)
  <-> Worker.trace env' = Worker.trace env
      /\ (SpaceMarsClient.getAvailableTasks client 5 (Worker.world env)
          = (Worker.world env', inl err)
          \/ exists w1 listRes task rest,
              SpaceMarsClient.getAvailableTasks client 5 (Worker.world env) = (w1, inr listRes)
              /\ ApiResponse.success listRes = true
              /\ ApiResponse.data listRes = Some (task :: rest)
              /\ SpaceMarsClient.claimTask client (AvailableTask.id task) w1
                 = (Worker.world env', inl err)).
Proof.
  assert (Hnever : forall task env1,
             IO.try_catch
               (solution <- TaskWorker.solveTask toLowerCase this task ;;
                TaskWorker.submitSolution this (AvailableTask.id task) solution)
               (fun _ => IO.ret false) env1 <> (env', inl err)).
  { intros task env1. unfold IO.try_catch.
    destruct ((solution <- TaskWorker.solveTask toLowerCase this task ;;
               TaskWorker.submitSolution this (AvailableTask.id task) solution) env1)
      as [env2 [e|b]]; discriminate. }
  unfold TaskWorker.runOnce, IO.bind at 1. rewrite fetchAndClaimTask_calls. split.
  - destruct (SpaceMarsClient.getAvailableTasks client 5 (Worker.world env))
      as [w1 [e|listRes]].
    { intros [= <- <-]. split; [reflexivity | now left]. }
    destruct (ApiResponse.success listRes) eqn:Hsuccess; [|discriminate].
    destruct (ApiResponse.data listRes) as [[|first rest]|] eqn:Hdata; try discriminate.
    destruct (SpaceMarsClient.claimTask client (AvailableTask.id first) w1)
      as [w2 [e|claimRes]] eqn:Hclaim.
    + intros [= <- <-]. split; [reflexivity|]. right.
      exists w1, listRes, first, rest. repeat split; assumption.
    + destruct (ApiResponse.success claimRes); [|discriminate].
      intros H. now apply Hnever in H.
  - intros [Htrace [Hget | (w1 & listRes & task & rest & -> & -> & -> & ->)]].
    + rewrite Hget. f_equal. apply env_eq; [reflexivity | now rewrite Htrace].
    + f_equal. apply env_eq; [reflexivity | now rewrite Htrace].
Qed.

(** X20.  [runOnce] returns [true] exactly when a task was claimed,
    [solveTask] resolved on it, and the submission of that solution under
    the task's identifier came back successful. *)
Theorem runOnce_true_iff (env env' : Env) :
  TaskWorker.runOnce toLowerCase this env = (env', inr true)
  <-> exists env1 task env2 solution res,
        TaskWorker.fetchAndClaimTask this env = (env1, inr (Some task))
        /\ TaskWorker.solveTask toLowerCase this task env1 = (env2, inr solution)
        /\ SpaceMarsClient.submitResult client (AvailableTask.id task) solution
             (Worker.world env2) = (Worker.world env', inr res)
        /\ ApiResponse.success res = true
        /\ Worker.trace env' = Worker.trace env2.
Proof.
  unfold TaskWorker.runOnce, IO.bind at 1.
  destruct (TaskWorker.fetchAndClaimTask this env) as [env1 [err|[task|]]].
  1,3: split; [discriminate | intros (e1 & t & e2 & s & r & H & _); discriminate].
  unfold IO.try_catch, IO.bind at 1.
  destruct (TaskWorker.solveTask toLowerCase this task env1) as [env2 [err|solution]] eqn:Hsolve.
  { split; [discriminate|]. intros (e1 & t & e2 & s & r & [= <- <-] & H & _). congruence. }
  unfold TaskWorker.submitSolution, IO.bind, Worker.call, IO.ret.
  destruct (SpaceMarsClient.submitResult client (AvailableTask.id task) solution
              (Worker.world env2)) as [w3 [err|res]] eqn:Hsubmit; cbn.
  { split; [discriminate|].
    intros (e1 & t & e2 & s & r & [= <- <-] & Hs & H & _).
    rewrite Hsolve in Hs. injection Hs as <- <-. congruence. }
  split.
  - intros [= <- Hsuccess]. exists env1, task, env2, solution, res.
    repeat split; assumption.
  - intros (e1 & t & e2 & s & r & [= <- <-] & Hs & H & Hsuccess & Htrace).
    rewrite Hsolve in Hs. injection Hs as <- <-.
    rewrite Hsubmit in H. injection H as Hw <-. rewrite Hsuccess. f_equal.
    apply env_eq; [exact Hw | now rewrite Htrace].
Qed.

(** X21.  A claimed task whose solving rejects is abandoned: [runOnce]
    returns [false] in the state the failed attempt left, so nothing is
    submitted and the claim is not released. *)
Theorem unsolved_claim_is_abandoned (env env1 env2 : Env) (task : AvailableTask.t)
    (err : JS.Thrown) :
  TaskWorker.fetchAndClaimTask this env = (env1, inr (Some task)) ->
  TaskWorker.solveTask toLowerCase this task env1 = (env2, inl err) ->
  TaskWorker.runOnce toLowerCase this env = (env2, inr false).
Proof.
  intros Hclaim Hsolve. unfold TaskWorker.runOnce, IO.bind at 1. rewrite Hclaim.
  unfold IO.try_catch, IO.bind. rewrite Hsolve. reflexivity.
Qed.

End LifecycleFacts.

Section PlaceholderLifecycle.
Context {World : Type}.
Variable host : Host.t World.
Variable toLowerCase : string -> string.
Variable this : TaskWorker.t World.

Local Abbreviation Env := (Worker.Env World).

Lemma placeholder_complete_or_loop (a : Adapter.LLMAdapter World)
    (executor : option (ToolExecutor.t World)) (systemPrompt userPrompt : string) (env : Env) :
  a = Adapter.PlaceholderAdapter World "placeholder" "" "none" ->
  exists env',
    match executor with
    | None =>
        response <- Worker.call (Adapter.complete a systemPrompt userPrompt) ;;
        IO.ret (LLMResponse.content response)
    | Some executor => Worker.agenticLoop a executor systemPrompt userPrompt
    end env = (env', inr Adapter.placeholder_text)
    /\ Worker.world env' = Worker.world env.
Proof.
  intros ->. destruct executor as [executor|].
  - edestruct (@run_done_on_first_turn World
                 (Adapter.PlaceholderAdapter World "placeholder" "" "none")
                 executor systemPrompt userPrompt env)
      as (st & Hrun & _); [reflexivity | now left |].
    eexists. unfold Worker.agenticLoop, IO.bind. rewrite Hrun. split; reflexivity.
  - eexists. split; [reflexivity|]. destruct env; reflexivity.
Qed.

(** The configured skills of the task's mission all have strings for
    their name, category and description. *)
Local Abbreviation skills_readable task :=
  (forall skill,
      In skill (TaskWorker.skills this) -> of_mission task skill -> texts_are_strings skill).

(** One configured skill of the task's mission has a name, category or
    description that is not a string. *)
Local Abbreviation skill_unreadable task :=
  (exists skill,
      In skill (TaskWorker.skills this) /\ of_mission task skill
      /\ ~ texts_are_strings skill).

(** X22.  Without an API key the worker still claims and answers: with
    the adapter [createLLMAdapter] makes for an empty key,
    [solveDirectTask] resolves to the fixed placeholder text, with or
    without a tool executor and without touching the world, and so does
    [solveTask] on a task for which the name, the category and the
    description of every configured skill of its mission are strings;
    [runOnce] then submits that text as the solution of the task it
    claimed.  When one of those fields of such a skill is not a string,
    [solveTask] rejects with the [TypeError] of the skill selection before
    the adapter is called, and [runOnce] returns [false] with the task
    claimed and nothing submitted. *)
Theorem placeholder_text_is_submitted (provider model : string) (env : Env) :
  Adapter.createLLMAdapter host provider "" model
  = inr (Adapter.adapter (TaskWorker.llm this)) ->
  (forall description, exists env',
      TaskWorker.solveDirectTask this description env
      = (env', inr Adapter.placeholder_text)
      /\ Worker.world env' = Worker.world env)
  /\ (forall task,
         skills_readable task ->
         exists env',
           TaskWorker.solveTask toLowerCase this task env
           = (env', inr Adapter.placeholder_text)
           /\ Worker.world env' = Worker.world env)
  /\ (forall task,
         skill_unreadable task ->
         exists message,
           TaskWorker.solveTask toLowerCase this task env
           = (env, inl (JS.ErrorObject "TypeError" message)))
  /\ (forall env1 task,
         TaskWorker.fetchAndClaimTask this env = (env1, inr (Some task)) ->
         (skills_readable task ->
          exists env2,
            Worker.world env2 = Worker.world env1
            /\ TaskWorker.runOnce toLowerCase this env
               = IO.try_catch
                   (TaskWorker.submitSolution this (AvailableTask.id task)
                      Adapter.placeholder_text)
                   (fun _ => IO.ret false) env2)
         /\ (skill_unreadable task ->
             TaskWorker.runOnce toLowerCase this env = (env1, inr false))).
Proof.
  intros Hcreate. cbn in Hcreate. injection Hcreate as Hllm. symmetry in Hllm.
  assert (Hsolve : forall task env0,
             skills_readable task ->
             exists env',
               TaskWorker.solveTask toLowerCase this task env0
               = (env', inr Adapter.placeholder_text)
               /\ Worker.world env' = Worker.world env0).
  { intros task env0 Hreadable. unfold TaskWorker.solveTask.
    destruct (@selection_returns toLowerCase task _ Hreadable) as [selected ->].
    apply (placeholder_complete_or_loop (TaskWorker.toolExecutor this) _ _ env0 Hllm). }
  assert (Hthrows : forall task env0,
             skill_unreadable task ->
             exists message,
               TaskWorker.solveTask toLowerCase this task env0
               = (env0, inl (JS.ErrorObject "TypeError" message))).
  { intros task env0 Hbad. unfold TaskWorker.solveTask.
    destruct (@selection_throws toLowerCase task _ Hbad) as [message ->].
    exists message. reflexivity. }
  split; [|split; [|split]].
  - intros description. unfold TaskWorker.solveDirectTask.
    apply (placeholder_complete_or_loop (TaskWorker.toolExecutor this) _ _ env Hllm).
  - intros task. apply Hsolve.
  - intros task. apply Hthrows.
  - intros env1 task Hclaim. split.
    + intros Hreadable. destruct (Hsolve task env1 Hreadable) as (env2 & Hrun & Hworld).
      exists env2. split; [exact Hworld|].
      unfold TaskWorker.runOnce, IO.bind at 1. rewrite Hclaim.
      unfold IO.try_catch, IO.bind at 1. rewrite Hrun. reflexivity.
    + intros Hbad. destruct (Hthrows task env1 Hbad) as (message & Hrun).
      unfold TaskWorker.runOnce, IO.bind at 1. rewrite Hclaim.
      unfold IO.try_catch, IO.bind at 1. rewrite Hrun. reflexivity.
Qed.

End PlaceholderLifecycle.

(** A platform with one task: it is claimed, answered by the placeholder
    adapter through the loop, and the placeholder text is submitted. *)
Lemma runOnce_true_witness :
  let this := Desk.worker [Stub.orbit_task] true Desk.placeholder in
  exists env' env1 task env2 solution res,
    TaskWorker.runOnce Stub.lower this Stub.start = (env', inr true)
    /\ Worker.world env'
       = ["list"; "claim task-1";
          "submit task-1: [LLM response placeholder -- configure LLM_API_KEY to enable]"]
    /\ TaskWorker.fetchAndClaimTask this Stub.start = (env1, inr (Some task))
    /\ TaskWorker.solveTask Stub.lower this task env1 = (env2, inr solution)
    /\ SpaceMarsClient.submitResult (TaskWorker.client this) (AvailableTask.id task) solution
         (Worker.world env2) = (Worker.world env', inr res)
    /\ ApiResponse.success res = true
    /\ Worker.trace env' = Worker.trace env2.
Proof.
  intros this.
  assert (Hrun : TaskWorker.runOnce Stub.lower this Stub.start
                 = (fst (TaskWorker.runOnce Stub.lower this Stub.start), inr true))
    by (vm_compute; reflexivity).
  exists (fst (TaskWorker.runOnce Stub.lower this Stub.start)).
  apply runOnce_true_iff in Hrun as Hparts.
  destruct Hparts as (env1 & task & env2 & solution & res & Hparts).
  exists env1, task, env2, solution, res.
  split; [exact Hrun|]. split; [vm_compute; reflexivity | exact Hparts].
Defined.

(** The same platform with a model that cannot be reached: the task is
    claimed and nothing is submitted. *)
Lemma unsolved_claim_witness :
  let this := Desk.worker [Stub.orbit_task] true Desk.unreachable in
  exists env2,
    TaskWorker.runOnce Stub.lower this Stub.start = (env2, inr false)
    /\ Worker.world env2 = ["list"; "claim task-1"].
Proof.
  intros this. eexists. split.
  - eapply (@unsolved_claim_is_abandoned Stub.Notes Stub.lower this Stub.start _ _ Stub.orbit_task).
    + vm_compute. reflexivity.
    + vm_compute. reflexivity.
  - reflexivity.
Defined.

Lemma fetchAndClaimTask_witness :
  let this := Desk.worker [Stub.orbit_task; Stub.orbit_task] true Desk.placeholder in
  exists env' w1 listRes rest claimRes,
    Worker.world env' = ["list"; "claim task-1"]
    /\ SpaceMarsClient.getAvailableTasks (TaskWorker.client this) 5 (Worker.world Stub.start)
       = (w1, inr listRes)
    /\ ApiResponse.success listRes = true
    /\ ApiResponse.data listRes = Some (Stub.orbit_task :: rest)
    /\ SpaceMarsClient.claimTask (TaskWorker.client this) (AvailableTask.id Stub.orbit_task) w1
       = (Worker.world env', inr claimRes)
    /\ ApiResponse.success claimRes = true
    /\ Worker.trace env' = Worker.trace Stub.start.
Proof.
  intros this.
  assert (Hrun : TaskWorker.fetchAndClaimTask this Stub.start
                 = (fst (TaskWorker.fetchAndClaimTask this Stub.start),
                    inr (Some Stub.orbit_task)))
    by (vm_compute; reflexivity).
  exists (fst (TaskWorker.fetchAndClaimTask this Stub.start)).
  apply fetchAndClaimTask_claims_first_listed in Hrun as (w1 & listRes & rest & claimRes & H).
  exists w1, listRes, rest, claimRes. split; [vm_compute; reflexivity | exact H].
Defined.

Lemma runOnce_rejects_witness :
  let down : SpaceMarsClient.t Stub.Notes :=
    SpaceMarsClient.mk
      (fun _ notes => (app notes ["list"], inl (JS.new_Error "fetch failed")))
      (SpaceMarsClient.claimTask (Desk.client [] true))
      (SpaceMarsClient.submitResult (Desk.client [] true)) in
  let this := TaskWorker.new_TaskWorker down Desk.placeholder in
  TaskWorker.runOnce Stub.lower this Stub.start
  = (Worker.mk_env ["list"] [], inl (JS.new_Error "fetch failed")).
Proof.
  intros down this. apply runOnce_rejects_iff. split; [reflexivity|]. left. reflexivity.
Defined.

(** Without a key, on the bundled skills and on a skill whose category
    the loader read as a list. *)
Lemma placeholder_text_witness :
  let this := Desk.worker [Stub.orbit_task] true Desk.placeholder in
  let listed := TaskWorker.setSkills [Stub.math_modeling; Stub.orbital_mechanics] this in
  TaskWorker.solveTask Stub.lower this Stub.orbit_task Stub.start
  = (Worker.mk_env [] [Worker.model_call [LLMMessage.mk user (content_string
                                             (TaskWorker.buildTaskPrompt Stub.orbit_task))]],
     inr "[LLM response placeholder -- configure LLM_API_KEY to enable]")
  /\ TaskWorker.runOnce Stub.lower listed Stub.start
     = (Worker.mk_env ["list"; "claim task-1"] [], inr false)
  /\ (exists env',
         TaskWorker.solveTask Stub.lower this Stub.orbit_task Stub.start
         = (env', inr Adapter.placeholder_text)
         /\ Worker.world env' = Worker.world Stub.start)
  /\ exists message,
      TaskWorker.solveTask Stub.lower listed Stub.orbit_task Stub.start
      = (Stub.start, inl (JS.ErrorObject "TypeError" message)).
Proof.
  intros this listed.
  split; [vm_compute; reflexivity|]. split; [vm_compute; reflexivity|]. split.
  - apply (proj1 (proj2 (@placeholder_text_is_submitted Stub.Notes Desk.offline Stub.lower
                           this "anthropic" "claude" Stub.start eq_refl)) Stub.orbit_task).
    intros skill Hin _.
    repeat (destruct Hin as [<-|Hin]; [eexists _, _, _; repeat split|]).
    destruct Hin.
  - apply (proj1 (proj2 (proj2 (@placeholder_text_is_submitted Stub.Notes Desk.offline
                                  Stub.lower listed "anthropic" "claude" Stub.start
                                  eq_refl))) Stub.orbit_task).
    exists Stub.orbital_mechanics. split; [right; left; reflexivity|].
    split; [left; reflexivity|].
    intros (name & category & description & _ & Hcategory & _). discriminate Hcategory.
Defined.

(* ================================================================== *)
(** * The SpaceMars client *)
(* ================================================================== *)

Section ClientFacts.
Context {World : Type}.
Variable host : SpaceMarsApi.Host World.

Lemma strip_slash (s : string) :
  SpaceMarsApi.strip_trailing_slashes (s ++ "/") = SpaceMarsApi.strip_trailing_slashes s.
Proof.
  induction s as [|c s IH]; [reflexivity|]. cbn. now rewrite IH.
Qed.

Lemma strip_rest (s : string) :
  exists n, s = SpaceMarsApi.strip_trailing_slashes s ++ slashes n.
Proof.
  induction s as [|c s [n IH]]; [now exists 0|]. cbn.
  destruct (SpaceMarsApi.strip_trailing_slashes s) as [|c' kept].
  - cbn in IH. destruct (Ascii.eqb_spec c "/") as [->|_].
    + exists (S n). cbn. now rewrite <- IH.
    + exists n. cbn. now rewrite <- IH.
  - exists n. cbn. cbn in IH. now rewrite <- IH.
Qed.

Lemma strip_no_slash (s t : string) :
  SpaceMarsApi.strip_trailing_slashes s <> t ++ "/".
Proof.
  revert t. induction s as [|c s IH]; intros t; cbn.
  - destruct t; discriminate.
  - destruct (SpaceMarsApi.strip_trailing_slashes s) as [|c' kept] eqn:Hs.
    + destruct (Ascii.eqb_spec c "/") as [->|Hc]; [destruct t; discriminate|].
      destruct t as [|c1 t]; cbn; [congruence|]. destruct t; discriminate.
    + destruct t as [|c1 t]; cbn; [discriminate|].
      intros [= _ H]. now apply (IH t).
Qed.

(** X23.  Trailing slashes of the base URL do not matter: a client made
    with one more slash at the end is the same client; the base URL it
    keeps is the given one without the slashes it ends with, and never
    ends with a slash. *)
Theorem trailing_slashes_do_not_matter (baseUrl apiKey : string) :
  SpaceMarsApi.new_SpaceMarsClient (baseUrl ++ "/") apiKey
  = SpaceMarsApi.new_SpaceMarsClient baseUrl apiKey
  /\ (exists n,
         baseUrl
         = SpaceMarsApi.baseUrl (SpaceMarsApi.new_SpaceMarsClient baseUrl apiKey) ++ slashes n)
  /\ (forall s,
         SpaceMarsApi.baseUrl (SpaceMarsApi.new_SpaceMarsClient baseUrl apiKey) <> s ++ "/").
Proof.
  unfold SpaceMarsApi.new_SpaceMarsClient. cbn [SpaceMarsApi.baseUrl].
  split; [now rewrite strip_slash|]. split; [apply strip_rest | apply strip_no_slash].
Qed.

Section Envelope.
Variable T : Type.
Variable JSON_parse : string -> JS.Thrown + SpaceMarsApi.Parsed T.

Lemma handleResponse_rejects (res : SpaceMarsApi.Response) (w : World) :
  (exists err, snd (@SpaceMarsApi.handleResponse World T JSON_parse res w) = inl err)
  <-> unhandled JSON_parse res.
Proof.
  unfold SpaceMarsApi.handleResponse, unhandled, not_an_object.
  destruct (SpaceMarsApi.text res) as [unreadable|text];
    [split; [trivial | intros _; eexists; reflexivity]|].
  destruct (JSON_parse text) as [err|[json| |type_of rendered]];
    try (split; [intros [e H]; discriminate | intros [_ []]]);
    destruct (SpaceMarsApi.ok res); cbn;
    (split; [intros [e H]; (discriminate || (split; [reflexivity | exact I]))
            | intros [H _]; (discriminate || eauto)]).
Qed.

Lemma mark_failed_has_error (res : SpaceMarsApi.Response)
    (json : ApiResponse.t (SpaceMarsApi.Payload T)) :
  SpaceMarsApi.ok res = false ->
  has_error (SpaceMarsApi.mark_failed res json)
  /\ (ApiResponse.success (SpaceMarsApi.mark_failed res json) = true ->
      has_error json /\ SpaceMarsApi.mark_failed res json = json).
Proof.
  intros Hok. unfold SpaceMarsApi.mark_failed. rewrite Hok. cbn [negb andb].
  destruct (ApiResponse.error json) as [error|] eqn:Herror.
  - destruct (JS.truthy error) eqn:Htruthy; cbn [negb].
    + assert (Hset : has_error json).
      { exists error. split; [exact Herror|]. intros ->. discriminate. }
      split; [exact Hset | intros _; split; [exact Hset | reflexivity]].
    + split; [|discriminate]. eexists. split; [reflexivity | discriminate].
  - cbn [negb]. split; [|discriminate]. eexists. split; [reflexivity | discriminate].
Qed.

(** X24.  What [handleResponse] makes of a response.  When the body
    cannot be read it rejects with the reader's error.  On a success
    status it resolves to the parsed body as it is, object or not, or,
    for a body that is not JSON, to a successful envelope whose data is
    the raw text.  On any other status it rejects with a [TypeError] when
    the body is JSON but not an object, and otherwise resolves to an
    envelope with a non-empty [error], whose [success] is [false] except
    when the body parsed to an envelope that itself says [success] and
    carries a non-empty [error]. *)
Theorem handleResponse_outcomes (res : SpaceMarsApi.Response) (w : World) :
  (forall err,
      SpaceMarsApi.text res = inl err ->
      @SpaceMarsApi.handleResponse World T JSON_parse res w = (w, inl err))
  /\ (forall text,
      SpaceMarsApi.text res = inr text ->
      SpaceMarsApi.ok res = true ->
      @SpaceMarsApi.handleResponse World T JSON_parse res w
      = (w, inr match JSON_parse text with
                | inr parsed => returned_as_is parsed
                | inl _ =>
                    SpaceMarsApi.envelope
                      (ApiResponse.mk true (Some (SpaceMarsApi.raw text)) None None)
                end))
  /\ (forall text,
      SpaceMarsApi.text res = inr text ->
      SpaceMarsApi.ok res = false ->
      match JSON_parse text with
      | inr SpaceMarsApi.parsed_null | inr (SpaceMarsApi.parsed_primitive _ _) =>
          exists message,
            @SpaceMarsApi.handleResponse World T JSON_parse res w
            = (w, inl (JS.ErrorObject "TypeError" message))
      | parsed =>
          exists r,
            @SpaceMarsApi.handleResponse World T JSON_parse res w
            = (w, inr (SpaceMarsApi.envelope r))
            /\ has_error r
            /\ (ApiResponse.success r = true ->
                exists json,
                  parsed = inr (SpaceMarsApi.parsed_object json)
                  /\ has_error json
                  /\ r = envelope_of json)
      end).
Proof.
  unfold SpaceMarsApi.handleResponse, IO.ret, IO.throw.
  split; [|split].
  - intros err ->. reflexivity.
  - intros text -> Hok. rewrite Hok.
    destruct (JSON_parse text) as [err|[json| |type_of rendered]];
      cbn [negb]; unfold SpaceMarsApi.mark_failed; rewrite ?Hok; reflexivity.
  - intros text -> Hok. rewrite Hok.
    destruct (JSON_parse text) as [err|[json| |type_of rendered]]; cbn [negb].
    + eexists. split; [reflexivity|].
      destruct (@mark_failed_has_error res
                  (ApiResponse.mk false (@None (SpaceMarsApi.Payload T))
                     (Some (SpaceMarsApi.http_error res ++ ": " ++ text))
                     None) Hok) as [Hset Hsuccess].
      split; [exact Hset|]. intros Htrue. destruct (Hsuccess Htrue) as [_ Hsame].
      rewrite Hsame in Htrue. discriminate.
    + eexists. split; [reflexivity|].
      destruct (@mark_failed_has_error res (envelope_of json) Hok) as [Hset Hsuccess].
      split; [exact Hset|]. intros Htrue. destruct (Hsuccess Htrue) as [Hjson Hsame].
      exists json. split; [reflexivity|]. split; [exact Hjson | exact Hsame].
    + eexists. reflexivity.
    + eexists. reflexivity.
Qed.

Variable this : SpaceMarsApi.t.

(** X25.  When the client's requests reject: exactly when [fetch]
    rejects, or the body of its response cannot be read, or the status is
    not a success and the body is JSON but not an object.  A failure
    status with any other body, and a body that is not JSON, never make
    [get] or [post] reject. *)
Theorem client_rejects_iff (path : string) (body : JS.JsonObject) (w : World) :
  ((exists w' err, SpaceMarsApi.get host this JSON_parse path w = (w', inl err))
   <-> match SpaceMarsApi.fetch host
               (SpaceMarsApi.mk_request SpaceMarsApi.GET (SpaceMarsApi.baseUrl this ++ path)
                  (SpaceMarsApi.request_headers this) None) w with
       | (_, inl _) => True
       | (_, inr res) => unhandled JSON_parse res
       end)
  /\ ((exists w' err, SpaceMarsApi.post host this JSON_parse path body w = (w', inl err))
      <-> match SpaceMarsApi.fetch host
                  (SpaceMarsApi.mk_request SpaceMarsApi.POST
                     (SpaceMarsApi.baseUrl this ++ path)
                     (SpaceMarsApi.request_headers this) (Some body)) w with
          | (_, inl _) => True
          | (_, inr res) => unhandled JSON_parse res
          end).
Proof.
  unfold SpaceMarsApi.get, SpaceMarsApi.post, IO.bind. cbv zeta. split.
  - destruct (SpaceMarsApi.fetch host _ w) as [w1 [e|res]]; [split; eauto|].
    rewrite <- (handleResponse_rejects res w1).
    destruct (SpaceMarsApi.handleResponse JSON_parse res w1) as [w2 r]. cbn [snd].
    split; [intros (w' & err & [= _ ->]); eauto | intros [err ->]; eauto].
  - destruct (SpaceMarsApi.fetch host _ w) as [w1 [e|res]]; [split; eauto|].
    rewrite <- (handleResponse_rejects res w1).
    destruct (SpaceMarsApi.handleResponse JSON_parse res w1) as [w2 r]. cbn [snd].
    split; [intros (w' & err & [= _ ->]); eauto | intros [err ->]; eauto].
Qed.

End Envelope.

End ClientFacts.

(* ================================================================== *)
(** * Parsing SKILL.md *)
(* ================================================================== *)

Section StringFacts.

Lemma string_app_assoc (a b c : string) : (a ++ b) ++ c = a ++ (b ++ c).
Proof. induction a as [|x a IH]; cbn; [reflexivity | now rewrite IH]. Qed.

Lemma string_rev_app (a b : string) : JSString.rev (a ++ b) = JSString.rev b ++ JSString.rev a.
Proof.
  induction a as [|x a IH]; cbn; [now rewrite append_empty_r|].
  now rewrite IH, string_app_assoc.
Qed.

Lemma string_rev_involutive (s : string) : JSString.rev (JSString.rev s) = s.
Proof.
  induction s as [|c s IH]; [reflexivity|]. cbn. rewrite string_rev_app, IH. reflexivity.
Qed.

Lemma string_length_app (a b : string) : String.length (a ++ b) = String.length a + String.length b.
Proof. induction a as [|x a IH]; cbn; [reflexivity | now rewrite IH]. Qed.

Lemma string_length_rev (s : string) : String.length (JSString.rev s) = String.length s.
Proof.
  induction s as [|c s IH]; [reflexivity|]. cbn. rewrite string_length_app, IH. cbn. lia.
Qed.

(** [strip] returns a suffix. *)
Lemma strip_suffix (m : bool) (s : string) :
  exists p, s = p ++ JSString.strip m s.
Proof.
  assert (H : forall n s, String.length s <= n -> exists p, s = p ++ JSString.strip m s).
  { clear s. induction n as [|n IH]; intros s Hlen.
    - destruct s; [now exists "" | cbn in Hlen; lia].
    - destruct s as [|a r1]; [now exists ""|]. cbn in Hlen. cbn [JSString.strip].
      destruct (JSString.space1 a).
      { destruct (IH r1) as [p Hp]; [lia|]. exists (String a p). cbn. now rewrite <- Hp. }
      destruct r1 as [|b r2]; [now exists ""|]. cbn in Hlen.
      destruct (if m then JSString.space2 b a else JSString.space2 a b).
      { destruct (IH r2) as [p Hp]; [lia|]. exists (String a (String b p)). cbn.
        now rewrite <- Hp. }
      destruct r2 as [|c r3]; [now exists ""|]. cbn in Hlen.
      destruct (if m then JSString.space3 c b a else JSString.space3 a b c).
      { destruct (IH r3) as [p Hp]; [lia|]. exists (String a (String b (String c p))). cbn.
        now rewrite <- Hp. }
      now exists "". }
  apply (H (String.length s)). lia.
Qed.


Lemma strip_step (m : bool) (s : string) :
  JSString.strip m s = s
  \/ exists p r, s = p ++ r /\ String.length r < String.length s
                 /\ JSString.strip m s = JSString.strip m r.
Proof.
  destruct s as [|a r1]; [now left|]. cbn [JSString.strip].
  destruct (JSString.space1 a).
  { right. exists (String a ""), r1. cbn. repeat split. lia. }
  destruct r1 as [|b r2]; [now left|].
  destruct (if m then JSString.space2 b a else JSString.space2 a b).
  { right. exists (String a (String b "")), r2. cbn. repeat split. lia. }
  destruct r2 as [|c r3]; [now left|].
  destruct (if m then JSString.space3 c b a else JSString.space3 a b c).
  { right. exists (String a (String b (String c ""))), r3. cbn. repeat split. lia. }
  now left.
Qed.

Lemma strip_length (m : bool) (s : string) :
  String.length (JSString.strip m s) <= String.length s.
Proof.
  remember (String.length s) as n eqn:Hn. revert s Hn.
  induction n as [n IH] using lt_wf_ind. intros s ->.
  destruct (strip_step m s) as [->|(p & r & _ & Hlen & ->)]; [lia|].
  specialize (IH _ Hlen r eq_refl). lia.
Qed.

Lemma strip_idempotent (m : bool) (s : string) :
  JSString.strip m (JSString.strip m s) = JSString.strip m s.
Proof.
  remember (String.length s) as n eqn:Hn. revert s Hn.
  induction n as [n IH] using lt_wf_ind. intros s ->.
  destruct (strip_step m s) as [H|(p & r & _ & Hlen & H)]; rewrite H.
  - exact H.
  - apply (IH _ Hlen r eq_refl).
Qed.

(** A string that [strip] leaves alone has no white space in front, and
    neither has a prefix of it. *)
Lemma stripped_prefix (p q : string) :
  JSString.strip false (p ++ q) = p ++ q -> JSString.strip false p = p.
Proof.
  assert (Hshort : forall r s, String.length r < String.length s ->
                               JSString.strip false r <> s).
  { intros r s Hlen H. pose proof (strip_length false r) as Hle. rewrite H in Hle. lia. }
  destruct p as [|a p1]; [reflexivity|]. cbn [append JSString.strip].
  destruct (JSString.space1 a).
  { intros H. exfalso. eapply Hshort; [|exact H]. cbn. lia. }
  destruct p1 as [|b p2]; [reflexivity|]. cbn [append].
  destruct (JSString.space2 a b).
  { intros H. exfalso. eapply Hshort; [|exact H]. cbn. lia. }
  destruct p2 as [|c p3]; [reflexivity|]. cbn [append].
  destruct (JSString.space3 a b c); [|reflexivity].
  intros H. exfalso. eapply Hshort; [|exact H]. cbn. lia.
Qed.

Lemma trimStart_stripped (s : string) :
  JSString.strip false (JSString.trimStart s) = JSString.trimStart s.
Proof. apply strip_idempotent. Qed.

Lemma trimEnd_prefix (s : string) : exists q, s = JSString.trimEnd s ++ q.
Proof.
  unfold JSString.trimEnd. destruct (strip_suffix true (JSString.rev s)) as [p Hp].
  exists (JSString.rev p). rewrite <- string_rev_app, <- Hp. now rewrite string_rev_involutive.
Qed.

Lemma trim_idempotent (s : string) : JSString.trim (JSString.trim s) = JSString.trim s.
Proof.
  unfold JSString.trim.
  assert (Hfront : JSString.trimStart (JSString.trimEnd (JSString.trimStart s))
                   = JSString.trimEnd (JSString.trimStart s)).
  { destruct (trimEnd_prefix (JSString.trimStart s)) as [q Hq].
    apply (stripped_prefix _ q). rewrite <- Hq. apply trimStart_stripped. }
  rewrite Hfront. unfold JSString.trimEnd at 1 2.
  now rewrite string_rev_involutive, strip_idempotent.
Qed.

End StringFacts.

Section ParserFacts.

Lemma truthy_nonempty (s : string) : JS.truthy s = true <-> s <> "".
Proof.
  unfold JS.truthy. destruct (String.eqb_spec s ""); cbn; split; congruence.
Qed.

Lemma read_line_trimmed (obj : SkillLoader.Obj) (line : string) :
  Forall (fun entry => trimmed_value (snd entry)) obj ->
  Forall (fun entry => trimmed_value (snd entry)) (SkillLoader.read_line obj line).
Proof.
  intros Hobj. unfold SkillLoader.read_line.
  destruct (negb (JS.truthy (JSString.trim line)) || _); [exact Hobj|].
  destruct (JSString.cut_at ":" (JSString.trim line)) as [[before after]|]; [|exact Hobj].
  destruct (JSString.startsWith (JSString.trim after) "[" && _).
  - constructor; [|exact Hobj]. cbn. apply Forall_forall. intros x Hx.
    apply filter_In in Hx as [Hx Htruthy]. apply in_map_iff in Hx as (y & <- & _).
    split; [now apply truthy_nonempty | apply trim_idempotent].
  - constructor; [|exact Hobj]. cbn. apply trim_idempotent.
Qed.

Lemma read_lines_trimmed (lines : list string) (obj : SkillLoader.Obj) :
  Forall (fun entry => trimmed_value (snd entry)) obj ->
  Forall (fun entry => trimmed_value (snd entry)) (fold_left SkillLoader.read_line lines obj).
Proof.
  revert obj. induction lines as [|line lines IH]; intros obj Hobj; [exact Hobj|].
  cbn. apply IH. now apply read_line_trimmed.
Qed.

Lemma obj_get_trimmed (key : string) (obj : SkillLoader.Obj) :
  Forall (fun entry => trimmed_value (snd entry)) obj ->
  trimmed_value (SkillLoader.obj_get key obj).
Proof.
  induction 1 as [|[k v] obj Hv _ IH]; cbn; [exact I|].
  destruct (String.eqb k key); assumption.
Qed.

Lemma not_falsy_is_set (v : SkillLoader.Value) :
  SkillLoader.falsy v = false -> field_is_set v.
Proof.
  destruct v as [|s|xs]; cbn; [discriminate| |trivial].
  intros H. apply truthy_nonempty. now destruct (JS.truthy s).
Qed.

(** What [parseYamlFrontMatter] returns, in terms of the object it
    built. *)
Lemma parseYamlFrontMatter_ok (yaml filePath : string) (meta : SkillLoader.RawMeta) :
  SkillLoader.parseYamlFrontMatter yaml filePath = inr meta ->
  Forall (fun v => field_is_set v /\ trimmed_value v)
         [SkillLoader.name meta; SkillLoader.version meta; SkillLoader.category meta;
          SkillLoader.mission meta; SkillLoader.description meta]
  /\ SkillLoader.tools meta <> SkillLoader.undefined
  /\ trimmed_value (SkillLoader.tools meta).
Proof.
  unfold SkillLoader.parseYamlFrontMatter.
  set (obj := fold_left SkillLoader.read_line _ []).
  assert (Hobj : Forall (fun entry => trimmed_value (snd entry)) obj)
    by (apply read_lines_trimmed; constructor).
  destruct (find _ SkillLoader.required) as [field|] eqn:Hfind; [discriminate|].
  intros [= <-]. cbn [SkillLoader.name SkillLoader.version SkillLoader.category
                      SkillLoader.mission SkillLoader.description SkillLoader.tools].
  assert (Hset : forall field, In field SkillLoader.required ->
                               field_is_set (SkillLoader.obj_get field obj)).
  { intros field Hin. apply not_falsy_is_set.
    apply (find_none _ _ Hfind field Hin). }
  split; [|split].
  - repeat constructor; try (apply Hset; cbn; tauto); now apply obj_get_trimmed.
  - destruct (SkillLoader.obj_get "tools" obj); discriminate.
  - pose proof (obj_get_trimmed "tools" Hobj) as Htools.
    destruct (SkillLoader.obj_get "tools" obj); [constructor | exact Htools | exact Htools].
Qed.

Lemma parseYamlFrontMatter_error (yaml filePath : string) (err : JS.Thrown) :
  SkillLoader.parseYamlFrontMatter yaml filePath = inl err ->
  exists field, In field SkillLoader.required /\ err = SkillLoader.missing_field filePath field.
Proof.
  unfold SkillLoader.parseYamlFrontMatter.
  destruct (find _ SkillLoader.required) as [field|] eqn:Hfind; [|discriminate].
  intros [= <-]. exists field. split; [|reflexivity]. now apply find_some in Hfind.
Qed.

(** X26.  [parseSkillMd] throws two kinds of error and no other: the
    text, with its CRLF line ends made LF, does not have the shape of a
    front matter between two lines of three dashes followed by a body; or
    one of the five required fields is missing or empty, and the message
    names it. *)
Theorem parseSkillMd_errors (content filePath : string) (err : JS.Thrown) :
  SkillLoader.parseSkillMd content filePath = inl err ->
  (SkillLoader.frontMatterMatch (JSString.replace_crlf content) = None
   /\ err = SkillLoader.invalid_format filePath)
  \/ (exists field,
         In field ["name"; "version"; "category"; "mission"; "description"]
         /\ err = SkillLoader.missing_field filePath field).
Proof.
  unfold SkillLoader.parseSkillMd.
  destruct (SkillLoader.frontMatterMatch _) as [[yamlBlock body]|].
  - destruct (SkillLoader.parseYamlFrontMatter yamlBlock filePath) as [e|meta] eqn:Hyaml;
      [|discriminate].
    intros [= <-]. right. now apply parseYamlFrontMatter_error in Hyaml.
  - intros [= <-]. left. split; reflexivity.
Qed.

(** X27.  What a parsed skill is made of.  Each of the five required
    fields is a non-empty string or a list, [tools] is a string or a list
    (the empty list when the key is absent), every string kept has no
    white space at either end and every list item is moreover not empty;
    the instructions are the trimmed body and the path is the one
    given. *)
Theorem parsed_skill_is_trimmed (content filePath : string) (skill : SkillLoader.RawSkill) :
  SkillLoader.parseSkillMd content filePath = inr skill ->
  Forall (fun v => field_is_set v /\ trimmed_value v)
         [SkillLoader.name (SkillLoader.meta skill);
          SkillLoader.version (SkillLoader.meta skill);
          SkillLoader.category (SkillLoader.meta skill);
          SkillLoader.mission (SkillLoader.meta skill);
          SkillLoader.description (SkillLoader.meta skill)]
  /\ SkillLoader.tools (SkillLoader.meta skill) <> SkillLoader.undefined
  /\ trimmed_value (SkillLoader.tools (SkillLoader.meta skill))
  /\ JSString.trim (SkillLoader.instructions skill) = SkillLoader.instructions skill
  /\ SkillLoader.filePath skill = filePath.
Proof.
  unfold SkillLoader.parseSkillMd.
  destruct (SkillLoader.frontMatterMatch _) as [[yamlBlock body]|]; [|discriminate].
  destruct (SkillLoader.parseYamlFrontMatter yamlBlock filePath) as [e|meta] eqn:Hyaml;
    [discriminate|].
  intros [= <-]. cbn [SkillLoader.meta SkillLoader.instructions SkillLoader.filePath].
  destruct (parseYamlFrontMatter_ok _ _ Hyaml) as (Hfields & Htools & Htrimmed).
  repeat split; try assumption. apply trim_idempotent.
Qed.

End ParserFacts.

Section RoundTrip.

Lemma without_app (c : ascii) (a b : string) :
  without c (a ++ b) = without c a && without c b.
Proof.
  induction a as [|x a IH]; [reflexivity|]. cbn. rewrite IH. now rewrite andb_assoc.
Qed.

Lemma replace_crlf_app (x y : string) :
  without "013" x = true -> JSString.replace_crlf (x ++ y) = x ++ JSString.replace_crlf y.
Proof.
  induction x as [|a x IH]; [reflexivity|]. cbn [without append].
  intros H. apply andb_true_iff in H as [Ha Hx]. specialize (IH Hx).
  assert (Hcr : (nat_of_ascii a =? 13)%nat = false).
  { apply Nat.eqb_neq. intros Heq. apply negb_true_iff in Ha.
    apply Ascii.eqb_neq in Ha. apply Ha.
    rewrite <- (ascii_nat_embedding a), Heq. reflexivity. }
  cbn [JSString.replace_crlf]. rewrite Hcr. cbn [andb].
  destruct (x ++ y) as [|b rest] eqn:Hxy.
  - destruct x; [|discriminate]. cbn in Hxy. subst y. reflexivity.
  - now rewrite IH.
Qed.

Lemma replace_crlf_line (x y : string) :
  without "013" x = true ->
  JSString.replace_crlf (x ++ String SkillLoader.LF y)
  = x ++ String SkillLoader.LF (JSString.replace_crlf y).
Proof.
  intros H. rewrite replace_crlf_app by exact H. destruct y; reflexivity.
Qed.

Lemma cut_at_app (c : ascii) (x y : string) :
  without c x = true -> JSString.cut_at c (x ++ String c y) = Some (x, y).
Proof.
  induction x as [|a x IH]; cbn.
  - intros _. now rewrite Ascii.eqb_refl.
  - intros H. apply andb_true_iff in H as [Ha Hx]. apply negb_true_iff in Ha.
    now rewrite Ha, (IH Hx).
Qed.

Lemma split_app (c : ascii) (x y : string) :
  without c x = true -> JS.split c (x ++ String c y) = x :: JS.split c y.
Proof.
  induction x as [|a x IH]; cbn.
  - intros _. now rewrite Ascii.eqb_refl.
  - intros H. apply andb_true_iff in H as [Ha Hx]. apply negb_true_iff in Ha.
    now rewrite Ha, (IH Hx).
Qed.

Lemma split_one (c : ascii) (x : string) :
  without c x = true -> JS.split c x = [x].
Proof.
  induction x as [|a x IH]; cbn; [reflexivity|].
  intros H. apply andb_true_iff in H as [Ha Hx]. apply negb_true_iff in Ha.
  now rewrite Ha, (IH Hx).
Qed.

Lemma cut_at_fence_unfold (s : string) :
  SkillLoader.cut_at_fence s
  = match JSString.after_prefix SkillLoader.fence s with
    | Some body => Some ("", body)
    | None =>
        match s with
        | EmptyString => None
        | String a rest =>
            match SkillLoader.cut_at_fence rest with
            | Some (yaml, body) => Some (String a yaml, body)
            | None => None
            end
        end
    end.
Proof. destruct s; reflexivity. Qed.

Lemma cut_at_fence_skip (x y : string) :
  without SkillLoader.LF x = true ->
  SkillLoader.cut_at_fence (x ++ String SkillLoader.LF y)
  = match SkillLoader.cut_at_fence (String SkillLoader.LF y) with
    | Some (yaml, body) => Some (x ++ yaml, body)
    | None => None
    end.
Proof.
  remember (SkillLoader.cut_at_fence (String SkillLoader.LF y)) as r eqn:Hr.
  induction x as [|a x IH]; intros H.
  - cbn [append]. rewrite <- Hr. destruct r as [[yaml body]|]; reflexivity.
  - cbn [without] in H. apply andb_true_iff in H as [Ha Hx]. apply negb_true_iff in Ha.
    cbn [append]. rewrite cut_at_fence_unfold. unfold SkillLoader.fence at 1.
    cbn [JSString.after_prefix]. rewrite Ascii.eqb_sym, Ha. rewrite (IH Hx).
    destruct r as [[yaml body]|]; reflexivity.
Qed.

Lemma cut_at_fence_next (y : string) :
  JSString.after_prefix ("---" ++ String SkillLoader.LF "") y = None ->
  SkillLoader.cut_at_fence (String SkillLoader.LF y)
  = match SkillLoader.cut_at_fence y with
    | Some (yaml, body) => Some (String SkillLoader.LF yaml, body)
    | None => None
    end.
Proof.
  intros H. rewrite cut_at_fence_unfold. unfold SkillLoader.fence at 1.
  cbn [JSString.after_prefix]. rewrite Ascii.eqb_refl. now rewrite H.
Qed.

Lemma cut_at_fence_here (body : string) :
  SkillLoader.cut_at_fence (String SkillLoader.LF ("---" ++ String SkillLoader.LF body))
  = Some ("", body).
Proof. destruct body; reflexivity. Qed.


Ltac space_cases :=
  repeat match goal with
         | H : (_ || _) = true |- _ => apply orb_true_iff in H as [H|H]
         | H : (_ && _) = true |- _ =>
             let H' := fresh H in apply andb_true_iff in H as [H' H]
         | H : (_ =? _)%nat = true |- _ => apply Nat.eqb_eq in H
         | H : (_ <=? _)%nat = true |- _ => apply Nat.leb_le in H
         | H : (_ <? _)%nat = true |- _ => apply Nat.ltb_lt in H
         end.

Lemma plain_char_strip (m : bool) (a : ascii) (r : string) :
  plain_char a = true -> JSString.strip m (String a r) = String a r.
Proof.
  unfold plain_char. intros H. apply andb_true_iff in H as [Hascii Hspace].
  apply Nat.ltb_lt in Hascii. apply negb_true_iff in Hspace.
  cbn [JSString.strip]. rewrite Hspace.
  destruct r as [|b r2]; [reflexivity|].
  assert (H2 : (if m then JSString.space2 b a else JSString.space2 a b) = false).
  { destruct m; unfold JSString.space2.
    - destruct (_ && _) eqn:E; [|reflexivity]. space_cases. lia.
    - destruct (_ && _) eqn:E; [|reflexivity]. space_cases. lia. }
  rewrite H2. destruct r2 as [|c r3]; [reflexivity|].
  assert (H3 : (if m then JSString.space3 c b a else JSString.space3 a b c) = false).
  { destruct m; unfold JSString.space3.
    - destruct (_ || _) eqn:E; [|reflexivity]. space_cases; lia.
    - destruct (_ || _) eqn:E; [|reflexivity]. space_cases; lia. }
  now rewrite H3.
Qed.

Lemma front_plain_strip (m : bool) (s : string) :
  front_plain s = true -> JSString.strip m s = s.
Proof. destruct s as [|a r]; [discriminate|]. apply plain_char_strip. Qed.

Lemma front_plain_app (a b : string) :
  front_plain a = true -> front_plain (a ++ b) = true.
Proof. destruct a; [discriminate | trivial]. Qed.

Lemma trim_plain (s : string) :
  front_plain s = true -> front_plain (JSString.rev s) = true -> JSString.trim s = s.
Proof.
  intros Hfront Hback. unfold JSString.trim, JSString.trimStart, JSString.trimEnd.
  rewrite (front_plain_strip false s Hfront), (front_plain_strip true _ Hback).
  apply string_rev_involutive.
Qed.

Lemma trim_plain_ends (s : string) : plain_ends s = true -> JSString.trim s = s.
Proof.
  unfold plain_ends. intros H. apply andb_true_iff in H as [Hfront Hback].
  now apply trim_plain.
Qed.

Lemma trim_space (s : string) : JSString.trim (String " " s) = JSString.trim s.
Proof. reflexivity. Qed.

Lemma front_plain_nonempty (s : string) : front_plain s = true -> JS.truthy s = true.
Proof. destruct s; [discriminate | reflexivity]. Qed.

(** A line [key: value] whose key and value are plain at both ends. *)
Lemma read_line_cut (key value : string) (obj : SkillLoader.Obj) :
  plain_ends key = true -> without ":" key = true ->
  JSString.startsWith key "#" = false ->
  plain_ends value = true ->
  SkillLoader.read_line obj (key ++ String ":" (String " " value))
  = if JSString.startsWith value "[" && JSString.endsWith value "]"
    then (key, SkillLoader.items
                 (filter JS.truthy
                    (map JSString.trim (JS.split "," (JSString.slice_1_m1 value))))) :: obj
    else (key, SkillLoader.scalar value) :: obj.
Proof.
  intros Hkey Hcolon Hhash Hvalue.
  pose proof Hkey as Hkey'. unfold plain_ends in Hkey'.
  apply andb_true_iff in Hkey' as [Hkfront Hkback].
  pose proof Hvalue as Hvalue'. unfold plain_ends in Hvalue'.
  apply andb_true_iff in Hvalue' as [Hvfront Hvback].
  assert (Hline : JSString.trim (key ++ String ":" (String " " value))
                  = key ++ String ":" (String " " value)).
  { apply trim_plain; [now apply front_plain_app|].
    rewrite string_rev_app. cbn [JSString.rev]. rewrite !string_app_assoc.
    now apply front_plain_app. }
  unfold SkillLoader.read_line. rewrite Hline.
  rewrite front_plain_nonempty by now apply front_plain_app.
  cbn [negb orb].
  assert (Hstart : JSString.startsWith (key ++ String ":" (String " " value)) "#" = false).
  { destruct key as [|a key]; [discriminate|].
    unfold JSString.startsWith in *. cbn [append JSString.after_prefix] in *.
    destruct (Ascii.eqb "#" a); [|reflexivity]. destruct key; discriminate. }
  rewrite Hstart. rewrite cut_at_app by exact Hcolon.
  rewrite (trim_plain_ends key) by exact Hkey.
  rewrite trim_space, (trim_plain_ends value) by exact Hvalue.
  reflexivity.
Qed.


Lemma concat_cons (sep x : string) (y : string) (ys : list string) :
  String.concat sep (x :: y :: ys) = x ++ sep ++ String.concat sep (y :: ys).
Proof. reflexivity. Qed.

Lemma plain_item_parts (t : string) :
  plain_item t = true ->
  without "010" t = true /\ without "013" t = true /\ without "," t = true
  /\ plain_ends t = true.
Proof.
  unfold plain_item. intros H. apply andb_true_iff in H as [H H4].
  apply andb_true_iff in H as [H H3]. apply andb_true_iff in H as [H1 H2]. tauto.
Qed.

Lemma without_join (c : ascii) (ts : list string) :
  without c ", " = true -> forallb (without c) ts = true ->
  without c (JS.join ", " ts) = true.
Proof.
  intros Hsep. unfold JS.join. induction ts as [|t ts IH]; [reflexivity|].
  intros H. cbn [forallb] in H. apply andb_true_iff in H as [Ht Hts].
  destruct ts as [|t2 ts]; [exact Ht|].
  rewrite concat_cons, !without_app, Ht, Hsep. now rewrite (IH Hts).
Qed.

(** The items of a bracketed list are read back. *)
Lemma split_join_items (ts : list string) (t lead : string) :
  lead = "" \/ lead = " " ->
  forallb plain_item (t :: ts) = true ->
  map JSString.trim (JS.split "," (lead ++ JS.join ", " (t :: ts))) = t :: ts.
Proof.
  unfold JS.join. revert t lead. induction ts as [|t2 ts IH]; intros t lead Hlead Hall;
    cbn [forallb] in Hall; apply andb_true_iff in Hall as [Ht Hts];
    destruct (plain_item_parts _ Ht) as (_ & _ & Hcomma & Hends).
  - cbn [String.concat]. rewrite split_one.
    + cbn [map]. destruct Hlead as [-> | ->]; cbn [append];
        [|rewrite trim_space]; now rewrite (trim_plain_ends t).
    + rewrite without_app, Hcomma. now destruct Hlead as [-> | ->].
  - rewrite concat_cons. cbn [append]. rewrite <- string_app_assoc.
    change (String "," (String " " (String.concat ", " (t2 :: ts))))
      with (String "," (" " ++ String.concat ", " (t2 :: ts))).
    rewrite split_app.
    + cbn [map]. rewrite (IH t2 " " (or_intror eq_refl) Hts). f_equal.
      destruct Hlead as [-> | ->]; cbn [append];
        [|rewrite trim_space]; now rewrite (trim_plain_ends t).
    + rewrite without_app, Hcomma. now destruct Hlead as [-> | ->].
Qed.

Lemma filter_plain_items (ts : list string) :
  forallb plain_item ts = true -> filter JS.truthy ts = ts.
Proof.
  induction ts as [|t ts IH]; [reflexivity|]. cbn [forallb filter].
  intros H. apply andb_true_iff in H as [Ht Hts].
  destruct (plain_item_parts _ Ht) as (_ & _ & _ & Hends).
  unfold plain_ends in Hends. apply andb_true_iff in Hends as [Hfront _].
  rewrite (front_plain_nonempty _ Hfront). now rewrite (IH Hts).
Qed.

Lemma read_items (ts : list string) :
  forallb plain_item ts = true ->
  filter JS.truthy (map JSString.trim (JS.split "," (JS.join ", " ts))) = ts.
Proof.
  intros Hall. destruct ts as [|t ts]; [reflexivity|].
  change (JS.join ", " (t :: ts)) with ("" ++ JS.join ", " (t :: ts)).
  rewrite (@split_join_items ts t "" (or_introl eq_refl) Hall).
  now apply filter_plain_items.
Qed.

Lemma slice_bracketed (inner : string) :
  JSString.slice_1_m1 (String "[" (inner ++ "]")) = inner.
Proof.
  unfold JSString.slice_1_m1. rewrite string_rev_app. cbn. apply string_rev_involutive.
Qed.

Lemma bracketed_ends (inner : string) :
  plain_ends (String "[" (inner ++ "]")) = true
  /\ JSString.startsWith (String "[" (inner ++ "]")) "[" = true
  /\ JSString.endsWith (String "[" (inner ++ "]")) "]" = true.
Proof.
  unfold plain_ends, JSString.endsWith. cbn [JSString.rev]. rewrite string_rev_app.
  cbn. repeat split.
Qed.


Lemma plain_field_parts (s : string) :
  plain_field s = true ->
  without "010" s = true /\ without "013" s = true /\ plain_ends s = true
  /\ JSString.startsWith s "[" && JSString.endsWith s "]" = false.
Proof.
  unfold plain_field. intros H. apply andb_true_iff in H as [H H4].
  apply andb_true_iff in H as [H H3]. apply andb_true_iff in H as [H1 H2].
  apply negb_true_iff in H4. tauto.
Qed.

Lemma read_scalar_line (key value : string) (obj : SkillLoader.Obj) :
  plain_ends key = true -> without ":" key = true ->
  JSString.startsWith key "#" = false ->
  plain_field value = true ->
  SkillLoader.read_line obj (key ++ String ":" (String " " value))
  = (key, SkillLoader.scalar value) :: obj.
Proof.
  intros Hkey Hcolon Hhash Hvalue.
  destruct (plain_field_parts _ Hvalue) as (_ & _ & Hends & Hbrackets).
  rewrite read_line_cut by assumption. now rewrite Hbrackets.
Qed.

Lemma read_tools_line (ts : list string) (obj : SkillLoader.Obj) :
  forallb plain_item ts = true ->
  SkillLoader.read_line obj ("tools" ++ String ":" (String " "
                               (String "[" (JS.join ", " ts ++ "]"))))
  = ("tools", SkillLoader.items ts) :: obj.
Proof.
  intros Hall. destruct (bracketed_ends (JS.join ", " ts)) as (Hends & Hstart & Hend).
  rewrite read_line_cut by (reflexivity || exact Hends).
  rewrite Hstart, Hend. cbn [andb]. rewrite slice_bracketed. now rewrite read_items.
Qed.

(** X28.  A SKILL.md in the expected format is read back.  For metadata
    whose five strings are plain (one line, a plain character at both
    ends, not in square brackets) and whose tools are plain items
    (moreover without a comma), the document made of the six keys between
    two lines of three dashes, followed by any body, parses without
    error to exactly that metadata, at its declared type, with the
    trimmed body (its CRLF line ends made LF) as instructions. *)
Theorem parseSkillMd_reads_the_expected_format (meta : SkillMeta.t) (body filePath : string) :
  plain_meta meta = true ->
  exists raw,
    SkillLoader.parseSkillMd (skill_document meta body) filePath = inr raw
    /\ SkillLoader.typed raw
       = Some (Skill.mk meta (JSString.trim (JSString.replace_crlf body)) filePath).
Proof.
  destruct meta as [name version category mission description tools].
  unfold plain_meta. cbn [SkillMeta.name SkillMeta.version SkillMeta.category
                          SkillMeta.mission SkillMeta.description SkillMeta.tools].
  intros H. apply andb_true_iff in H as [H Htools].
  apply andb_true_iff in H as [H Hdescription]. apply andb_true_iff in H as [H Hmission].
  apply andb_true_iff in H as [H Hcategory]. apply andb_true_iff in H as [Hname Hversion].
  destruct (plain_field_parts _ Hname) as (Hname_lf & Hname_cr & Hname_ends & _).
  destruct (plain_field_parts _ Hversion) as (Hversion_lf & Hversion_cr & Hversion_ends & _).
  destruct (plain_field_parts _ Hcategory) as (Hcategory_lf & Hcategory_cr & Hcategory_ends & _).
  destruct (plain_field_parts _ Hmission) as (Hmission_lf & Hmission_cr & Hmission_ends & _).
  destruct (plain_field_parts _ Hdescription)
    as (Hdescription_lf & Hdescription_cr & Hdescription_ends & _).
  assert (Htools_lf : without "010" (JS.join ", " tools) = true).
  { apply without_join; [reflexivity|]. apply forallb_forall. intros t Ht.
    apply (proj1 (forallb_forall _ _) Htools) in Ht. now apply plain_item_parts in Ht. }
  assert (Htools_cr : without "013" (JS.join ", " tools) = true).
  { apply without_join; [reflexivity|]. apply forallb_forall. intros t Ht.
    apply (proj1 (forallb_forall _ _) Htools) in Ht. now apply plain_item_parts in Ht. }
  set (l1 := "name" ++ String ":" (String " " name)).
  set (l2 := "version" ++ String ":" (String " " version)).
  set (l3 := "category" ++ String ":" (String " " category)).
  set (l4 := "mission" ++ String ":" (String " " mission)).
  set (l5 := "description" ++ String ":" (String " " description)).
  set (l6 := "tools" ++ String ":" (String " " (String "[" (JS.join ", " tools ++ "]")))).
  assert (Hlf : forall l, In l [l1; l2; l3; l4; l5; l6] -> without SkillLoader.LF l = true).
  { unfold SkillLoader.LF.
    intros l [<-|[<-|[<-|[<-|[<-|[<-|[]]]]]]]; subst l1 l2 l3 l4 l5 l6;
      cbn [append without]; rewrite ?without_app;
      rewrite ?Hname_lf, ?Hversion_lf, ?Hcategory_lf, ?Hmission_lf, ?Hdescription_lf,
        ?Htools_lf; reflexivity. }
  assert (Hcr : forall l, In l [l1; l2; l3; l4; l5; l6] -> without "013" l = true).
  { intros l [<-|[<-|[<-|[<-|[<-|[<-|[]]]]]]]; subst l1 l2 l3 l4 l5 l6;
      cbn [append without]; rewrite ?without_app;
      rewrite ?Hname_cr, ?Hversion_cr, ?Hcategory_cr, ?Hmission_cr, ?Hdescription_cr,
        ?Htools_cr; reflexivity. }
  set (rest body :=
         l1 ++ String SkillLoader.LF (l2 ++ String SkillLoader.LF
           (l3 ++ String SkillLoader.LF (l4 ++ String SkillLoader.LF
             (l5 ++ String SkillLoader.LF (l6 ++ String SkillLoader.LF
               ("---" ++ String SkillLoader.LF body))))))).
  assert (Hdoc : skill_document (SkillMeta.mk name version category mission description tools)
                                body
                 = "---" ++ String SkillLoader.LF (rest body)).
  { unfold skill_document, rest, l1, l2, l3, l4, l5, l6.
    cbn [SkillMeta.name SkillMeta.version SkillMeta.category SkillMeta.mission
         SkillMeta.description SkillMeta.tools append].
    rewrite !string_app_assoc. reflexivity. }
  assert (Hnormal : JSString.replace_crlf ("---" ++ String SkillLoader.LF (rest body))
                    = "---" ++ String SkillLoader.LF (rest (JSString.replace_crlf body))).
  { unfold rest.
    rewrite !replace_crlf_line by (reflexivity || (apply Hcr; cbn [In]; tauto)).
    reflexivity. }
  assert (Hmatch : SkillLoader.frontMatterMatch
                     ("---" ++ String SkillLoader.LF (rest (JSString.replace_crlf body)))
                   = Some (l1 ++ String SkillLoader.LF (l2 ++ String SkillLoader.LF
                             (l3 ++ String SkillLoader.LF (l4 ++ String SkillLoader.LF
                               (l5 ++ String SkillLoader.LF (l6 ++ ""))))),
                           JSString.replace_crlf body)).
  { unfold SkillLoader.frontMatterMatch.
    change (JSString.after_prefix ("---" ++ String SkillLoader.LF "")
              ("---" ++ String SkillLoader.LF (rest (JSString.replace_crlf body))))
      with (Some (rest (JSString.replace_crlf body))).
    unfold rest.
    rewrite cut_at_fence_skip by (apply Hlf; cbn [In]; tauto).
    rewrite cut_at_fence_next by reflexivity.
    rewrite cut_at_fence_skip by (apply Hlf; cbn [In]; tauto).
    rewrite cut_at_fence_next by reflexivity.
    rewrite cut_at_fence_skip by (apply Hlf; cbn [In]; tauto).
    rewrite cut_at_fence_next by reflexivity.
    rewrite cut_at_fence_skip by (apply Hlf; cbn [In]; tauto).
    rewrite cut_at_fence_next by reflexivity.
    rewrite cut_at_fence_skip by (apply Hlf; cbn [In]; tauto).
    rewrite cut_at_fence_next by reflexivity.
    rewrite cut_at_fence_skip by (apply Hlf; cbn [In]; tauto).
    rewrite cut_at_fence_here. reflexivity. }
  assert (Hlines : JS.split SkillLoader.LF
                     (l1 ++ String SkillLoader.LF (l2 ++ String SkillLoader.LF
                        (l3 ++ String SkillLoader.LF (l4 ++ String SkillLoader.LF
                          (l5 ++ String SkillLoader.LF (l6 ++ ""))))))
                   = [l1; l2; l3; l4; l5; l6]).
  { rewrite append_empty_r.
    repeat (rewrite split_app by (apply Hlf; cbn [In]; tauto)).
    rewrite split_one by (apply Hlf; cbn [In]; tauto). reflexivity. }
  assert (Hobj : fold_left SkillLoader.read_line [l1; l2; l3; l4; l5; l6] []
                 = [("tools", SkillLoader.items tools);
                    ("description", SkillLoader.scalar description);
                    ("mission", SkillLoader.scalar mission);
                    ("category", SkillLoader.scalar category);
                    ("version", SkillLoader.scalar version);
                    ("name", SkillLoader.scalar name)]).
  { cbn [fold_left]. unfold l1, l2, l3, l4, l5, l6.
    rewrite (read_scalar_line "name") by (reflexivity || assumption).
    rewrite (read_scalar_line "version") by (reflexivity || assumption).
    rewrite (read_scalar_line "category") by (reflexivity || assumption).
    rewrite (read_scalar_line "mission") by (reflexivity || assumption).
    rewrite (read_scalar_line "description") by (reflexivity || assumption).
    rewrite read_tools_line by assumption. reflexivity. }
  assert (Htruthy : forall s, plain_ends s = true -> JS.truthy s = true).
  { intros s Hs. unfold plain_ends in Hs. apply andb_true_iff in Hs as [Hs _].
    now apply front_plain_nonempty. }
  eexists. split.
  - unfold SkillLoader.parseSkillMd. rewrite Hdoc, Hnormal, Hmatch.
    unfold SkillLoader.parseYamlFrontMatter. rewrite Hlines, Hobj.
    cbn [find SkillLoader.required SkillLoader.obj_get SkillLoader.falsy String.eqb
         Ascii.eqb Bool.eqb].
    rewrite !Htruthy by assumption. cbn [negb]. reflexivity.
  - reflexivity.
Qed.

End RoundTrip.

Lemma parseSkillMd_errors_witness :
  (SkillLoader.frontMatterMatch (JSString.replace_crlf Bundled.unversioned) = None
   /\ SkillLoader.missing_field "SKILL.md" "version" = SkillLoader.invalid_format "SKILL.md")
  \/ (exists field,
         In field ["name"; "version"; "category"; "mission"; "description"]
         /\ SkillLoader.missing_field "SKILL.md" "version"
            = SkillLoader.missing_field "SKILL.md" field).
Proof.
  apply (@parseSkillMd_errors Bundled.unversioned "SKILL.md"). vm_compute. reflexivity.
Defined.

Lemma parsed_skill_witness :
  Forall (fun v => field_is_set v /\ trimmed_value v)
         [SkillLoader.name (SkillLoader.meta Bundled.parsed);
          SkillLoader.version (SkillLoader.meta Bundled.parsed);
          SkillLoader.category (SkillLoader.meta Bundled.parsed);
          SkillLoader.mission (SkillLoader.meta Bundled.parsed);
          SkillLoader.description (SkillLoader.meta Bundled.parsed)]
  /\ SkillLoader.tools (SkillLoader.meta Bundled.parsed) <> SkillLoader.undefined
  /\ trimmed_value (SkillLoader.tools (SkillLoader.meta Bundled.parsed))
  /\ JSString.trim (SkillLoader.instructions Bundled.parsed)
     = SkillLoader.instructions Bundled.parsed
  /\ SkillLoader.filePath Bundled.parsed = Bundled.path.
Proof.
  apply (@parsed_skill_is_trimmed
           (skill_document Bundled.mission_planning Bundled.body) Bundled.path).
  vm_compute. reflexivity.
Defined.

Lemma parseSkillMd_expected_format_witness :
  exists raw,
    SkillLoader.parseSkillMd (skill_document Bundled.mission_planning Bundled.body)
      Bundled.path = inr raw
    /\ SkillLoader.typed raw
       = Some (Skill.mk Bundled.mission_planning
                 (JSString.trim (JSString.replace_crlf Bundled.body)) Bundled.path).
Proof.
  apply (@parseSkillMd_reads_the_expected_format Bundled.mission_planning Bundled.body
           Bundled.path).
  vm_compute. reflexivity.
Defined.

(* ================================================================== *)
(** * Configuration and the task loop *)
(* ================================================================== *)

Section ConfigFacts.
Context {World : Type}.
Variable host : Host.t World.
Variable process_env : Config.Environment.

(** X29.  A variable that is set but blank reads as unset.  [env]
    returns the fallback exactly when the variable is not set or holds
    white space only, and the trimmed value, which is then not empty,
    otherwise.  So with [LLM_API_KEY] unset or blank the key read with the
    empty fallback is empty and [createLLMAdapter] gives the placeholder
    adapter, whatever the provider. *)
Theorem blank_variable_reads_as_unset (key fallback : string) :
  (blank process_env key -> Config.env process_env key fallback = fallback)
  /\ (~ blank process_env key ->
      exists value,
        process_env key = Some value
        /\ Config.env process_env key fallback = JSString.trim value
        /\ Config.env process_env key fallback <> ""
        /\ JSString.trim (Config.env process_env key fallback)
           = Config.env process_env key fallback)
  /\ (forall provider model,
         blank process_env "LLM_API_KEY" ->
         Adapter.createLLMAdapter host provider (Config.env process_env "LLM_API_KEY" "") model
         = inr (Adapter.adapter (Adapter.PlaceholderAdapter World "placeholder" "" "none"))).
Proof.
  assert (Hblank : forall k f, blank process_env k -> Config.env process_env k f = f).
  { intros k f [Hnone | (value & Hsome & Htrim)]; unfold Config.env.
    - now rewrite Hnone.
    - now rewrite Hsome, Htrim. }
  split; [apply Hblank|]. split.
  - intros Hset. unfold Config.env.
    destruct (process_env key) as [value|] eqn:Hvalue; [|exfalso; apply Hset; now left].
    exists value. split; [reflexivity|].
    destruct (JS.truthy (JSString.trim value)) eqn:Htruthy.
    + split; [reflexivity|]. split; [now apply truthy_nonempty | apply trim_idempotent].
    + exfalso. apply Hset. right. exists value. split; [exact Hvalue|].
      now apply truthy_false.
  - intros provider model Hkey. now rewrite (Hblank _ "" Hkey).
Qed.

End ConfigFacts.

Lemma blank_variable_witness :
  let process_env key :=
    if String.eqb key "LLM_API_KEY" then Some "   "
    else if String.eqb key "LLM_PROVIDER" then Some " openai "
    else None in
  Config.env process_env "LLM_PROVIDER" "anthropic" = "openai"
  /\ Adapter.createLLMAdapter Desk.offline (Config.env process_env "LLM_PROVIDER" "anthropic")
       (Config.env process_env "LLM_API_KEY" "") (Config.env process_env "LLM_MODEL" "gpt-4o")
     = inr (Adapter.adapter (Adapter.PlaceholderAdapter Stub.Notes "placeholder" "" "none")).
Proof.
  intros process_env. split; [reflexivity|].
  apply (proj2 (proj2 (blank_variable_reads_as_unset Desk.offline process_env
                         "LLM_API_KEY" ""))).
  right. exists "   ". split; reflexivity.
Defined.

Section TaskLoopFacts.
Context {World : Type}.
Variable running : World -> bool.
Variable worker : TaskWorker.t World.
Variable toLowerCase : string -> string.



End TaskLoopFacts.

(** Three passes on a platform with one task and the placeholder
    adapter: every run submits and is followed by a pause of 60 s. *)
Example taskLoop_three_passes :
  let this := Desk.worker [Stub.orbit_task] true Desk.placeholder in
  PrometheusAgent.log
    (fst (PrometheusAgent.taskLoop (fun _ => true) this Stub.lower 3
            (PrometheusAgent.mk_env Stub.start [])))
  = passes_log [inr true; inr true; inr true].
Proof. vm_compute. reflexivity. Qed.
